(** * Purchase-order tracking system: normalizer, filters, dashboard cards,
      grouped equipment report and spreadsheet import

    Shallow embedding of [app.py] and [importar_planilha_ctc.py].

    Modelling conventions.
    - A Python [str] / SQLite TEXT value is a list of characters ([str]).
      The character type is [ascii]; the model is exact for text made of
      code points below 128, where [str.upper] and SQLite's [UPPER] agree
      (a-z to A-Z) and [str.strip] removes the code points 9-13, 28-31, 32.
    - [None] / SQL NULL is [None] of an option type.
    - A Python float / SQLite REAL amount is an exact rational ([Q]); the
      rounding of binary floating-point addition is not modelled.
    - An exception is a value of [exn] carried by the [result] type. *)

From Stdlib Require Import List Ascii String ZArith QArith Qabs Lia Bool Arith.
From Stdlib Require Import Sorting.Sorted Sorting.Permutation.
Import ListNotations.

Open Scope string_scope.
Open Scope Z_scope.
Open Scope list_scope.

(* ================================================================== *)
(** * Python strings *)
(* ================================================================== *)

Module PyStr.

Definition str := list ascii.

Definition lit (s : string) : str := list_ascii_of_string s.
Coercion lit : string >-> str.

Definition str_eqb (a b : str) : bool :=
  if list_eq_dec ascii_dec a b then true else false.

(** [bool(s)] for a string: non-empty. *)
Definition truthy (s : str) : bool :=
  match s with [] => false | _ :: _ => true end.

(** [x or ""] for an optional string. *)
Definition or_empty (x : option str) : str :=
  match x with Some s => s | None => [] end.

(** Python's [str.isspace] on one character (code points below 128). *)
Definition isspace (c : ascii) : bool :=
  let n := nat_of_ascii c in
  (((9 <=? n) && (n <=? 13)) || ((28 <=? n) && (n <=? 32)))%nat.

Fixpoint drop_while (p : ascii -> bool) (s : str) : str :=
  match s with
  | [] => []
  | c :: t => if p c then drop_while p t else s
  end.

Definition lstrip (s : str) : str := drop_while isspace s.
Definition rstrip (s : str) : str := rev (drop_while isspace (rev s)).

(** [s.strip()] *)
Definition strip (s : str) : str := rstrip (lstrip s).

Definition upper_char (c : ascii) : ascii :=
  let n := nat_of_ascii c in
  if ((97 <=? n) && (n <=? 122))%nat then ascii_of_nat (n - 32) else c.

(** [s.upper()] on ASCII text: the letters a to z are raised.  A
    character outside ASCII, which [str.upper] may change and even
    replace by several, is left as it is: statements about [upper] are
    statements about ASCII text. *)
Definition upper (s : str) : str := map upper_char s.

Fixpoint starts_with (p s : str) : bool :=
  match p, s with
  | [], _ => true
  | _ :: _, [] => false
  | a :: p', b :: s' => if ascii_dec a b then starts_with p' s' else false
  end.

(** [sub in s] *)
Fixpoint contains (sub s : str) : bool :=
  match s with
  | [] => starts_with sub []
  | _ :: t => starts_with sub s || contains sub t
  end.

(** [s.replace(old, new)] for a non-empty [old]: occurrences are found
    left to right and do not overlap.  [skip] counts the characters of a
    match that are still to be consumed. *)
Fixpoint replace_aux (old new : str) (skip : nat) (s : str) : str :=
  match s with
  | [] => []
  | c :: t =>
      match skip with
      | S k => replace_aux old new k t
      | O =>
          if starts_with old s
          then new ++ replace_aux old new (List.length old - 1) t
          else c :: replace_aux old new 0 t
      end
  end.

(** With an empty [old] Python inserts [new] before every character and
    at the end. *)
Definition replace (old new s : str) : str :=
  match old with
  | [] => flat_map (fun c => new ++ [c]) s ++ new
  | _ :: _ => replace_aux old new 0 s
  end.

(** Lexicographic order on code points, the order of [sorted] on strings
    and of SQLite's BINARY collation. *)
Fixpoint str_leb (a b : str) : bool :=
  match a, b with
  | [], _ => true
  | _ :: _, [] => false
  | x :: a', y :: b' =>
      let n := nat_of_ascii x in
      let m := nat_of_ascii y in
      if (n <? m)%nat then true
      else if (m <? n)%nat then false
      else str_leb a' b'
  end.

End PyStr.
Import PyStr.

(* ================================================================== *)
(** * Normalizer ([app.py], "Normalização e utilidades") *)
(* ================================================================== *)

Definition two_spaces : str := "  ".
Definition one_space : str := " ".

(** The loop [while "  " in s: s = s.replace("  ", " ")]; every pass that
    runs shortens [s], so [length s] passes are enough. *)
Fixpoint collapse_loop (fuel : nat) (s : str) : str :=
  match fuel with
  | O => s
  | S f =>
      if contains two_spaces s
      then collapse_loop f (replace two_spaces one_space s)
      else s
  end.

(** [normalize_status(s)] *)
Definition normalize_status (s : option str) : str :=
  let s1 := upper (strip (or_empty s)) in
  collapse_loop (List.length s1) s1.

(** [normalize_tag(x)] *)
Definition normalize_tag (x : option str) : str :=
  upper (strip (or_empty x)).

(** What the specification asks of [canonical_status], in its own words:
    trim, uppercase, and every interior run of whitespace becomes one
    space. *)
Fixpoint collapse_runs (p : ascii -> bool) (in_run : bool) (s : str) : str :=
  match s with
  | [] => []
  | c :: t =>
      if p c
      then if in_run then collapse_runs p true t
           else " "%char :: collapse_runs p true t
      else c :: collapse_runs p false t
  end.

Definition spec_canonical_status (s : option str) : str :=
  collapse_runs isspace false (upper (strip (or_empty s))).

Definition is_blank_char (c : ascii) : bool :=
  if ascii_dec c " "%char then true else false.

(** Every run of the space character (code point 32) becomes one space;
    other whitespace is kept. *)
Definition squeeze_spaces (s : str) : str := collapse_runs is_blank_char false s.


(** ** Numbers and exceptions *)

Inductive exn := ValueError | OverflowError | TypeError.

Inductive result (A : Type) :=
| Ok (a : A)
| Raise (e : exn).
Arguments Ok {A} a.
Arguments Raise {A} e.

Definition digit_val (c : ascii) : option Z :=
  let n := nat_of_ascii c in
  if ((48 <=? n) && (n <=? 57))%nat then Some (Z.of_nat (n - 48)) else None.

Definition isdigit (c : ascii) : bool :=
  match digit_val c with Some _ => true | None => false end.

Definition digit_char (d : Z) : ascii := ascii_of_nat (48 + Z.to_nat d).

Fixpoint span (p : ascii -> bool) (s : str) : str * str :=
  match s with
  | [] => ([], [])
  | c :: t =>
      if p c then let (a, b) := span p t in (c :: a, b) else ([], s)
  end.

(** Value of a run of decimal digits, most significant first. *)
Definition digits_value (ds : str) : Z :=
  fold_left
    (fun acc c => 10 * acc + match digit_val c with Some d => d | None => 0 end)
    ds 0.

(** [m * 10^e] as an exact rational. *)
Definition scale10 (m e : Z) : Q :=
  if 0 <=? e then (m * 10 ^ e) # 1 else m # Z.to_pos (10 ^ (- e)).

(** Whitespace that [float()] skips at both ends of an ASCII string. *)
Definition float_isspace (c : ascii) : bool :=
  let n := nat_of_ascii c in
  (((9 <=? n) && (n <=? 13)) || (n =? 32))%nat.

Definition is_char (a c : ascii) : bool :=
  if ascii_dec a c then true else false.

(** An underscore is accepted only between two digits. *)
Fixpoint underscores_ok (prev : option ascii) (s : str) : bool :=
  match s with
  | [] => true
  | c :: t =>
      if is_char "_" c
      then match prev with Some p => isdigit p | None => false end
           && match t with d :: _ => isdigit d | [] => false end
           && underscores_ok (Some c) t
      else underscores_ok (Some c) t
  end.

Definition take_sign (s : str) : bool * str :=
  match s with
  | c :: t =>
      if is_char "-" c then (true, t)
      else if is_char "+" c then (false, t)
      else (false, s)
  | [] => (false, s)
  end.

(** The exponent suffix of a decimal literal: nothing, or [e]/[E], an
    optional sign and at least one digit, up to the end of the string. *)
Definition parse_exponent (s : str) : option Z :=
  match s with
  | [] => Some 0
  | c :: t =>
      if is_char "e" c || is_char "E" c then
        let (neg, t1) := take_sign t in
        let (ds, rest) := span isdigit t1 in
        if truthy ds && negb (truthy rest)
        then Some (if neg then - digits_value ds else digits_value ds)
        else None
      else None
  end.

(** [float(s)] for a string: the decimal literals Python accepts (sign,
    digits with single underscores, fraction, exponent), with the exact
    rational as value; rounding to a double, and with it underflow and
    overflow, are not modelled.  Any other string raises [ValueError],
    the only exception [float] raises on a [str].  The model holds
    finite amounts only: on the spellings recognised by
    [float_nao_finito] below, which [float] accepts and turns into an
    infinity or NaN, the result is not that of Python. *)
Definition py_float (s : str) : result Q :=
  let s0 := rev (drop_while float_isspace (rev (drop_while float_isspace s))) in
  if negb (underscores_ok None s0) then Raise ValueError else
  let s1 := filter (fun c => negb (is_char "_" c)) s0 in
  let (neg, s2) := take_sign s1 in
  let (ip, s3) := span isdigit s2 in
  let (fp, s4) :=
    match s3 with
    | c :: t => if is_char "." c then span isdigit t else ([], s3)
    | [] => ([], s3)
    end in
  if negb (truthy ip || truthy fp) then Raise ValueError else
  match parse_exponent s4 with
  | None => Raise ValueError
  | Some e =>
      let v := scale10 (digits_value (ip ++ fp)) (e - Z.of_nat (List.length fp)) in
      Ok (if neg then Qopp v else v)
  end.

Definition lower_char (c : ascii) : ascii :=
  let n := nat_of_ascii c in
  if ((65 <=? n) && (n <=? 90))%nat then ascii_of_nat (n + 32) else c.

Inductive nao_finito := Infinito (neg : bool) | NaN.

(** The spellings of the non-finite values that [float(s)] accepts:
    between the surrounding whitespace, an optional sign and then [inf],
    [infinity] or [nan] in any letter case. *)
Definition float_nao_finito (s : str) : option nao_finito :=
  let s0 := rev (drop_while float_isspace (rev (drop_while float_isspace s))) in
  let (neg, s1) := take_sign s0 in
  let w := map lower_char s1 in
  if str_eqb w "nan" then Some NaN
  else if str_eqb w "inf" || str_eqb w "infinity" then Some (Infinito neg)
  else None.

(** [parse_brl_number(s)]: the [try] catches [ValueError] only. *)
Definition parse_brl_number (s : option str) : result (option Q) :=
  match s with
  | None => Ok None
  | Some s0 =>
      let s1 := strip s0 in
      if negb (truthy s1) then Ok None else
      let s2 := replace " " "" (replace "R$" "" s1) in
      let s3 := replace "," "." (replace "." "" s2) in
      match py_float s3 with
      | Ok v => Ok (Some v)
      | Raise ValueError => Ok None
      | Raise e => Raise e
      end
  end.

(** Round to the nearest integer, ties to even: the rounding of the
    [.2f] presentation applied to the exact value. *)
Definition round_half_even (q : Q) : Z :=
  let n := Qnum q in
  let d := Zpos (Qden q) in
  let fl := n / d in
  let r := n mod d in
  if 2 * r <? d then fl
  else if d <? 2 * r then fl + 1
  else if Z.even fl then fl else fl + 1.

Fixpoint dec_digits_fuel (fuel : nat) (n : Z) : str :=
  match fuel with
  | O => []
  | S f =>
      if n <? 10 then [digit_char n]
      else dec_digits_fuel f (n / 10) ++ [digit_char (n mod 10)]
  end.

(** Decimal digits of a non-negative integer; the fuel exceeds the
    number of digits. *)
Definition dec_digits (n : Z) : str :=
  dec_digits_fuel (S (Z.to_nat (Z.log2 n))) n.

(** The [,] option of the format mini-language: a separator before every
    group of three digits counted from the right. *)
Fixpoint group3 (ds : str) : str :=
  match ds with
  | [] => []
  | d :: t =>
      if truthy t && (List.length t mod 3 =? 0)%nat
      then d :: ","%char :: group3 t
      else d :: group3 t
  end.

(** [f"{value:,.2f}"] *)
Definition format_comma_2f (value : Q) : str :=
  let cents := round_half_even (Qabs value * 100) in
  (if Qnum value <? 0 then [ "-"%char ] else [])
    ++ group3 (dec_digits (cents / 100))
    ++ "."%char :: [digit_char (cents mod 100 / 10); digit_char (cents mod 10)].

(** [format_currency_brl(value)] for [None] or a number. *)
Definition format_currency_brl (value : option Q) : str :=
  match value with
  | None => []
  | Some v =>
      let s := format_comma_2f v in
      replace "X" "." (replace "." "," (replace "," "X" s))
  end.

(* ================================================================== *)
(** * Order store: table [pedidos] and the SQL operators the queries use *)
(* ================================================================== *)

(** One row of [pedidos].  The invoice column is named [numero_nf] by
    [app.py] and [numero_nota_fiscal] by the import script; it is one
    field here.  The INSERT of each script is modelled on a table that
    has the columns it names (on a table without one of them SQLite
    refuses the statement). *)
Record pedido := {
  id : Z;
  nome_veiculo : option str;
  tag : option str;
  numero_sc : option str;
  data_criacao_sc : option str;
  numero_pc : option str;
  descricao_itens : option str;
  status_pedido : option str;
  data_pagamento : option str;
  numero_nf : option str;
  valor_pedido : option Q;
  nome_fornecedor : option str;
  local : option str;
  obra : option str;
  observacao : option str;
  departamento : option str;
  entrega_financeiro : option str;
  data_cadastro : option str
}.

Definition store := list pedido.

(** AUTOINCREMENT: one more than the largest id; rows are never deleted. *)
Definition next_id (db : store) : Z :=
  1 + fold_left (fun m r => Z.max m (id r)) db 0.

Module Sql.

(** A truth value of SQL: [None] is NULL. *)
Definition tv := option bool.

(** [TRIM(X)] removes the space character only. *)
Definition TRIM (x : option str) : option str :=
  match x with
  | None => None
  | Some s =>
      Some (rev (drop_while is_blank_char (rev (drop_while is_blank_char s))))
  end.

(** [UPPER(X)] converts the ASCII letters. *)
Definition UPPER (x : option str) : option str :=
  match x with None => None | Some s => Some (upper s) end.

(** [REPLACE(X, Y, Z)]; with an empty [Y] the result is [X]. *)
Definition REPLACE (x : option str) (y z : str) : option str :=
  match x with
  | None => None
  | Some s => Some (match y with [] => s | _ :: _ => replace y z s end)
  end.

(** The functions registered by [get_db_connection]. *)
Definition NORM_STATUS (x : option str) : option str := Some (normalize_status x).
Definition NORM_TAG (x : option str) : option str := Some (normalize_tag x).

(** [a = ?] against a bound text parameter. *)
Definition eq_param (a : option str) (p : str) : tv :=
  match a with None => None | Some s => Some (str_eqb s p) end.

(** [a IN (?, ?, ...)] against bound text parameters. *)
Definition in_params (a : option str) (ps : list str) : tv :=
  match a with None => None | Some s => Some (existsb (str_eqb s) ps) end.

(** [a >= b] and [a <= b] on the day numbers of two [date(...)] values. *)
Definition ge_date (a b : option Z) : tv :=
  match a, b with Some x, Some y => Some (y <=? x) | _, _ => None end.
Definition le_date (a b : option Z) : tv :=
  match a, b with Some x, Some y => Some (x <=? y) | _, _ => None end.

Definition is_true (v : tv) : bool :=
  match v with Some true => true | _ => false end.

(** A WHERE clause that is a conjunction: the row is selected when the
    conjunction is true, that is when every conjunct is. *)
Definition where_ok (clauses : list (pedido -> tv)) (r : pedido) : bool :=
  forallb (fun c => is_true (c r)) clauses.

Definition select (clauses : list (pedido -> tv)) (db : store) : list pedido :=
  filter (where_ok clauses) db.

(** [COALESCE(SUM(valor_pedido), 0)]: NULL values are not summed.  The
    values are added in row order as exact numbers; the rounding of
    float addition is not modelled, so nothing is stated about sums
    taken in another order or grouping. *)
Definition sum_valor (rows : list pedido) : Q :=
  fold_left
    (fun acc r => match valor_pedido r with Some v => (acc + v)%Q | None => acc end)
    rows 0%Q.

Definition count (rows : list pedido) : Z := Z.of_nat (List.length rows).

End Sql.

(** [request.args] / [request.form]: the (key, value) pairs in order. *)
Definition multidict := list (str * str).

Fixpoint md_get (k : str) (d : multidict) : option str :=
  match d with
  | [] => None
  | (k', v) :: t => if str_eqb k k' then Some v else md_get k t
  end.

Definition md_getlist (k : str) (d : multidict) : list str :=
  map snd (filter (fun kv => str_eqb k (fst kv)) d).

(** [(x or "").strip()] *)
Definition get_strip (k : str) (d : multidict) : str :=
  strip (or_empty (md_get k d)).

(* ================================================================== *)
(** * Dashboard ([dashboard]) *)
(* ================================================================== *)

Record filtros_dashboard := {
  f_data_inicio : str;
  f_data_fim : str;
  f_obra : str;
  f_veiculo : str;
  f_tag : str
}.

(** Lines 377-394.  [isoformat] is [date.isoformat] on day numbers and
    [hoje] is today's day number. *)
Definition dashboard_filtros (isoformat : Z -> str) (hoje : Z)
    (args : multidict) : filtros_dashboard :=
  let default_inicio := isoformat (hoje - 30) in
  let default_fim := isoformat hoje in
  let usar_padrao_30d := (List.length args =? 0)%nat in
  {| f_data_inicio :=
       if usar_padrao_30d then default_inicio else get_strip "data_inicio" args;
     f_data_fim :=
       if usar_padrao_30d then default_fim else get_strip "data_fim" args;
     f_obra := get_strip "obra" args;
     f_veiculo := get_strip "veiculo" args;
     f_tag := get_strip "tag" args |}.

Definition opt_bind {A B} (x : option A) (f : A -> option B) : option B :=
  match x with Some a => f a | None => None end.

(** Lines 409-432.  [sql_date] is SQLite's [date()] on a text value: the
    day number of the calendar date it denotes, NULL when it denotes
    none. *)
Definition dashboard_where (sql_date : str -> option Z)
    (filtros : filtros_dashboard) : list (pedido -> Sql.tv) :=
  (if truthy (f_data_inicio filtros)
   then [fun r => Sql.ge_date (opt_bind (data_criacao_sc r) sql_date)
                              (sql_date (f_data_inicio filtros))]
   else [])
  ++ (if truthy (f_data_fim filtros)
      then [fun r => Sql.le_date (opt_bind (data_criacao_sc r) sql_date)
                                 (sql_date (f_data_fim filtros))]
      else [])
  ++ (if truthy (f_obra filtros)
      then [fun r => Sql.eq_param (obra r) (f_obra filtros)]
      else [])
  ++ (if truthy (f_veiculo filtros)
      then [fun r => Sql.eq_param (nome_veiculo r) (f_veiculo filtros)]
      else [])
  ++ (if truthy (f_tag filtros)
      then [fun r => Sql.eq_param (Sql.NORM_TAG (tag r))
                                  (normalize_tag (Some (f_tag filtros)))]
      else []).

Definition dashboard_rows (sql_date : str -> option Z) (isoformat : Z -> str)
    (hoje : Z) (args : multidict) (db : store) : list pedido :=
  Sql.select (dashboard_where sql_date (dashboard_filtros isoformat hoje args)) db.

(** One row of the query grouped by [NORM_STATUS(status_pedido)]. *)
Record status_row := {
  sr_status_pedido : str;
  sr_qtd : Z;
  sr_valor_total : Q
}.

Definition nova_linha_status (k : str) (v : option Q) : status_row :=
  {| sr_status_pedido := k;
     sr_qtd := 1;
     sr_valor_total := match v with Some x => (0 + x)%Q | None => 0%Q end |}.

Definition soma_linha_status (v : option Q) (g : status_row) : status_row :=
  {| sr_status_pedido := sr_status_pedido g;
     sr_qtd := sr_qtd g + 1;
     sr_valor_total :=
       match v with
       | Some x => (sr_valor_total g + x)%Q
       | None => sr_valor_total g
       end |}.

(** GROUP BY: the row joins the group of its key, or opens one.  COUNT
    counts every row, SUM skips the NULL values. *)
Fixpoint group_add (k : str) (v : option Q) (gs : list status_row)
  : list status_row :=
  match gs with
  | [] => [nova_linha_status k v]
  | g :: rest =>
      if str_eqb k (sr_status_pedido g)
      then soma_linha_status v g :: rest
      else g :: group_add k v rest
  end.

Definition group_by_status (rows : list pedido) : list status_row :=
  fold_left
    (fun gs r => group_add (normalize_status (status_pedido r)) (valor_pedido r) gs)
    rows [].

(** ORDER BY on a text key (and [sorted] with a key function): stable
    insertion into ascending order. *)
Fixpoint insert_by {A} (key : A -> str) (x : A) (l : list A) : list A :=
  match l with
  | [] => [x]
  | y :: t => if str_leb (key x) (key y) then x :: l else y :: insert_by key x t
  end.

Definition sort_by {A} (key : A -> str) (l : list A) : list A :=
  fold_right (insert_by key) [] l.

(** The query of lines 444-457: GROUP BY and ORDER BY
    [NORM_STATUS(status_pedido)]. *)
Definition rows_status (rows : list pedido) : list status_row :=
  sort_by sr_status_pedido (group_by_status rows).

(** Line 458. *)
Definition por_status (rows : list pedido) : list status_row :=
  map (fun r => {| sr_status_pedido := strip (sr_status_pedido r);
                   sr_qtd := sr_qtd r;
                   sr_valor_total := sr_valor_total r |})
      (rows_status rows).

Record cartoes := {
  qtd_em_aberto : Z; valor_em_aberto : Q;
  qtd_aguardando_pagamento : Z; valor_aguardando_pagamento : Q;
  qtd_pago : Z; valor_pago : Q;
  qtd_cancelado : Z; valor_cancelado : Q
}.

Definition cartoes_zero : cartoes :=
  {| qtd_em_aberto := 0; valor_em_aberto := 0%Q;
     qtd_aguardando_pagamento := 0; valor_aguardando_pagamento := 0%Q;
     qtd_pago := 0; valor_pago := 0%Q;
     qtd_cancelado := 0; valor_cancelado := 0%Q |}.

(** Body of the loop of lines 464-473. *)
Definition cartoes_step (c : cartoes) (r : status_row) : cartoes :=
  let su := normalize_status (Some (sr_status_pedido r)) in
  if str_eqb su "EM ABERTO" then
    {| qtd_em_aberto := sr_qtd r; valor_em_aberto := sr_valor_total r;
       qtd_aguardando_pagamento := qtd_aguardando_pagamento c;
       valor_aguardando_pagamento := valor_aguardando_pagamento c;
       qtd_pago := qtd_pago c; valor_pago := valor_pago c;
       qtd_cancelado := qtd_cancelado c; valor_cancelado := valor_cancelado c |}
  else if str_eqb su "AGUARDANDO PAGAMENTO" then
    {| qtd_em_aberto := qtd_em_aberto c; valor_em_aberto := valor_em_aberto c;
       qtd_aguardando_pagamento := sr_qtd r;
       valor_aguardando_pagamento := sr_valor_total r;
       qtd_pago := qtd_pago c; valor_pago := valor_pago c;
       qtd_cancelado := qtd_cancelado c; valor_cancelado := valor_cancelado c |}
  else if str_eqb su "PAGO" then
    {| qtd_em_aberto := qtd_em_aberto c; valor_em_aberto := valor_em_aberto c;
       qtd_aguardando_pagamento := qtd_aguardando_pagamento c;
       valor_aguardando_pagamento := valor_aguardando_pagamento c;
       qtd_pago := sr_qtd r; valor_pago := sr_valor_total r;
       qtd_cancelado := qtd_cancelado c; valor_cancelado := valor_cancelado c |}
  else if str_eqb su "CANCELADO" then
    {| qtd_em_aberto := qtd_em_aberto c; valor_em_aberto := valor_em_aberto c;
       qtd_aguardando_pagamento := qtd_aguardando_pagamento c;
       valor_aguardando_pagamento := valor_aguardando_pagamento c;
       qtd_pago := qtd_pago c; valor_pago := valor_pago c;
       qtd_cancelado := sr_qtd r; valor_cancelado := sr_valor_total r |}
  else c.

Definition dashboard_cartoes (rows : list pedido) : cartoes :=
  fold_left cartoes_step (por_status rows) cartoes_zero.

(** The four cards, by label. *)
Definition card (c : cartoes) (label : str) : option (Z * Q) :=
  if str_eqb label "EM ABERTO" then Some (qtd_em_aberto c, valor_em_aberto c)
  else if str_eqb label "AGUARDANDO PAGAMENTO"
  then Some (qtd_aguardando_pagamento c, valor_aguardando_pagamento c)
  else if str_eqb label "PAGO" then Some (qtd_pago c, valor_pago c)
  else if str_eqb label "CANCELADO" then Some (qtd_cancelado c, valor_cancelado c)
  else None.

Definition card_labels : list str :=
  [lit "EM ABERTO"; lit "AGUARDANDO PAGAMENTO"; lit "PAGO"; lit "CANCELADO"].

(** Lines 434-441. *)
Definition total_pedidos (rows : list pedido) : Z := Sql.count rows.
Definition total_valor (rows : list pedido) : Q := Sql.sum_valor rows.

(* ================================================================== *)
(** * Order list ([listar_pedidos]) *)
(* ================================================================== *)

(** Lines 542-546. *)
Definition listar_tags (args : multidict) : list str :=
  map (fun t => normalize_tag (Some t))
      (filter (fun t => truthy (strip t)) (md_getlist "tags" args)).

Definition listar_status_norm (args : multidict) : str :=
  normalize_status (Some (get_strip "status" args)).

(** The SQL expression of line 560 on the stored status. *)
Definition sql_status_expr (r : pedido) : option str :=
  Sql.REPLACE (Sql.REPLACE (Sql.UPPER (Sql.TRIM (status_pedido r))) "  " " ")
              "  " " ".

(** Lines 548-564. *)
Definition listar_where (args : multidict) : list (pedido -> Sql.tv) :=
  let tags := listar_tags args in
  let status_norm := listar_status_norm args in
  (match tags with
   | [] => []
   | _ :: _ => [fun r => Sql.in_params (Sql.UPPER (Sql.TRIM (tag r))) tags]
   end)
  ++ (if truthy status_norm
      then [fun r => Sql.eq_param (sql_status_expr r) status_norm]
      else []).

Definition listar_pedidos (args : multidict) (db : store) : list pedido :=
  Sql.select (listar_where args) db.

(* ================================================================== *)
(** * New order ([novo_pedido]) *)
(* ================================================================== *)

Record http_request := {
  method : str;
  form : multidict;
  usuario_id_in_session : bool
}.

Inductive response :=
| Redirect (endpoint : str)
| RenderTemplate (template : str)
| Failure (e : exn).

(** What a view leaves behind: the response, the flashed (message,
    category) pairs and the table. *)
Record outcome := {
  resp : response;
  flashed : list (str * str);
  db_after : store
}.

Definition msg_obrigatorios : str := "TAG e ITENS são obrigatórios.".
Definition msg_cadastrado : str := "Pedido cadastrado com sucesso!".

(** [login_required] around the view of lines 627-670.  [agora] is the
    value of [datetime('now','localtime')], the default of
    [data_cadastro]. *)
Definition novo_pedido (agora : str) (req : http_request) (db : store) : outcome :=
  if negb (usuario_id_in_session req) then
    {| resp := Redirect "login"; flashed := []; db_after := db |}
  else if str_eqb (method req) "POST" then
    let f := form req in
    let nome_veiculo_ := get_strip "nome_veiculo" f in
    let tag_ := normalize_tag (md_get "tag" f) in
    let status_pedido_ := normalize_status (md_get "status_pedido" f) in
    let numero_sc_ := get_strip "numero_sc" f in
    let data_criacao_sc_ := get_strip "data_criacao_sc" f in
    let numero_pc_ := get_strip "numero_pc" f in
    let descricao_itens_ := get_strip "descricao_itens" f in
    match parse_brl_number (md_get "valor_pedido" f) with
    | Raise e => {| resp := Failure e; flashed := []; db_after := db |}
    | Ok valor_pedido_ =>
        let nome_fornecedor_ := get_strip "nome_fornecedor" f in
        let obra_ := get_strip "obra" f in
        if negb (truthy tag_) || negb (truthy descricao_itens_) then
          {| resp := RenderTemplate "pedidos_form.html";
             flashed := [(msg_obrigatorios, lit "warning")];
             db_after := db |}
        else
          {| resp := Redirect "listar_pedidos";
             flashed := [(msg_cadastrado, lit "success")];
             db_after :=
               db ++ [{| id := next_id db;
                         nome_veiculo := Some nome_veiculo_;
                         tag := Some tag_;
                         numero_sc := Some numero_sc_;
                         data_criacao_sc := Some data_criacao_sc_;
                         numero_pc := Some numero_pc_;
                         descricao_itens := Some descricao_itens_;
                         status_pedido := Some status_pedido_;
                         data_pagamento := None;
                         numero_nf := None;
                         valor_pedido := valor_pedido_;
                         nome_fornecedor := Some nome_fornecedor_;
                         local := None;
                         obra := Some obra_;
                         observacao := None;
                         departamento := None;
                         entrega_financeiro := None;
                         data_cadastro := Some agora |}] |}
    end
  else
    {| resp := RenderTemplate "pedidos_form.html"; flashed := []; db_after := db |}.

(* ================================================================== *)
(** * Report by equipment ([relatorios_equipamentos] and its PDF twin) *)
(* ================================================================== *)

Record grupo := {
  g_nome_veiculo : str;
  g_pedidos : list pedido;
  g_total : Q
}.

(** A [dict] keeps its keys in insertion order. *)
Definition dict := list (str * grupo).

Fixpoint dict_mem (k : str) (d : dict) : bool :=
  match d with
  | [] => false
  | (k', _) :: t => str_eqb k k' || dict_mem k t
  end.

Fixpoint dict_adjust (k : str) (f : grupo -> grupo) (d : dict) : dict :=
  match d with
  | [] => []
  | (k', g) :: t =>
      if str_eqb k k' then (k', f g) :: t else (k', g) :: dict_adjust k f t
  end.

Definition sem_tag : str := "SEM TAG".

(** [(r["tag"] or "SEM TAG").strip()] *)
Definition chave_tag (r : pedido) : str :=
  strip (match tag r with
         | Some s => if truthy s then s else sem_tag
         | None => sem_tag
         end).

(** [r["valor_pedido"] or 0.0] *)
Definition valor_ou_zero (r : pedido) : Q :=
  match valor_pedido r with Some v => v | None => 0%Q end.

(** Body of the loop of lines 933-945 (and 1019-1031), on the pair
    ([grupos], [total_geral]).  Each [+=] adds exact numbers, in row
    order; the rounding of float addition is not modelled. *)
Definition agrupa_step (acc : dict * Q) (r : pedido) : dict * Q :=
  let (grupos, total_geral) := acc in
  let t := chave_tag r in
  let grupos1 :=
    if negb (dict_mem t grupos)
    then grupos ++ [(t, {| g_nome_veiculo := strip (or_empty (nome_veiculo r));
                           g_pedidos := [];
                           g_total := 0%Q |})]
    else grupos in
  let valor := valor_ou_zero r in
  let grupos2 :=
    dict_adjust t
      (fun g => {| g_nome_veiculo := g_nome_veiculo g;
                   g_pedidos := g_pedidos g ++ [r];
                   g_total := (g_total g + valor)%Q |})
      grupos1 in
  (grupos2, (total_geral + valor)%Q).

Definition agrupa_por_tag (rows : list pedido) : dict * Q :=
  fold_left agrupa_step rows ([], 0%Q).

(** [sorted(grupos.items(), key=lambda x: x[0])], line 1081. *)
Definition sorted_items (d : dict) : dict := sort_by fst d.

Definition soma_totais (d : dict) : Q :=
  fold_left (fun acc kg => (acc + g_total (snd kg))%Q) d 0%Q.

Definition soma_valores (rows : list pedido) : Q :=
  fold_left (fun acc r => (acc + valor_ou_zero r)%Q) rows 0%Q.

(* ================================================================== *)
(** * Spreadsheet import ([importar_planilha_ctc.py]) *)
(* ================================================================== *)

Record datetime := {
  dt_year : Z; dt_month : Z; dt_day : Z;
  dt_hour : Z; dt_minute : Z; dt_second : Z
}.

(** A cell value as [iter_rows(values_only=True)] yields it. *)
Inductive cell :=
| CNone
| CBool (b : bool)
| CInt (z : Z)
| CFloat (q : Q)
| CStr (s : str)
| CDatetime (d : datetime).

(** Library functions the import uses and the model leaves open:
    [repr] of a float, and [datetime.strptime] with a format ([None]
    stands for its [ValueError]). *)
Record pylib := {
  float_repr : Q -> str;
  strptime : str -> str -> option datetime
}.

Definition zpad (w : nat) (n : Z) : str :=
  let ds := dec_digits n in
  repeat "0"%char (w - List.length ds) ++ ds.

(** [d.strftime("%Y-%m-%d")], for years of four digits. *)
Definition strftime_ymd (d : datetime) : str :=
  zpad 4 (dt_year d) ++ "-"%char :: zpad 2 (dt_month d)
    ++ "-"%char :: zpad 2 (dt_day d).

Definition strftime_hms (d : datetime) : str :=
  zpad 2 (dt_hour d) ++ ":"%char :: zpad 2 (dt_minute d)
    ++ ":"%char :: zpad 2 (dt_second d).

(** [d.strftime("%Y-%m-%d %H:%M:%S")], also [str(d)] for a value
    without microseconds. *)
Definition strftime_ymd_hms (d : datetime) : str :=
  strftime_ymd d ++ " "%char :: strftime_hms d.

(** [str(v)] *)
Definition py_str (L : pylib) (v : cell) : str :=
  match v with
  | CNone => "None"
  | CBool true => "True"
  | CBool false => "False"
  | CInt z => if z <? 0 then "-"%char :: dec_digits (- z) else dec_digits z
  | CFloat q => float_repr L q
  | CStr s => s
  | CDatetime d => strftime_ymd_hms d
  end.

(** [bool(v)] *)
Definition cell_truthy (v : cell) : bool :=
  match v with
  | CNone => false
  | CBool b => b
  | CInt z => negb (z =? 0)
  | CFloat q => negb (Qnum q =? 0)
  | CStr s => truthy s
  | CDatetime _ => true
  end.

(** [float(valor)] for an [int] raises [OverflowError] from this
    magnitude on (the value would round to 2^1024). *)
Definition float_int_limit : Z := 2 ^ 1024 - 2 ^ 970.

(** [parse_valor_import(valor)] *)
Definition parse_valor_import (L : pylib) (valor : cell) : result Q :=
  match valor with
  | CNone => Ok 0%Q
  | CBool b => Ok (if b then 1%Q else 0%Q)
  | CInt z =>
      if Z.abs z <? float_int_limit then Ok (inject_Z z) else Raise OverflowError
  | CFloat q => Ok q
  | _ =>
      let s := strip (py_str L valor) in
      if negb (truthy s) then Ok 0%Q else
      let s1 := replace "," "." (replace "." "" s) in
      match py_float s1 with
      | Ok v => Ok v
      | Raise ValueError => Ok 0%Q
      | Raise e => Raise e
      end
  end.

(** [parse_data(cell)] *)
Definition parse_data (L : pylib) (c : cell) : str :=
  match c with
  | CNone => []
  | CDatetime d => strftime_ymd d
  | _ =>
      let s := strip (py_str L c) in
      if negb (truthy s) then [] else
      match strptime L s "%d/%m/%Y" with
      | Some dt => strftime_ymd dt
      | None =>
          match strptime L s "%Y-%m-%d" with
          | Some dt => strftime_ymd dt
          | None => s
          end
      end
  end.

(** [ja_existe_pedido(cur, numero_pc, numero_sc)] on the table [db]. *)
Definition ja_existe_pedido (db : store) (numero_pc_ numero_sc_ : str) : bool :=
  if negb (truthy numero_pc_) && negb (truthy numero_sc_) then false
  else
    match
      Sql.select [ (fun r => Sql.eq_param (numero_pc r) numero_pc_);
                   (fun r => Sql.eq_param (numero_sc r) numero_sc_) ] db
    with
    | [] => false
    | _ :: _ => true
    end.

(** The inner helper [s(v)] of [importar]. *)
Definition s_ (L : pylib) (v : cell) : str :=
  match v with
  | CNone => []
  | _ => strip (py_str L v)
  end.

(** [cols[i] if len(cols) > i else dflt] *)
Definition col (cols : list cell) (i : nat) (dflt : cell) : cell :=
  nth i cols dflt.

Record import_state := {
  st_db : store;
  inseridos : Z;
  pulados : Z
}.

(** The row the INSERT of lines 207-235 adds. *)
Definition linha_importada (L : pylib) (agora : datetime) (db : store)
    (cols : list cell) (valor : Q) : pedido :=
  {| id := next_id db;
     nome_veiculo := Some (s_ L (col cols 0 (CStr [])));
     tag := Some (s_ L (col cols 1 (CStr [])));
     numero_sc := Some (s_ L (col cols 4 (CStr [])));
     data_criacao_sc := Some (parse_data L (col cols 3 CNone));
     numero_pc := Some (s_ L (col cols 5 (CStr [])));
     descricao_itens := Some (s_ L (col cols 2 (CStr [])));
     status_pedido := Some (s_ L (col cols 7 (CStr [])));
     data_pagamento := Some (parse_data L (col cols 8 CNone));
     numero_nf := Some (s_ L (col cols 9 (CStr [])));
     valor_pedido := Some valor;
     nome_fornecedor := Some (s_ L (col cols 6 (CStr [])));
     local := Some (s_ L (col cols 11 (CStr [])));
     obra := Some (s_ L (col cols 14 (CStr [])));
     observacao := Some (s_ L (col cols 13 (CStr [])));
     departamento := Some (s_ L (col cols 15 (CStr [])));
     entrega_financeiro := Some (s_ L (col cols 12 (CStr [])));
     data_cadastro := Some (strftime_ymd_hms agora) |}.

(** One iteration of the loop of lines 142-236 on one sheet row. *)
Definition importar_linha (L : pylib) (agora : datetime) (st : import_state)
    (cols : list cell) : result import_state :=
  if negb (existsb cell_truthy (firstn 16 cols)) then Ok st
  else
    let numero_sc_ := s_ L (col cols 4 (CStr [])) in
    let numero_pc_ := s_ L (col cols 5 (CStr [])) in
    match parse_valor_import L (col cols 10 CNone) with
    | Raise e => Raise e
    | Ok valor =>
        if ja_existe_pedido (st_db st) numero_pc_ numero_sc_ then
          Ok {| st_db := st_db st;
                inseridos := inseridos st;
                pulados := pulados st + 1 |}
        else
          Ok {| st_db := st_db st ++ [linha_importada L agora (st_db st) cols valor];
                inseridos := inseridos st + 1;
                pulados := pulados st |}
    end.

(** The loop over the sheet rows; [relogio k] is the clock read while
    the [k]-th row is handled. *)
Fixpoint importar_linhas (L : pylib) (relogio : nat -> datetime) (k : nat)
    (st : import_state) (rows : list (list cell)) : result import_state :=
  match rows with
  | [] => Ok st
  | cols :: rest =>
      match importar_linha L (relogio k) st cols with
      | Raise e => Raise e
      | Ok st1 => importar_linhas L relogio (S k) st1 rest
      end
  end.

Definition importar (L : pylib) (relogio : nat -> datetime) (db : store)
    (rows : list (list cell)) : result import_state :=
  importar_linhas L relogio 0 {| st_db := db; inseridos := 0; pulados := 0 |} rows.

(* ================================================================== *)
(** * Predicates and auxiliary functions used in the statements *)
(* ================================================================== *)

(** No character satisfying [p] at either end. *)
Definition trimmed (p : ascii -> bool) (s : str) : Prop :=
  (forall c t, s = c :: t -> p c = false) /\
  (forall l c, s = l ++ [c] -> p c = false).

Definition head_not_blank (s : str) : Prop :=
  match s with [] => True | c :: _ => is_blank_char c = false end.

(** Replacement of one character by another. *)
Definition subst_char (a b c : ascii) : ascii :=
  if ascii_dec a c then b else c.

(** Exchange of the two separators, the effect of the three [replace]
    calls of [format_currency_brl] on a string without [X]. *)
Definition swap_sep (c : ascii) : ascii :=
  if ascii_dec c "," then "."%char
  else if ascii_dec c "." then ","%char
  else c.

(** Characters of a formatted amount. *)
Definition fmt_char (c : ascii) : bool :=
  isdigit c || is_char "," c || is_char "." c.

(** Rows whose canonical status is [k]. *)
Definition com_status (k : str) (rows : list pedido) : list pedido :=
  filter (fun r => str_eqb (normalize_status (status_pedido r)) k) rows.

Definition soma_qtd (gs : list status_row) : Z :=
  fold_right (fun g acc => sr_qtd g + acc) 0 gs.

(** The row [r] with another value in [data_criacao_sc]. *)
Definition com_data_criacao_sc (v : option str) (r : pedido) : pedido :=
  {| id := id r; nome_veiculo := nome_veiculo r; tag := tag r;
     numero_sc := numero_sc r; data_criacao_sc := v; numero_pc := numero_pc r;
     descricao_itens := descricao_itens r; status_pedido := status_pedido r;
     data_pagamento := data_pagamento r; numero_nf := numero_nf r;
     valor_pedido := valor_pedido r; nome_fornecedor := nome_fornecedor r;
     local := local r; obra := obra r; observacao := observacao r;
     departamento := departamento r; entrega_financeiro := entrega_financeiro r;
     data_cadastro := data_cadastro r |}.

(** A row given by the columns the examples vary; the others are NULL. *)
Definition pedido_exemplo (i : Z) (tag_ status_ pc sc data : option str)
    (valor : option Q) : pedido :=
  {| id := i; nome_veiculo := None; tag := tag_; numero_sc := sc;
     data_criacao_sc := data; numero_pc := pc; descricao_itens := None;
     status_pedido := status_; data_pagamento := None; numero_nf := None;
     valor_pedido := valor; nome_fornecedor := None; local := None;
     obra := None; observacao := None; departamento := None;
     entrega_financeiro := None; data_cadastro := None |}.

(** The requisition date of [r] read by [date()] is a day in [lo, hi]. *)
Definition data_no_intervalo (sql_date : str -> option Z) (lo hi : Z)
    (r : pedido) : Prop :=
  exists d, opt_bind (data_criacao_sc r) sql_date = Some d /\ lo <= d <= hi.

(** The same as a test on the row. *)
Definition no_intervalo (sql_date : str -> option Z) (lo hi : Z)
    (r : pedido) : bool :=
  match opt_bind (data_criacao_sc r) sql_date with
  | Some d => (lo <=? d) && (d <=? hi)
  | None => false
  end.

(** An existing row carries the pair, and the pair is not entirely blank. *)
Definition par_duplicado (db : store) (pc sc : str) : Prop :=
  (pc <> [] \/ sc <> []) /\
  exists r, In r db /\ numero_pc r = Some pc /\ numero_sc r = Some sc.

(** A sheet row that the blank-line guard of line 148 lets through. *)
Definition linha_com_dados (cols : list cell) : Prop :=
  existsb cell_truthy (firstn 16 cols) = true.

(** An amount cell that [float] converts: an integer cell is within the
    range of a double (beyond it [float] raises [OverflowError]). *)
Definition cell_in_range (c : cell) : Prop :=
  match c with
  | CInt z => Z.abs z < float_int_limit
  | _ => True
  end.

(** The text [parse_valor_import] hands to [float]. *)
Definition texto_valor_import (s : str) : str :=
  replace "," "." (replace "." "" (strip s)).

(** The text [parse_brl_number] hands to [float]. *)
Definition texto_valor_brl (s : str) : str :=
  replace "," "." (replace "." "" (replace " " "" (replace "R$" "" (strip s)))).

(** ** An instance of the two date functions

    The dashboard functions take [date.isoformat] and SQLite's [date()]
    as parameters.  The instance below exhibits the hypotheses made on
    them at a concrete day: [date_isoformat] is [date.isoformat] on
    proleptic Gregorian ordinals, and [data_iso] reads a text that is a
    calendar date written YYYY-MM-DD, giving its ordinal, and gives NULL
    on any other text.  It is not SQLite's [date()], which also reads
    timestamps and day numbers beyond the length of the month. *)

Definition days_from_civil (y m d : Z) : Z :=
  let y1 := if m <=? 2 then y - 1 else y in
  let era := y1 / 400 in
  let yoe := y1 - era * 400 in
  let mp := if 2 <? m then m - 3 else m + 9 in
  let doy := (153 * mp + 2) / 5 + d - 1 in
  let doe := yoe * 365 + yoe / 4 - yoe / 100 + doy in
  era * 146097 + doe - 719468.

Definition civil_from_days (z0 : Z) : Z * Z * Z :=
  let z := z0 + 719468 in
  let era := z / 146097 in
  let doe := z - era * 146097 in
  let yoe := (doe - doe / 1460 + doe / 36524 - doe / 146096) / 365 in
  let doy := doe - (365 * yoe + yoe / 4 - yoe / 100) in
  let mp := (5 * doy + 2) / 153 in
  let d := doy - (153 * mp + 2) / 5 + 1 in
  let m := if mp <? 10 then mp + 3 else mp - 9 in
  (if m <=? 2 then yoe + era * 400 + 1 else yoe + era * 400, m, d).

(** Ordinal 1 is 0001-01-01, as [date.toordinal]. *)
Definition date_isoformat (ord : Z) : str :=
  let '(y, m, d) := civil_from_days (ord - 719163) in
  zpad 4 y ++ "-"%char :: zpad 2 m ++ "-"%char :: zpad 2 d.

Definition ano_bissexto (y : Z) : bool :=
  ((y mod 4 =? 0) && negb (y mod 100 =? 0)) || (y mod 400 =? 0).

Definition dias_do_mes (y m : Z) : Z :=
  if m =? 2 then (if ano_bissexto y then 29 else 28)
  else if (m =? 4) || (m =? 6) || (m =? 9) || (m =? 11) then 30
  else 31.

Definition data_iso (s : str) : option Z :=
  match s with
  | [y1; y2; y3; y4; h1; m1; m2; h2; d1; d2] =>
      if forallb isdigit [y1; y2; y3; y4; m1; m2; d1; d2]
         && is_char "-" h1 && is_char "-" h2
      then
        let y := digits_value [y1; y2; y3; y4] in
        let m := digits_value [m1; m2] in
        let d := digits_value [d1; d2] in
        if (1 <=? m) && (m <=? 12) && (1 <=? d) && (d <=? dias_do_mes y m)
        then Some (days_from_civil y m d + 719163)
        else None
      else None
  | _ => None
  end.

(** ** An instance of the library functions of the import

    It serves the examples and witnesses, whose sheets hold text and
    empty cells only: [float_repr] is [repr] on the non-negative whole
    numbers and [strptime] reads no text. *)

Definition pylib_exemplo : pylib :=
  {| float_repr := fun q => dec_digits (Qnum q / Zpos (Qden q)) ++ lit ".0";
     strptime := fun _ _ => None |}.

(** What an import step reports: rows inserted, rows skipped, size of
    the table. *)
Definition resumo (r : result import_state) : option (Z * Z * nat) :=
  match r with
  | Ok st => Some (inseridos st, pulados st, List.length (st_db st))
  | Raise _ => None
  end.

Definition estado_inicial (db : store) : import_state :=
  {| st_db := db; inseridos := 0; pulados := 0 |}.

Definition meia_noite : datetime :=
  {| dt_year := 2024; dt_month := 1; dt_day := 2;
     dt_hour := 0; dt_minute := 0; dt_second := 0 |}.

(** A sheet row with equipment, tag, description, no date, and the given
    requisition and purchase-order numbers. *)
Definition linha_planilha (sc pc : cell) : list cell :=
  [CStr "ESCAVADEIRA"; CStr "EQ-01"; CStr "FILTRO"; CNone; sc; pc].

(* ================================================================== *)
(** * Further definitions used in the statements *)
(* ================================================================== *)

(** The currency prefix as users type it. *)
Definition prefixo_moeda : str := "R$ ".

(** ** General report ([relatorios_pdf]): totals per status *)

Definition sem_status : str := "SEM STATUS".

(** [normalize_status(r["status_pedido"]) or "SEM STATUS"] *)
Definition rotulo_status (r : pedido) : str :=
  let st := normalize_status (status_pedido r) in
  if truthy st then st else sem_status.

(** [d.get(k, dflt)] on a dict of amounts. *)
Fixpoint totais_get (k : str) (d : list (str * Q)) (dflt : Q) : Q :=
  match d with
  | [] => dflt
  | (k', x) :: t => if str_eqb k k' then x else totais_get k t dflt
  end.

(** [d[k] = v]: an existing key keeps its place, a new one goes last. *)
Fixpoint totais_set (k : str) (v : Q) (d : list (str * Q)) : list (str * Q) :=
  match d with
  | [] => [(k, v)]
  | (k', x) :: t =>
      if str_eqb k k' then (k', v) :: t else (k', x) :: totais_set k v t
  end.

(** Body of the loop of lines 790-794, on ([total_valor],
    [totais_status]).  Each addition is exact, in row order; the
    rounding of float addition is not modelled. *)
Definition totais_step (acc : Q * list (str * Q)) (r : pedido)
  : Q * list (str * Q) :=
  let (total_valor_, totais_status) := acc in
  let valor := valor_ou_zero r in
  let st := rotulo_status r in
  ((total_valor_ + valor)%Q,
   totais_set st (totais_get st totais_status 0 + valor)%Q totais_status).

Definition relatorios_pdf_totais (resultados : list pedido)
  : Q * list (str * Q) :=
  fold_left totais_step resultados (0%Q, []).

(** [sorted(totais_status.items())], line 835; the keys are distinct, so
    the pairs are ordered by key. *)
Definition resumo_por_status (resultados : list pedido) : list (str * Q) :=
  sort_by fst (snd (relatorios_pdf_totais resultados)).

(** ** Insertion-ordered maps, for the statements about the reports *)

(** Update of the value at [k] from the old value, a new key going last. *)
Fixpoint upd {V} (k : str) (f : option V -> V) (d : list (str * V))
  : list (str * V) :=
  match d with
  | [] => [(k, f None)]
  | (k', v) :: t =>
      if str_eqb k k' then (k', f (Some v)) :: t else (k', v) :: upd k f t
  end.

(** The group that a list of rows forms in the report by equipment: the
    equipment name of the first row, the rows, the sum of their values. *)
Definition grupo_das_linhas (l : list pedido) : grupo :=
  {| g_nome_veiculo :=
       match l with r :: _ => strip (or_empty (nome_veiculo r)) | [] => [] end;
     g_pedidos := l;
     g_total := soma_valores l |}.

(** What the loop of the report by equipment does to the group of a
    row's key: open it if there is none, then add the row. *)
Definition passo_grupo (r : pedido) (o : option grupo) : grupo :=
  let g := match o with
           | Some g => g
           | None => {| g_nome_veiculo := strip (or_empty (nome_veiculo r));
                        g_pedidos := [];
                        g_total := 0%Q |}
           end in
  {| g_nome_veiculo := g_nome_veiculo g;
     g_pedidos := g_pedidos g ++ [r];
     g_total := (g_total g + valor_ou_zero r)%Q |}.

(** What the loop of the general report does to the total of a row's
    status. *)
Definition passo_total (r : pedido) (o : option Q) : Q :=
  (match o with Some x => x | None => 0 end + valor_ou_zero r)%Q.

(** One entry per key, built by folding [upd] over the rows. *)
Definition group_fold {R V} (key : R -> str) (step : R -> option V -> V)
    (rows : list R) : list (str * V) :=
  fold_left (fun d r => upd (key r) (step r) d) rows [].

Definition with_key {R} (key : R -> str) (k : str) (rows : list R) : list R :=
  filter (fun r => str_eqb (key r) k) rows.

(** ** The import, for the statements about a whole run *)

(** The guard of line 148 as a test. *)
Definition tem_dados (cols : list cell) : bool :=
  existsb cell_truthy (firstn 16 cols).

Definition numero_pc_linha (L : pylib) (cols : list cell) : str :=
  s_ L (col cols 5 (CStr [])).

Definition numero_sc_linha (L : pylib) (cols : list cell) : str :=
  s_ L (col cols 4 (CStr [])).

(** The row has a purchase-order or a requisition number. *)
Definition tem_numero (L : pylib) (cols : list cell) : bool :=
  truthy (numero_pc_linha L cols) || truthy (numero_sc_linha L cols).

(** The (PO, requisition) pair a stored row answers to in the duplicate
    check: none when a column is NULL or both are empty. *)
Definition chave_par (r : pedido) : list (str * str) :=
  match numero_pc r, numero_sc r with
  | Some p, Some s => if truthy p || truthy s then [(p, s)] else []
  | _, _ => []
  end.

Definition pares (db : store) : list (str * str) := flat_map chave_par db.

(** [tag IS NOT NULL AND TRIM(tag) <> ''] *)
Definition where_tem_tag : list (pedido -> Sql.tv) :=
  [ (fun r => Some (match tag r with Some _ => true | None => false end));
    (fun r => match Sql.TRIM (tag r) with
              | Some s => Some (negb (str_eqb s []))
              | None => None
              end) ].

(** SELECT DISTINCT on one text column: each value once. *)
Fixpoint distinct (l : list str) : list str :=
  match l with
  | [] => []
  | x :: t => x :: filter (fun y => negb (str_eqb x y)) (distinct t)
  end.

(** Lines 406-407 of [dashboard]: the tags offered by the tag filter,
    [SELECT DISTINCT NORM_TAG(tag) AS tag ... ORDER BY tag] and then the
    entries that are not empty. *)
Definition dashboard_lista_tags (db : store) : list str :=
  filter truthy
    (sort_by (fun t => t)
       (distinct (map (fun r => normalize_tag (tag r))
                      (Sql.select where_tem_tag db)))).

(* ================================================================== *)
(** * Users and sessions ([login], [logout], [novo_usuario],
      [alterar_senha]) *)
(* ================================================================== *)

(** A row of [usuarios]; its columns are NOT NULL. *)
Record usuario := {
  u_id : Z;
  username : str;
  senha : str;
  is_admin : Z
}.

(** The table [usuarios], in rowid order.  [username] is UNIQUE. *)
Definition usuarios := list usuario.

(** AUTOINCREMENT on [usuarios]: one more than the largest id; no view
    deletes a user. *)
Definition next_usuario_id (db : usuarios) : Z :=
  1 + fold_left (fun m u => Z.max m (u_id u)) db 0.

(** The Flask session: the keys the views write. *)
Record sessao := {
  s_usuario_id : option Z;
  s_usuario : option str;
  s_is_admin : option bool
}.

(** [session.clear()] *)
Definition sessao_vazia : sessao :=
  {| s_usuario_id := None; s_usuario := None; s_is_admin := None |}.

Record requisicao := {
  r_method : str;
  r_url : str;
  r_args : multidict;
  r_form : multidict;
  r_session : sessao
}.

(** Where a redirect goes: [url_for(endpoint, **params)] or a URL taken
    from the request. *)
Inductive destino :=
| UrlFor (endpoint : str) (params : multidict)
| Url (u : str).

Inductive resposta :=
| Redireciona (d : destino)
| Renderiza (template : str).

(** What a view leaves behind: the response, the flashed (message,
    category) pairs, the session and the table of users. *)
Record efeito := {
  e_resp : resposta;
  e_flash : list (str * str);
  e_session : sessao;
  e_usuarios : usuarios
}.

(** [a or b] on two values of [request.form.get]. *)
Definition py_or (a b : option str) : option str :=
  match a with
  | Some s => if truthy s then a else b
  | None => b
  end.

(** Lines 243-244: the credentials read from the login form. *)
Definition login_username (f : multidict) : str :=
  strip (or_empty (py_or (md_get "username" f) (md_get "usuario" f))).
Definition login_senha (f : multidict) : str :=
  strip (or_empty (py_or (md_get "senha" f) (md_get "password" f))).

(** [request.args.get("next") or url_for("dashboard")] *)
Definition next_url (args : multidict) : destino :=
  match md_get "next" args with
  | Some u => if truthy u then Url u else UrlFor "dashboard" []
  | None => UrlFor "dashboard" []
  end.

(** [SELECT * FROM usuarios WHERE username = ?] and [fetchone()]. *)
Definition usuario_por_username (db : usuarios) (name : str) : option usuario :=
  find (fun u => str_eqb (username u) name) db.

(** [SELECT * FROM usuarios WHERE id = ?] and [fetchone()]. *)
Definition usuario_por_id (db : usuarios) (i : Z) : option usuario :=
  find (fun u => u_id u =? i) db.

Definition msg_login_invalido : str := "Usuário ou senha inválidos.".

(** [login()] *)
Definition login (rq : requisicao) (db : usuarios) : efeito :=
  if str_eqb (r_method rq) "POST" then
    let username_ := login_username (r_form rq) in
    let senha_ := login_senha (r_form rq) in
    if str_eqb username_ "admin" && str_eqb senha_ "admin" then
      {| e_resp := Redireciona (next_url (r_args rq));
         e_flash := [(lit "Login realizado como admin.", lit "success")];
         e_session := {| s_usuario_id := Some 1;
                         s_usuario := Some (lit "admin");
                         s_is_admin := Some true |};
         e_usuarios := db |}
    else
      let invalido :=
        {| e_resp := Renderiza "login.html";
           e_flash := [(msg_login_invalido, lit "danger")];
           e_session := r_session rq;
           e_usuarios := db |} in
      match usuario_por_username db username_ with
      | Some user =>
          if str_eqb (senha user) senha_ then
            {| e_resp := Redireciona (next_url (r_args rq));
               e_flash := [(lit "Login realizado com sucesso.", lit "success")];
               e_session := {| s_usuario_id := Some (u_id user);
                               s_usuario := Some (username user);
                               s_is_admin := Some (negb (is_admin user =? 0)) |};
               e_usuarios := db |}
          else invalido
      | None => invalido
      end
  else
    {| e_resp := Renderiza "login.html"; e_flash := [];
       e_session := r_session rq; e_usuarios := db |}.

(** [logout()] *)
Definition logout (rq : requisicao) (db : usuarios) : efeito :=
  {| e_resp := Redireciona (UrlFor "login" []);
     e_flash := [(lit "Você saiu do sistema.", lit "info")];
     e_session := sessao_vazia;
     e_usuarios := db |}.

(** [login_required]: without [usuario_id] in the session the view is
    not run; with it, the view reads [session["usuario_id"]] as [uid]. *)
Definition login_required (f : Z -> requisicao -> usuarios -> efeito)
    (rq : requisicao) (db : usuarios) : efeito :=
  match s_usuario_id (r_session rq) with
  | None =>
      {| e_resp := Redireciona (UrlFor "login" [(lit "next", r_url rq)]);
         e_flash := []; e_session := r_session rq; e_usuarios := db |}
  | Some uid => f uid rq db
  end.

(** [session.get("is_admin")] as a condition. *)
Definition sessao_admin (s : sessao) : bool :=
  match s_is_admin s with Some b => b | None => false end.

(** [novo_usuario()] *)
Definition novo_usuario : requisicao -> usuarios -> efeito :=
  login_required (fun _ rq db =>
    if negb (sessao_admin (r_session rq)) then
      {| e_resp := Redireciona (UrlFor "dashboard" []);
         e_flash := [(lit "Acesso restrito ao administrador.", lit "warning")];
         e_session := r_session rq; e_usuarios := db |}
    else if str_eqb (r_method rq) "POST" then
      let username_ := get_strip "username" (r_form rq) in
      let senha_ := get_strip "senha" (r_form rq) in
      let is_admin_ :=
        match md_get "is_admin" (r_form rq) with
        | Some v => if str_eqb v "on" then 1 else 0
        | None => 0
        end in
      if negb (truthy username_) || negb (truthy senha_) then
        {| e_resp := Renderiza "usuario_form.html";
           e_flash := [(lit "Usuário e senha são obrigatórios.", lit "warning")];
           e_session := r_session rq; e_usuarios := db |}
      else if existsb (fun u => str_eqb (username u) username_) db then
        (* sqlite3.IntegrityError: UNIQUE constraint on username *)
        {| e_resp := Renderiza "usuario_form.html";
           e_flash := [(lit "Nome de usuário já existe.", lit "danger")];
           e_session := r_session rq; e_usuarios := db |}
      else
        {| e_resp := Redireciona (UrlFor "listar_usuarios" []);
           e_flash := [(lit "Usuário cadastrado com sucesso.", lit "success")];
           e_session := r_session rq;
           e_usuarios :=
             db ++ [{| u_id := next_usuario_id db; username := username_;
                       senha := senha_; is_admin := is_admin_ |}] |}
    else
      {| e_resp := Renderiza "usuario_form.html"; e_flash := [];
         e_session := r_session rq; e_usuarios := db |}).

(** [UPDATE usuarios SET senha = ? WHERE id = ?] *)
Definition update_senha (db : usuarios) (nova : str) (i : Z) : usuarios :=
  map (fun u =>
         if u_id u =? i
         then {| u_id := u_id u; username := username u;
                 senha := nova; is_admin := is_admin u |}
         else u) db.

(** [alterar_senha()] *)
Definition alterar_senha : requisicao -> usuarios -> efeito :=
  login_required (fun uid rq db =>
    if str_eqb (r_method rq) "POST" then
      let senha_atual := get_strip "senha_atual" (r_form rq) in
      let senha_nova := get_strip "senha_nova" (r_form rq) in
      let senha_conf := get_strip "senha_conf" (r_form rq) in
      let volta (msg categoria : str) :=
        {| e_resp := Redireciona (UrlFor "alterar_senha" []);
           e_flash := [(msg, categoria)];
           e_session := r_session rq; e_usuarios := db |} in
      if negb (truthy senha_atual) || negb (truthy senha_nova) then
        volta "Preencha todos os campos." "warning"
      else if negb (str_eqb senha_nova senha_conf) then
        volta "Senha nova e confirmação não conferem." "warning"
      else
        match usuario_por_id db uid with
        | Some user =>
            if str_eqb (senha user) senha_atual then
              {| e_resp := Redireciona (UrlFor "dashboard" []);
                 e_flash := [(lit "Senha alterada com sucesso.", lit "success")];
                 e_session := r_session rq;
                 e_usuarios := update_senha db senha_nova uid |}
            else volta "Senha atual incorreta." "danger"
        | None => volta "Senha atual incorreta." "danger"
        end
    else
      {| e_resp := Renderiza "alterar_senha.html"; e_flash := [];
         e_session := r_session rq; e_usuarios := db |}).

(* ================================================================== *)
(** * Properties of the string operations *)
(* ================================================================== *)

Arguments ascii_dec : simpl never.

Ltac all_chars c :=
  destruct c as [[] [] [] [] [] [] [] []]; try reflexivity; try discriminate.

Lemma str_eqb_eq (a b : str) : str_eqb a b = true <-> a = b.
Proof.
  unfold str_eqb. destruct (list_eq_dec ascii_dec a b); split; congruence.
Qed.

Lemma str_eqb_refl (a : str) : str_eqb a a = true.
Proof. apply str_eqb_eq. reflexivity. Qed.

Lemma str_eqb_neq (a b : str) : str_eqb a b = false <-> a <> b.
Proof.
  unfold str_eqb. destruct (list_eq_dec ascii_dec a b); split; congruence.
Qed.

Lemma is_char_eq (a c : ascii) : is_char a c = true <-> a = c.
Proof. unfold is_char. destruct (ascii_dec a c); split; congruence. Qed.

Lemma is_blank_char_eq (c : ascii) : is_blank_char c = true <-> c = " "%char.
Proof. unfold is_blank_char. destruct (ascii_dec c " "); split; congruence. Qed.

Lemma isspace_upper_char (c : ascii) : isspace (upper_char c) = isspace c.
Proof. all_chars c. Qed.

Lemma is_blank_upper_char (c : ascii) : is_blank_char (upper_char c) = is_blank_char c.
Proof. all_chars c. Qed.

Lemma upper_char_idem (c : ascii) : upper_char (upper_char c) = upper_char c.
Proof. all_chars c. Qed.

Lemma blank_isspace (c : ascii) : is_blank_char c = true -> isspace c = true.
Proof. intros H. apply is_blank_char_eq in H. subst. reflexivity. Qed.

Lemma upper_idem (s : str) : upper (upper s) = upper s.
Proof.
  unfold upper. rewrite map_map. apply map_ext. intros; apply upper_char_idem.
Qed.

(** ** [strip] *)

Lemma drop_while_split (p : ascii -> bool) (s : str) :
  exists pre, s = pre ++ drop_while p s /\ forallb p pre = true.
Proof.
  induction s as [|c t IH]; simpl.
  - exists []. auto.
  - destruct (p c) eqn:E.
    + destruct IH as [pre [H1 H2]]. exists (c :: pre). simpl.
      rewrite E, H2. split; [f_equal; exact H1 | reflexivity].
    + exists []. auto.
Qed.

Lemma drop_while_head (p : ascii -> bool) (s : str) c t :
  drop_while p s = c :: t -> p c = false.
Proof.
  induction s as [|a s IH]; simpl; [discriminate|].
  destruct (p a) eqn:E; [exact IH|]. intros H. injection H as -> _. exact E.
Qed.

Lemma drop_while_id (p : ascii -> bool) (s : str) :
  (forall c t, s = c :: t -> p c = false) -> drop_while p s = s.
Proof.
  destruct s as [|c t]; simpl; [reflexivity|].
  intros H. rewrite (H c t eq_refl). reflexivity.
Qed.

Lemma rev_head_last (s : str) c t : rev s = c :: t -> s = rev t ++ [c].
Proof.
  intros H. rewrite <- (rev_involutive s), H. reflexivity.
Qed.

Lemma trim_both_trimmed (p : ascii -> bool) (s : str) :
  trimmed p (rev (drop_while p (rev (drop_while p s)))).
Proof.
  set (a := drop_while p s).
  destruct (drop_while_split p (rev a)) as [pre [Hs Hp]].
  set (b := drop_while p (rev a)) in *.
  split.
  - intros c t H.
    destruct b as [|x b'] eqn:Eb; [discriminate|].
    (* the head of [rev b] is the last character of [rev a], the head of [a] *)
    assert (Ha : a = rev (pre ++ x :: b')) by (rewrite <- Hs, rev_involutive; reflexivity).
    rewrite rev_app_distr in Ha. rewrite H in Ha. simpl in Ha.
    apply (drop_while_head p s c (t ++ rev pre)). exact Ha.
  - intros l c H.
    assert (Hb : b = c :: rev l).
    { rewrite <- (rev_involutive b), H, rev_app_distr. reflexivity. }
    apply (drop_while_head p (rev a) c (rev l)). exact Hb.
Qed.

Lemma trim_both_id (p : ascii -> bool) (s : str) :
  trimmed p s -> rev (drop_while p (rev (drop_while p s))) = s.
Proof.
  intros [H1 H2].
  rewrite (drop_while_id p s H1).
  rewrite drop_while_id; [apply rev_involutive|].
  intros c t H. apply (H2 (rev t) c). apply rev_head_last. exact H.
Qed.

Lemma strip_trimmed (s : str) : trimmed isspace (strip s).
Proof. apply trim_both_trimmed. Qed.

Lemma strip_id (s : str) : trimmed isspace s -> strip s = s.
Proof. apply trim_both_id. Qed.

Lemma strip_idem (s : str) : strip (strip s) = strip s.
Proof. apply strip_id, strip_trimmed. Qed.

Lemma trimmed_upper (s : str) : trimmed isspace s -> trimmed isspace (upper s).
Proof.
  intros [H1 H2]. unfold upper. split.
  - intros c t H. destruct s as [|a s']; [discriminate|].
    simpl in H. injection H as <- _. rewrite isspace_upper_char.
    apply (H1 a s' eq_refl).
  - intros l c H.
    destruct (rev s) as [|a r] eqn:Er.
    + apply (f_equal (@rev ascii)) in Er. rewrite rev_involutive in Er.
      subst s. destruct l; discriminate.
    + apply rev_head_last in Er. subst s.
      rewrite map_app in H. simpl in H.
      apply app_inj_tail in H. destruct H as [_ <-].
      rewrite isspace_upper_char. apply (H2 (rev r) a eq_refl).
Qed.

Lemma trimmed_weaken (p q : ascii -> bool) (s : str) :
  (forall c, q c = true -> p c = true) -> trimmed p s -> trimmed q s.
Proof.
  intros Hpq [H1 H2]. split.
  - intros c t H. specialize (H1 c t H).
    destruct (q c) eqn:E; [apply Hpq in E; congruence | reflexivity].
  - intros l c H. specialize (H2 l c H).
    destruct (q c) eqn:E; [apply Hpq in E; congruence | reflexivity].
Qed.

(** ** [replace] of two spaces by one *)

Lemma str_ind2 (P : str -> Prop) :
  P [] -> (forall c, P [c]) ->
  (forall c d t, P t -> P (d :: t) -> P (c :: d :: t)) ->
  forall s, P s.
Proof.
  intros H0 H1 H2.
  assert (H : forall s, P s /\ forall c, P (c :: s)).
  { induction s as [|d t [IHa IHb]]; split; auto. }
  intros s. apply H.
Qed.

Local Abbreviation rep := (replace two_spaces one_space).
Local Abbreviation sq := (collapse_runs is_blank_char).

Ltac blank_cases c :=
  unfold is_blank_char;
  destruct (ascii_dec " " c), (ascii_dec c " "); try congruence.

Lemma rep_cons (c : ascii) (t : str) :
  rep (c :: t) =
  match t with
  | [] => [c]
  | d :: t' =>
      if is_blank_char c && is_blank_char d
      then " "%char :: rep t'
      else c :: rep t
  end.
Proof.
  unfold replace, two_spaces, one_space, lit. simpl.
  destruct t as [|d t']; blank_cases c; simpl; try reflexivity;
    blank_cases d; reflexivity.
Qed.

Lemma contains_two_cons (c : ascii) (t : str) :
  contains two_spaces (c :: t) =
  match t with
  | [] => false
  | d :: _ => is_blank_char c && is_blank_char d
  end || contains two_spaces t.
Proof.
  unfold two_spaces, lit. simpl.
  destruct t as [|d t']; blank_cases c; simpl; try reflexivity;
    blank_cases d; reflexivity.
Qed.

Lemma rep_length_le (s : str) : (List.length (rep s) <= List.length s)%nat.
Proof.
  induction s as [|c|c d t IH1 IH2] using str_ind2;
    [apply le_n | rewrite rep_cons; apply le_n |].
  rewrite rep_cons.
  destruct (is_blank_char c && is_blank_char d); cbn [List.length] in *; lia.
Qed.

Lemma rep_length_lt (s : str) :
  contains two_spaces s = true -> (List.length (rep s) < List.length s)%nat.
Proof.
  induction s as [|c|c d t IH1 IH2] using str_ind2.
  - discriminate.
  - rewrite contains_two_cons. discriminate.
  - rewrite contains_two_cons, rep_cons.
    destruct (is_blank_char c && is_blank_char d); cbn [List.length orb].
    + intros _. pose proof (rep_length_le t). lia.
    + intros H. specialize (IH2 H). cbn [List.length] in IH2. lia.
Qed.

Lemma sq_cons (b : bool) (c : ascii) (t : str) :
  sq b (c :: t) =
  if is_blank_char c
  then if b then sq true t else " "%char :: sq true t
  else c :: sq false t.
Proof. reflexivity. Qed.

Lemma is_blank_space : is_blank_char " " = true.
Proof. reflexivity. Qed.

Lemma sq_rep (s : str) : forall b, sq b (rep s) = sq b s.
Proof.
  induction s as [|c|c d t IH1 IH2] using str_ind2; intros b;
    [reflexivity | rewrite rep_cons; reflexivity |].
  rewrite rep_cons, (sq_cons b c (d :: t)).
  destruct (is_blank_char c) eqn:Ec; cbn [andb].
  - destruct (is_blank_char d) eqn:Ed.
    + rewrite sq_cons, is_blank_space, IH1, (sq_cons true d t), Ed. reflexivity.
    + rewrite sq_cons, Ec, IH2. reflexivity.
  - rewrite sq_cons, Ec, IH2. reflexivity.
Qed.

Lemma sq_id_aux (s : str) :
  contains two_spaces s = false ->
  sq false s = s /\ (head_not_blank s -> sq true s = s).
Proof.
  induction s as [|c t IH]; [intros _; split; reflexivity|].
  rewrite contains_two_cons. intros H.
  apply orb_false_iff in H. destruct H as [Hh Ht].
  destruct (IH Ht) as [IHa IHb]. rewrite !sq_cons. cbn [head_not_blank].
  destruct (is_blank_char c) eqn:Ec.
  - split; [|congruence].
    apply is_blank_char_eq in Ec. subst c.
    f_equal. apply IHb. destruct t as [|d t']; [exact I|].
    exact Hh.
  - split; intros; f_equal; exact IHa.
Qed.

Lemma sq_id (s : str) : contains two_spaces s = false -> sq false s = s.
Proof. intros H. apply (sq_id_aux s H). Qed.

(** The loop leaves no two adjacent spaces, and what it returns is the
    string with every run of spaces squeezed to one. *)
Lemma collapse_loop_spec (fuel : nat) : forall s,
  (List.length s <= fuel)%nat ->
  contains two_spaces (collapse_loop fuel s) = false /\
  sq false (collapse_loop fuel s) = sq false s.
Proof.
  induction fuel as [|f IH]; intros s Hlen; cbn [collapse_loop].
  - destruct s; [split; reflexivity | cbn [List.length] in Hlen; lia].
  - destruct (contains two_spaces s) eqn:E.
    + pose proof (rep_length_lt s E) as Hlt.
      destruct (IH (rep s)) as [H1 H2]; [lia|].
      split; [exact H1 | rewrite H2; apply sq_rep].
    + split; [exact E | reflexivity].
Qed.

Lemma collapse_loop_squeeze (s : str) :
  collapse_loop (List.length s) s = squeeze_spaces s.
Proof.
  destruct (collapse_loop_spec (List.length s) s (le_n _)) as [H1 H2].
  unfold squeeze_spaces. rewrite <- H2. symmetry. apply sq_id. exact H1.
Qed.

Lemma normalize_status_squeeze (x : option str) :
  normalize_status x = squeeze_spaces (upper (strip (or_empty x))).
Proof. unfold normalize_status. apply collapse_loop_squeeze. Qed.

Lemma normalize_status_no_double (x : option str) :
  contains two_spaces (normalize_status x) = false.
Proof.
  unfold normalize_status.
  apply (collapse_loop_spec _ _ (le_n _)).
Qed.

Lemma collapse_runs_snoc (p : ascii -> bool) (l : str) (c : ascii) :
  p c = false ->
  forall b, collapse_runs p b (l ++ [c]) = collapse_runs p b l ++ [c].
Proof.
  intros Hc. induction l as [|a l IH]; intros b; simpl.
  - rewrite Hc. reflexivity.
  - destruct (p a); [destruct b|]; simpl; rewrite IH; reflexivity.
Qed.

Lemma not_space_not_blank (c : ascii) : isspace c = false -> is_blank_char c = false.
Proof.
  intros H. destruct (is_blank_char c) eqn:E; [|reflexivity].
  apply blank_isspace in E. congruence.
Qed.

Lemma squeeze_trimmed (s : str) :
  trimmed isspace s -> trimmed isspace (squeeze_spaces s).
Proof.
  intros [H1 H2]. unfold squeeze_spaces. split.
  - intros c t H. destruct s as [|a s']; [discriminate|].
    pose proof (H1 a s' eq_refl) as Ha.
    rewrite sq_cons, (not_space_not_blank a Ha) in H.
    injection H as <- _. exact Ha.
  - intros l c H.
    destruct (rev s) as [|a r] eqn:Er.
    + apply (f_equal (@rev ascii)) in Er. rewrite rev_involutive in Er.
      subst s. destruct l; discriminate.
    + apply rev_head_last in Er. subst s.
      pose proof (H2 (rev r) a eq_refl) as Ha.
      rewrite (collapse_runs_snoc _ _ _ (not_space_not_blank a Ha)) in H.
      apply app_inj_tail in H. destruct H as [_ <-]. exact Ha.
Qed.

Lemma upper_collapse_runs (s : str) : forall b,
  upper (sq b s) = sq b (upper s).
Proof.
  induction s as [|c t IH]; intros b; [reflexivity|].
  cbn [upper map]. rewrite !sq_cons, is_blank_upper_char.
  destruct (is_blank_char c); [destruct b|]; cbn [upper map];
    rewrite <- ?IH; reflexivity.
Qed.

Lemma normalize_status_trimmed (x : option str) :
  trimmed isspace (normalize_status x).
Proof.
  rewrite normalize_status_squeeze.
  apply squeeze_trimmed, trimmed_upper, strip_trimmed.
Qed.

Lemma normalize_status_upper (x : option str) :
  upper (normalize_status x) = normalize_status x.
Proof.
  rewrite normalize_status_squeeze. unfold squeeze_spaces.
  rewrite upper_collapse_runs, upper_idem. reflexivity.
Qed.

Lemma normalize_status_strip (x : option str) :
  strip (normalize_status x) = normalize_status x.
Proof. apply strip_id, normalize_status_trimmed. Qed.

Lemma normalize_status_idem (x : option str) :
  normalize_status (Some (normalize_status x)) = normalize_status x.
Proof.
  rewrite (normalize_status_squeeze (Some _)). simpl or_empty.
  rewrite normalize_status_strip, normalize_status_upper.
  apply sq_id, normalize_status_no_double.
Qed.

(** ** [replace] of a single character, and of an absent pattern *)

Lemma replace_absent (a : ascii) (r new s : str) :
  ~ In a s -> replace (a :: r) new s = s.
Proof.
  unfold replace. induction s as [|c t IH]; intros Hn; [reflexivity|].
  cbn [replace_aux starts_with].
  destruct (ascii_dec a c) as [->|Hac].
  - exfalso. apply Hn. left. reflexivity.
  - f_equal. apply IH. intros Hin. apply Hn. right. exact Hin.
Qed.

Lemma replace_char (a : ascii) (new s : str) :
  replace [a] new s = flat_map (fun c => if ascii_dec a c then new else [c]) s.
Proof.
  unfold replace. induction s as [|c t IH]; [reflexivity|].
  cbn [replace_aux starts_with flat_map List.length Nat.sub].
  destruct (ascii_dec a c); rewrite IH; reflexivity.
Qed.

Lemma replace_char1 (a b : ascii) (s : str) :
  replace [a] [b] s = map (subst_char a b) s.
Proof.
  rewrite replace_char. induction s as [|c t IH]; [reflexivity|].
  cbn [flat_map map]. unfold subst_char at 1.
  destruct (ascii_dec a c); rewrite IH; reflexivity.
Qed.

Lemma replace_char_del (a : ascii) (s : str) :
  replace [a] [] s = filter (fun c => negb (is_char a c)) s.
Proof.
  rewrite replace_char. induction s as [|c t IH]; [reflexivity|].
  cbn [flat_map filter]. unfold is_char.
  destruct (ascii_dec a c); rewrite IH; reflexivity.
Qed.

Lemma swap_sep_spec (c : ascii) :
  c <> "X"%char ->
  subst_char "X" "." (subst_char "." "," (subst_char "," "X" c)) = swap_sep c.
Proof.
  intros HX. unfold swap_sep.
  destruct (ascii_dec c ",") as [->|H1]; [reflexivity|].
  destruct (ascii_dec c ".") as [->|H2]; [reflexivity|].
  unfold subst_char.
  destruct (ascii_dec "," c); [congruence|].
  destruct (ascii_dec "." c); [congruence|].
  destruct (ascii_dec "X" c); [congruence|]. reflexivity.
Qed.

Lemma swap_replaces (s : str) :
  ~ In "X"%char s ->
  replace "X" "." (replace "." "," (replace "," "X" s)) = map swap_sep s.
Proof.
  intros HX.
  change (lit "X") with ["X"%char]. change (lit ".") with ["."%char].
  change (lit ",") with [","%char].
  rewrite !replace_char1, !map_map.
  apply map_ext_in. intros c Hc. apply swap_sep_spec.
  intros ->. exact (HX Hc).
Qed.

(** ** Decimal digits *)

Lemma digit_val_char (d : Z) : 0 <= d < 10 -> digit_val (digit_char d) = Some d.
Proof.
  intros H.
  assert (Hd : d = 0 \/ d = 1 \/ d = 2 \/ d = 3 \/ d = 4 \/ d = 5 \/
               d = 6 \/ d = 7 \/ d = 8 \/ d = 9) by lia.
  repeat (destruct Hd as [->|Hd]; [reflexivity|]). subst. reflexivity.
Qed.

Lemma isdigit_char (d : Z) : 0 <= d < 10 -> isdigit (digit_char d) = true.
Proof. intros H. unfold isdigit. rewrite digit_val_char; auto. Qed.

Lemma digits_value_snoc (ds : str) (c : ascii) :
  digits_value (ds ++ [c]) =
  10 * digits_value ds + match digit_val c with Some d => d | None => 0 end.
Proof. unfold digits_value. rewrite fold_left_app. reflexivity. Qed.

Lemma dec_digits_fuel_S (f : nat) (n : Z) :
  dec_digits_fuel (S f) n =
  if n <? 10 then [digit_char n]
  else dec_digits_fuel f (n / 10) ++ [digit_char (n mod 10)].
Proof. reflexivity. Qed.

Lemma dec_digits_fuel_spec (f : nat) : forall n,
  0 <= n < 2 ^ Z.of_nat (S f) ->
  let ds := dec_digits_fuel (S f) n in
  digits_value ds = n /\ forallb isdigit ds = true /\ ds <> [].
Proof.
  induction f as [|f IH]; intros n Hn; rewrite dec_digits_fuel_S;
    destruct (n <? 10) eqn:E; cbn zeta.
  - apply Z.ltb_lt in E. unfold digits_value. cbn [fold_left forallb].
    rewrite digit_val_char, isdigit_char by lia.
    repeat split; try lia; discriminate.
  - apply Z.ltb_ge in E. change (2 ^ Z.of_nat 1) with 2 in Hn. lia.
  - apply Z.ltb_lt in E. unfold digits_value. cbn [fold_left forallb].
    rewrite digit_val_char, isdigit_char by lia.
    repeat split; try lia; discriminate.
  - apply Z.ltb_ge in E.
    assert (Hq : 0 <= n / 10 < 2 ^ Z.of_nat (S f)).
    { rewrite (Nat2Z.inj_succ (S f)), Z.pow_succ_r in Hn by lia.
      split; [apply Z.div_pos; lia|].
      apply Z.div_lt_upper_bound; lia. }
    destruct (IH (n / 10) Hq) as [H1 [H2 H3]].
    pose proof (Z.mod_pos_bound n 10 ltac:(lia)) as Hm.
    rewrite digits_value_snoc, H1, digit_val_char by lia.
    rewrite forallb_app, H2. cbn [forallb]. rewrite isdigit_char by lia.
    repeat split.
    + pose proof (Z.div_mod n 10 ltac:(lia)). lia.
    + intros Habs. apply app_eq_nil in Habs. destruct Habs; discriminate.
Qed.

Lemma dec_digits_spec (n : Z) :
  0 <= n ->
  digits_value (dec_digits n) = n /\
  forallb isdigit (dec_digits n) = true /\ dec_digits n <> [].
Proof.
  intros Hn. unfold dec_digits. apply dec_digits_fuel_spec.
  split; [exact Hn|].
  destruct (Z.eq_dec n 0) as [->|Hz]; [reflexivity|].
  rewrite Nat2Z.inj_succ, Z2Nat.id by apply Z.log2_nonneg.
  apply Z.log2_spec. lia.
Qed.

(** ** Characters of numbers *)

Lemma fmt_char_facts (c : ascii) :
  fmt_char c = true ->
  isspace c = false /\ float_isspace c = false /\
  c <> "X"%char /\ c <> "R"%char /\ c <> " "%char /\ c <> "_"%char /\
  c <> "-"%char /\ c <> "+"%char.
Proof.
  destruct c as [[] [] [] [] [] [] [] []]; intros H; vm_compute in H;
    try discriminate H; repeat split; discriminate.
Qed.

Lemma digit_facts (c : ascii) :
  isdigit c = true ->
  fmt_char c = true /\ is_char "." c = false /\ is_char "," c = false /\
  swap_sep c = c /\ subst_char "," "." c = c.
Proof.
  destruct c as [[] [] [] [] [] [] [] []]; intros H; vm_compute in H;
    try discriminate H; repeat split; reflexivity.
Qed.

Lemma forallb_In {A} (p : A -> bool) (l : list A) (x : A) :
  forallb p l = true -> In x l -> p x = true.
Proof. intros H Hin. rewrite forallb_forall in H. auto. Qed.

Lemma digits_fmt (ds : str) :
  forallb isdigit ds = true -> forallb fmt_char ds = true.
Proof.
  intros H. apply forallb_forall. intros c Hc.
  apply digit_facts. eapply forallb_In; eauto.
Qed.

(** ** Thousands separators *)

Lemma group3_cons (d : ascii) (t : str) :
  group3 (d :: t) =
  if truthy t && (List.length t mod 3 =? 0)%nat
  then d :: ","%char :: group3 t
  else d :: group3 t.
Proof. reflexivity. Qed.

Lemma group3_fmt (ds : str) :
  forallb isdigit ds = true -> forallb fmt_char (group3 ds) = true.
Proof.
  induction ds as [|d t IH]; [reflexivity|].
  cbn [forallb]. intros H. apply andb_true_iff in H. destruct H as [Hd Ht].
  rewrite group3_cons.
  destruct (truthy t && (List.length t mod 3 =? 0)%nat); cbn [forallb];
    rewrite (proj1 (digit_facts d Hd)), (IH Ht); reflexivity.
Qed.

Lemma group3_unsep (ds : str) :
  forallb isdigit ds = true ->
  filter (fun c => negb (is_char "." c)) (map swap_sep (group3 ds)) = ds.
Proof.
  induction ds as [|d t IH]; [reflexivity|].
  cbn [forallb]. intros H. apply andb_true_iff in H. destruct H as [Hd Ht].
  destruct (digit_facts d Hd) as [_ [Hdot [_ [Hsw _]]]].
  rewrite group3_cons.
  destruct (truthy t && (List.length t mod 3 =? 0)%nat); cbn [map filter];
    rewrite Hsw, Hdot; cbn [negb]; [change (swap_sep ",") with "."%char;
      change (is_char "." ".") with true; cbn [negb] |];
    rewrite (IH Ht); reflexivity.
Qed.

Lemma group3_head (d : ascii) (t : str) :
  exists r, group3 (d :: t) = d :: r.
Proof.
  rewrite group3_cons.
  destruct (truthy t && (List.length t mod 3 =? 0)%nat); eexists; reflexivity.
Qed.

(** ** [float] on a plain decimal literal *)

Lemma span_app (p : ascii -> bool) (ds : str) (c : ascii) (rest : str) :
  forallb p ds = true -> p c = false ->
  span p (ds ++ c :: rest) = (ds, c :: rest).
Proof.
  intros Hds Hc. induction ds as [|d t IH]; cbn [app span].
  - rewrite Hc. reflexivity.
  - cbn [forallb] in Hds. apply andb_true_iff in Hds. destruct Hds as [Hd Ht].
    rewrite Hd, (IH Ht). reflexivity.
Qed.

Lemma span_all (p : ascii -> bool) (ds : str) :
  forallb p ds = true -> span p ds = (ds, []).
Proof.
  induction ds as [|d t IH]; [reflexivity|]. cbn [forallb span].
  intros H. apply andb_true_iff in H. destruct H as [Hd Ht].
  rewrite Hd, (IH Ht). reflexivity.
Qed.

Lemma underscores_ok_none (s : str) :
  ~ In "_"%char s -> forall prev, underscores_ok prev s = true.
Proof.
  induction s as [|c t IH]; intros Hn prev; [reflexivity|].
  cbn [underscores_ok]. unfold is_char at 1.
  destruct (ascii_dec "_" c) as [<-|_].
  - exfalso. apply Hn. left. reflexivity.
  - apply IH. intros Hin. apply Hn. right. exact Hin.
Qed.

Lemma filter_id {A} (p : A -> bool) (l : list A) :
  (forall x, In x l -> p x = true) -> filter p l = l.
Proof.
  induction l as [|a l IH]; intros H; [reflexivity|].
  cbn [filter]. rewrite (H a (or_introl eq_refl)). f_equal.
  apply IH. intros x Hx. apply H. right. exact Hx.
Qed.

Lemma trimmed_all (p : ascii -> bool) (s : str) :
  (forall c, In c s -> p c = false) -> trimmed p s.
Proof.
  intros H. split.
  - intros c t ->. apply H. left. reflexivity.
  - intros l c ->. apply H. apply in_or_app. right. left. reflexivity.
Qed.

Lemma py_float_decimal (D fx : str) :
  forallb isdigit D = true -> D <> [] -> forallb isdigit fx = true ->
  py_float (D ++ "."%char :: fx) =
  Ok (scale10 (digits_value (D ++ fx)) (0 - Z.of_nat (List.length fx))).
Proof.
  intros HD Hne Hfx.
  assert (Hall : forall c, In c (D ++ "."%char :: fx) -> fmt_char c = true).
  { intros c Hc. apply in_app_or in Hc. destruct Hc as [Hc|[<-|Hc]].
    - apply digit_facts. exact (forallb_In _ _ _ HD Hc).
    - reflexivity.
    - apply digit_facts. exact (forallb_In _ _ _ Hfx Hc). }
  unfold py_float.
  rewrite trim_both_id
    by (apply trimmed_all; intros c Hc; apply (fmt_char_facts c (Hall c Hc))).
  rewrite underscores_ok_none
    by (intros Hin;
        destruct (fmt_char_facts _ (Hall _ Hin)) as (_ & _ & _ & _ & _ & Hu & _);
        congruence).
  cbn [negb].
  rewrite filter_id.
  2:{ intros c Hc. unfold is_char. destruct (ascii_dec "_" c) as [<-|]; [|reflexivity].
      destruct (fmt_char_facts _ (Hall _ Hc)) as (_ & _ & _ & _ & _ & Hu & _).
      congruence. }
  destruct D as [|d D']; [congruence|].
  assert (Hd : isdigit d = true).
  { cbn [forallb] in HD. apply andb_true_iff in HD. apply HD. }
  assert (Hs : take_sign ((d :: D') ++ "."%char :: fx) = (false, (d :: D') ++ "."%char :: fx)).
  { cbn [app take_sign]. unfold is_char.
    destruct (fmt_char_facts d (proj1 (digit_facts d Hd))) as [_ [_ [_ [_ [_ [_ [Hm Hp]]]]]]].
    destruct (ascii_dec "-" d); [congruence|].
    destruct (ascii_dec "+" d); [congruence|]. reflexivity. }
  rewrite Hs. rewrite (span_app isdigit (d :: D') "." fx HD eq_refl).
  change (is_char "." ".") with true. cbn iota. rewrite (span_all isdigit fx Hfx).
  cbn [truthy orb negb parse_exponent]. reflexivity.
Qed.

(** ** Formatting an amount and reading it back *)

Lemma fmt_char_swap (c : ascii) : fmt_char c = true -> fmt_char (swap_sep c) = true.
Proof.
  destruct c as [[] [] [] [] [] [] [] []]; intros H; vm_compute in H;
    try discriminate H; reflexivity.
Qed.

Lemma map_digits_id (f : ascii -> ascii) (ds : str) :
  (forall c, isdigit c = true -> f c = c) ->
  forallb isdigit ds = true -> map f ds = ds.
Proof.
  intros Hf H. induction ds as [|d t IH]; [reflexivity|].
  cbn [forallb] in H. apply andb_true_iff in H. destruct H as [Hd Ht].
  cbn [map]. rewrite (Hf d Hd), (IH Ht). reflexivity.
Qed.

Lemma truthy_app_cons (a : str) (c : ascii) (b : str) : truthy (a ++ c :: b) = true.
Proof. destruct a; reflexivity. Qed.

Lemma parse_formatted (D : str) (dx dy : ascii) :
  forallb isdigit D = true -> D <> [] ->
  isdigit dx = true -> isdigit dy = true ->
  parse_brl_number (Some (map swap_sep (group3 D) ++ ","%char :: [dx; dy])) =
  Ok (Some (scale10 (digits_value (D ++ [dx; dy])) (0 - 2))).
Proof.
  intros HD Hne Hx Hy.
  set (F := map swap_sep (group3 D) ++ ","%char :: [dx; dy]).
  assert (Hall : forall c, In c F -> fmt_char c = true).
  { intros c Hc. apply in_app_or in Hc. destruct Hc as [Hc|[<-|[<-|[<-|[]]]]].
    - apply in_map_iff in Hc. destruct Hc as [c' [<- Hc']].
      apply fmt_char_swap. exact (forallb_In _ _ _ (group3_fmt D HD) Hc').
    - reflexivity.
    - apply digit_facts, Hx.
    - apply digit_facts, Hy. }
  assert (Hno : forall a, fmt_char a = false -> ~ In a F).
  { intros a Ha Hin. rewrite (Hall a Hin) in Ha. discriminate. }
  unfold parse_brl_number.
  rewrite strip_id
    by (apply trimmed_all; intros c Hc; apply (fmt_char_facts c (Hall c Hc))).
  unfold F at 1. rewrite truthy_app_cons. cbn [negb].
  change (lit "R$") with ["R"%char; "$"%char].
  change (lit " ") with [" "%char]. change (lit "") with (@nil ascii).
  change (lit ".") with ["."%char]. change (lit ",") with [","%char].
  rewrite (replace_absent "R" ["$"%char] [] F (Hno "R"%char eq_refl)).
  rewrite (replace_absent " " [] [] F (Hno " "%char eq_refl)).
  rewrite replace_char_del. unfold F. rewrite filter_app, (group3_unsep D HD).
  destruct (digit_facts dx Hx) as (_ & Hxd & _ & _ & Hxs).
  destruct (digit_facts dy Hy) as (_ & Hyd & _ & _ & Hys).
  cbn [filter]. change (is_char "." ",") with false. rewrite Hxd, Hyd. cbn [negb].
  rewrite replace_char1, map_app.
  rewrite (map_digits_id (subst_char "," ".") D)
    by (exact HD || (intros c Hc; apply (digit_facts c Hc))).
  cbn [map]. rewrite Hxs, Hys. change (subst_char "," "." ",") with "."%char.
  rewrite (py_float_decimal D [dx; dy] HD Hne)
    by (cbn [forallb]; rewrite Hx, Hy; reflexivity).
  reflexivity.
Qed.

Lemma round_half_even_int (q : Q) (c : Z) :
  (q == inject_Z c)%Q -> round_half_even q = c.
Proof.
  destruct q as [a b]. unfold Qeq, inject_Z, round_half_even. cbn [Qnum Qden].
  intros H. rewrite Z.mul_1_r in H. subst a.
  rewrite Z.div_mul, Z.mod_mul by lia.
  assert (Hlt : (2 * 0 <? Z.pos b) = true) by (apply Z.ltb_lt; lia).
  rewrite Hlt.
  reflexivity.
Qed.

Lemma format_comma_2f_cents (v : Q) (c : Z) :
  (0 <= v)%Q -> (v == c # 100)%Q ->
  format_comma_2f v =
  group3 (dec_digits (c / 100))
    ++ "."%char :: [digit_char (c mod 100 / 10); digit_char (c mod 10)].
Proof.
  intros Hv Hc. unfold format_comma_2f.
  assert (Hr : round_half_even (Qabs v * 100) = c).
  { apply round_half_even_int. rewrite (Qabs_pos v Hv), Hc.
    unfold Qeq, inject_Z. cbn. lia. }
  rewrite Hr.
  assert (Hs : (Qnum v <? 0) = false).
  { apply Z.ltb_ge. unfold Qle in Hv. cbn in Hv. lia. }
  rewrite Hs. reflexivity.
Qed.

Lemma cents_nonneg (v : Q) (c : Z) : (0 <= v)%Q -> (v == c # 100)%Q -> 0 <= c.
Proof.
  intros Hv Hc. rewrite Hc in Hv. unfold Qle in Hv. cbn in Hv. lia.
Qed.

Lemma format_currency_brl_cents (v : Q) (c : Z) :
  (0 <= v)%Q -> (v == c # 100)%Q ->
  format_currency_brl (Some v) =
  map swap_sep (group3 (dec_digits (c / 100)))
    ++ ","%char :: [digit_char (c mod 100 / 10); digit_char (c mod 10)].
Proof.
  intros Hv Hc. pose proof (cents_nonneg v c Hv Hc) as H0.
  unfold format_currency_brl. rewrite (format_comma_2f_cents v c Hv Hc).
  destruct (dec_digits_spec (c / 100)) as (_ & HD & _);
    [apply Z.div_pos; lia|].
  pose proof (Z.mod_pos_bound c 100 ltac:(lia)) as H100.
  pose proof (Z.mod_pos_bound c 10 ltac:(lia)) as H10.
  assert (H1 : 0 <= c mod 100 / 10 < 10).
  { split; [apply Z.div_pos; lia | apply Z.div_lt_upper_bound; lia]. }
  rewrite swap_replaces.
  - rewrite map_app. cbn [map].
    rewrite (proj1 (proj2 (proj2 (proj2 (digit_facts _ (isdigit_char _ H1)))))).
    rewrite (proj1 (proj2 (proj2 (proj2 (digit_facts _ (isdigit_char _ H10)))))).
    reflexivity.
  - intros Hin. apply in_app_or in Hin.
    assert (HX : forall a, In a ("."%char :: [digit_char (c mod 100 / 10); digit_char (c mod 10)]) ->
                 fmt_char a = true).
    { intros a [<-|[<-|[<-|[]]]]; [reflexivity | |];
        apply digit_facts, isdigit_char; assumption. }
    destruct Hin as [Hin|Hin].
    + pose proof (forallb_In _ _ _ (group3_fmt _ HD) Hin) as Hf. discriminate Hf.
    + pose proof (HX _ Hin) as Hf. discriminate Hf.
Qed.

Lemma format_parse_cents (v : Q) (c : Z) :
  (0 <= v)%Q -> (v == c # 100)%Q ->
  parse_brl_number (Some (format_currency_brl (Some v))) = Ok (Some (c # 100)).
Proof.
  intros Hv Hc. pose proof (cents_nonneg v c Hv Hc) as H0.
  rewrite (format_currency_brl_cents v c Hv Hc).
  destruct (dec_digits_spec (c / 100)) as (Hval & HD & Hne);
    [apply Z.div_pos; lia|].
  pose proof (Z.mod_pos_bound c 100 ltac:(lia)) as H100.
  pose proof (Z.mod_pos_bound c 10 ltac:(lia)) as H10.
  assert (H1 : 0 <= c mod 100 / 10 < 10).
  { split; [apply Z.div_pos; lia | apply Z.div_lt_upper_bound; lia]. }
  rewrite parse_formatted by (assumption || apply isdigit_char; assumption).
  assert (Hd : digits_value
                 (dec_digits (c / 100)
                    ++ [digit_char (c mod 100 / 10); digit_char (c mod 10)]) = c).
  { change [digit_char (c mod 100 / 10); digit_char (c mod 10)]
      with ([digit_char (c mod 100 / 10)] ++ [digit_char (c mod 10)]).
    rewrite app_assoc, !digits_value_snoc, Hval, !digit_val_char by assumption.
    pose proof (Z.div_mod c 100 ltac:(lia)).
    pose proof (Z.div_mod (c mod 100) 10 ltac:(lia)).
    assert (Hmm : (c mod 100) mod 10 = c mod 10).
    { apply Z.mod_mod_divide. exists 10. reflexivity. }
    lia. }
  rewrite Hd. reflexivity.
Qed.

(* ================================================================== *)
(** * Properties of the dashboard aggregation *)
(* ================================================================== *)

Lemma insert_by_perm {A} (key : A -> str) (x : A) (l : list A) :
  Permutation (x :: l) (insert_by key x l).
Proof.
  induction l as [|y t IH]; cbn [insert_by]; [apply Permutation_refl|].
  destruct (str_leb (key x) (key y)); [apply Permutation_refl|].
  eapply perm_trans; [apply perm_swap | apply perm_skip, IH].
Qed.

Lemma sort_by_perm {A} (key : A -> str) (l : list A) :
  Permutation l (sort_by key l).
Proof.
  induction l as [|x t IH]; cbn [sort_by fold_right]; [apply perm_nil|].
  eapply perm_trans; [apply perm_skip, IH | apply insert_by_perm].
Qed.

Lemma existsb_str_In (k : str) (l : list str) :
  existsb (str_eqb k) l = true <-> In k l.
Proof.
  rewrite existsb_exists. split.
  - intros [x [H1 H2]]. apply str_eqb_eq in H2. subst. exact H1.
  - intros H. exists k. split; [exact H | apply str_eqb_refl].
Qed.

Local Abbreviation keys := (map sr_status_pedido).

Lemma group_add_keys (k : str) (v : option Q) (gs : list status_row) :
  keys (group_add k v gs) =
  if existsb (str_eqb k) (keys gs) then keys gs else keys gs ++ [k].
Proof.
  induction gs as [|g rest IH]; [reflexivity|].
  cbn [group_add map existsb].
  destruct (str_eqb k (sr_status_pedido g)); cbn [orb map]; [reflexivity|].
  rewrite IH. destruct (existsb (str_eqb k) (keys rest)); reflexivity.
Qed.

Lemma group_add_NoDup (k : str) (v : option Q) (gs : list status_row) :
  NoDup (keys gs) -> NoDup (keys (group_add k v gs)).
Proof.
  intros H. rewrite group_add_keys.
  destruct (existsb (str_eqb k) (keys gs)) eqn:E; [exact H|].
  apply (Permutation_NoDup (Permutation_cons_append (keys gs) k)).
  constructor; [|exact H].
  intros Hin. apply existsb_str_In in Hin. congruence.
Qed.

Lemma group_add_has_key (k : str) (v : option Q) (gs : list status_row) :
  In k (keys (group_add k v gs)).
Proof.
  rewrite group_add_keys.
  destruct (existsb (str_eqb k) (keys gs)) eqn:E.
  - apply existsb_str_In. exact E.
  - apply in_or_app. right. left. reflexivity.
Qed.

Lemma group_add_keeps_keys (k k' : str) (v : option Q) (gs : list status_row) :
  In k' (keys gs) -> In k' (keys (group_add k v gs)).
Proof.
  intros H. rewrite group_add_keys.
  destruct (existsb (str_eqb k) (keys gs)); [exact H|].
  apply in_or_app. left. exact H.
Qed.

Lemma group_add_In (g' : status_row) (k : str) (v : option Q) (gs : list status_row) :
  NoDup (keys gs) -> In g' (group_add k v gs) ->
  (In g' gs /\ sr_status_pedido g' <> k)
  \/ (exists g, In g gs /\ sr_status_pedido g = k /\ g' = soma_linha_status v g)
  \/ (g' = nova_linha_status k v /\ ~ In k (keys gs)).
Proof.
  induction gs as [|g rest IH]; intros Hnd Hin.
  - cbn in Hin. destruct Hin as [<-|[]]. right. right. split; [reflexivity|intros []].
  - cbn [group_add] in Hin. cbn [map] in Hnd.
    apply NoDup_cons_iff in Hnd. destruct Hnd as [Hnotin Hnd].
    destruct (str_eqb k (sr_status_pedido g)) eqn:E.
    + apply str_eqb_eq in E. destruct Hin as [<-|Hin].
      * right. left. exists g. repeat split; [left; reflexivity | congruence].
      * left. split; [right; exact Hin|].
        intros Hk. apply Hnotin. rewrite <- E, <- Hk. apply in_map. exact Hin.
    + apply str_eqb_neq in E. destruct Hin as [<-|Hin].
      * left. split; [left; reflexivity | congruence].
      * destruct (IH Hnd Hin) as [[H1 H2]|[[g0 [H1 [H2 H3]]]|[H1 H2]]].
        -- left. split; [right; exact H1 | exact H2].
        -- right. left. exists g0. repeat split; [right; exact H1 | exact H2 | exact H3].
        -- right. right. split; [exact H1|].
           cbn [map]. intros [Hk|Hk]; [congruence | exact (H2 Hk)].
Qed.

Lemma sum_valor_snoc (rows : list pedido) (r : pedido) :
  Sql.sum_valor (rows ++ [r]) =
  match valor_pedido r with
  | Some v => (Sql.sum_valor rows + v)%Q
  | None => Sql.sum_valor rows
  end.
Proof. unfold Sql.sum_valor. rewrite fold_left_app. reflexivity. Qed.

Lemma com_status_snoc (k : str) (rows : list pedido) (r : pedido) :
  com_status k (rows ++ [r]) =
  com_status k rows
    ++ (if str_eqb (normalize_status (status_pedido r)) k then [r] else []).
Proof. unfold com_status. rewrite filter_app. reflexivity. Qed.

Lemma group_by_status_snoc (rows : list pedido) (r : pedido) :
  group_by_status (rows ++ [r]) =
  group_add (normalize_status (status_pedido r)) (valor_pedido r)
            (group_by_status rows).
Proof. unfold group_by_status. rewrite fold_left_app. reflexivity. Qed.

Lemma com_status_nil (k : str) (rows : list pedido) :
  (forall r, In r rows -> normalize_status (status_pedido r) <> k) ->
  com_status k rows = [].
Proof.
  intros H. unfold com_status. induction rows as [|r t IH]; [reflexivity|].
  cbn [filter].
  destruct (str_eqb (normalize_status (status_pedido r)) k) eqn:E.
  - apply str_eqb_eq in E. exfalso. apply (H r); [left; reflexivity | exact E].
  - apply IH. intros r' Hr'. apply H. right. exact Hr'.
Qed.

(** Each group of the GROUP BY counts and sums exactly the rows of its
    canonical status, and no two groups share a status. *)
Lemma group_by_status_inv (rows : list pedido) :
  NoDup (keys (group_by_status rows)) /\
  (forall g, In g (group_by_status rows) ->
     sr_qtd g = Z.of_nat (List.length (com_status (sr_status_pedido g) rows)) /\
     sr_valor_total g = Sql.sum_valor (com_status (sr_status_pedido g) rows) /\
     com_status (sr_status_pedido g) rows <> []) /\
  (forall r, In r rows ->
     In (normalize_status (status_pedido r)) (keys (group_by_status rows))).
Proof.
  induction rows as [|r rows IH] using rev_ind.
  - split; [constructor|]. split; [intros g []|intros r []].
  - destruct IH as (Hnd & Hg & Hr). rewrite group_by_status_snoc.
    set (k := normalize_status (status_pedido r)) in *.
    split; [apply group_add_NoDup, Hnd|]. split.
    + intros g' Hin. rewrite com_status_snoc. fold k.
      destruct (group_add_In g' k _ _ Hnd Hin)
        as [[H1 H2]|[[g [H1 [H2 ->]]]|[-> H2]]].
      * assert (E : str_eqb k (sr_status_pedido g') = false)
          by (apply str_eqb_neq; congruence).
        rewrite E, app_nil_r. apply Hg, H1.
      * destruct (Hg g H1) as (Hq & Hv & Hn).
        cbn [soma_linha_status sr_status_pedido sr_qtd sr_valor_total].
        rewrite H2, str_eqb_refl, <- H2, length_app, sum_valor_snoc, <- Hv, Hq.
        cbn [List.length]. repeat split.
        -- lia.
        -- intros Habs. apply app_eq_nil in Habs. destruct Habs; discriminate.
      * cbn [nova_linha_status sr_status_pedido sr_qtd sr_valor_total].
        rewrite str_eqb_refl, com_status_nil.
        -- cbn [app List.length]. split; [reflexivity|].
           split; [reflexivity|discriminate].
        -- intros r' Hr' Hk. apply H2. rewrite <- Hk. apply Hr, Hr'.
    + intros r' Hin. apply in_app_or in Hin. destruct Hin as [Hin|[<-|[]]].
      * apply group_add_keeps_keys, Hr, Hin.
      * apply group_add_has_key.
Qed.

Lemma rows_status_In (rows : list pedido) (g : status_row) :
  In g (rows_status rows) <-> In g (group_by_status rows).
Proof.
  unfold rows_status. split; intros H.
  - eapply Permutation_in; [apply Permutation_sym, sort_by_perm | exact H].
  - eapply Permutation_in; [apply sort_by_perm | exact H].
Qed.

Lemma rows_status_NoDup (rows : list pedido) : NoDup (keys (rows_status rows)).
Proof.
  unfold rows_status.
  eapply Permutation_NoDup;
    [apply Permutation_map, sort_by_perm | apply group_by_status_inv].
Qed.

Lemma rows_status_key (rows : list pedido) (g : status_row) :
  In g (rows_status rows) ->
  exists r, In r rows /\ sr_status_pedido g = normalize_status (status_pedido r).
Proof.
  intros H. apply rows_status_In in H.
  destruct (group_by_status_inv rows) as (_ & Hg & _).
  destruct (Hg g H) as (_ & _ & Hne).
  destruct (com_status (sr_status_pedido g) rows) as [|r t] eqn:E; [congruence|].
  assert (Hin : In r (com_status (sr_status_pedido g) rows))
    by (rewrite E; left; reflexivity).
  unfold com_status in Hin. apply filter_In in Hin. destruct Hin as [H1 H2].
  apply str_eqb_eq in H2. exists r. split; [exact H1 | congruence].
Qed.

(** The [strip] of line 458 changes nothing: the keys are canonical. *)
Lemma por_status_eq (rows : list pedido) : por_status rows = rows_status rows.
Proof.
  unfold por_status.
  assert (H : forall g, In g (rows_status rows) ->
    {| sr_status_pedido := strip (sr_status_pedido g);
       sr_qtd := sr_qtd g; sr_valor_total := sr_valor_total g |} = g).
  { intros g Hg. destruct (rows_status_key rows g Hg) as [r [_ Hk]].
    destruct g as [k q v]. cbn [sr_status_pedido sr_qtd sr_valor_total] in *.
    subst k.
    rewrite normalize_status_strip. reflexivity. }
  induction (rows_status rows) as [|g t IH]; [reflexivity|].
  cbn [map]. rewrite (H g (or_introl eq_refl)). f_equal.
  apply IH. intros g' Hg'. apply H. right. exact Hg'.
Qed.

Lemma por_status_canonical (rows : list pedido) (g : status_row) :
  In g (por_status rows) ->
  normalize_status (Some (sr_status_pedido g)) = sr_status_pedido g.
Proof.
  rewrite por_status_eq. intros H.
  destruct (rows_status_key rows g H) as [r [_ ->]].
  apply normalize_status_idem.
Qed.

Lemma card_step (c : cartoes) (g : status_row) (L : str) :
  In L card_labels ->
  card (cartoes_step c g) L =
  if str_eqb (normalize_status (Some (sr_status_pedido g))) L
  then Some (sr_qtd g, sr_valor_total g)
  else card c L.
Proof.
  intros HL. unfold cartoes_step.
  remember (normalize_status (Some (sr_status_pedido g))) as su eqn:Hsu.
  clear Hsu.
  cbn [card_labels In] in HL.
  destruct HL as [<-|[<-|[<-|[<-|[]]]]];
    repeat match goal with
           | |- context [str_eqb su ?l] =>
               let E := fresh "E" in
               destruct (str_eqb su l) eqn:E;
               [apply str_eqb_eq in E; subst su; reflexivity|]
           end;
    reflexivity.
Qed.

Lemma card_step_other (c : cartoes) (g : status_row) :
  ~ In (normalize_status (Some (sr_status_pedido g))) card_labels ->
  cartoes_step c g = c.
Proof.
  intros H. unfold cartoes_step.
  remember (normalize_status (Some (sr_status_pedido g))) as su eqn:Hsu.
  clear Hsu. cbn [card_labels In] in H.
  repeat match goal with
         | |- context [str_eqb su ?l] =>
             let E := fresh "E" in
             destruct (str_eqb su l) eqn:E;
             [apply str_eqb_eq in E; exfalso; apply H; rewrite E; tauto|]
         end.
  reflexivity.
Qed.

Lemma cartoes_fold (L : str) (c0 : cartoes) (l : list status_row) :
  In L card_labels ->
  NoDup (keys l) ->
  (forall g, In g l -> normalize_status (Some (sr_status_pedido g)) = sr_status_pedido g) ->
  (forall g, In g l -> sr_status_pedido g = L ->
     card (fold_left cartoes_step l c0) L = Some (sr_qtd g, sr_valor_total g)) /\
  ((forall g, In g l -> sr_status_pedido g <> L) ->
     card (fold_left cartoes_step l c0) L = card c0 L).
Proof.
  intros HL. induction l as [|g0 l IH] using rev_ind; intros Hnd Hcan.
  - split; [intros g []|reflexivity].
  - rewrite map_app in Hnd. cbn [map] in Hnd.
    apply (Permutation_NoDup (Permutation_sym (Permutation_cons_append _ _))) in Hnd.
    apply NoDup_cons_iff in Hnd. destruct Hnd as [Hnotin Hnd].
    destruct (IH Hnd) as [IH1 IH2].
    { intros g Hg. apply Hcan, in_or_app. left. exact Hg. }
    rewrite fold_left_app. cbn [fold_left].
    rewrite (card_step _ _ _ HL), (Hcan g0) by (apply in_or_app; right; left; reflexivity).
    split.
    + intros g Hg Hk. apply in_app_or in Hg. destruct Hg as [Hg|[<-|[]]].
      * assert (E : str_eqb (sr_status_pedido g0) L = false).
        { apply str_eqb_neq. intros Hk0. apply Hnotin.
          rewrite Hk0, <- Hk. apply in_map, Hg. }
        rewrite E. apply IH1; assumption.
      * rewrite Hk, str_eqb_refl. reflexivity.
    + intros Hno.
      assert (E : str_eqb (sr_status_pedido g0) L = false).
      { apply str_eqb_neq, Hno, in_or_app. right. left. reflexivity. }
      rewrite E. apply IH2. intros g Hg. apply Hno, in_or_app. left. exact Hg.
Qed.

(** ** Totals over the groups *)

Lemma soma_qtd_group_add (k : str) (v : option Q) (gs : list status_row) :
  soma_qtd (group_add k v gs) = soma_qtd gs + 1.
Proof.
  induction gs as [|g rest IH]; [reflexivity|].
  cbn [group_add]. destruct (str_eqb k (sr_status_pedido g));
    cbn [soma_qtd fold_right soma_linha_status sr_qtd].
  - fold (soma_qtd rest). lia.
  - fold (soma_qtd (group_add k v rest)) (soma_qtd rest). lia.
Qed.

Lemma soma_qtd_perm (l l' : list status_row) :
  Permutation l l' -> soma_qtd l = soma_qtd l'.
Proof.
  unfold soma_qtd. induction 1; cbn [fold_right] in *; lia.
Qed.

Lemma soma_qtd_rows (rows : list pedido) :
  soma_qtd (rows_status rows) = Sql.count rows.
Proof.
  unfold rows_status, Sql.count.
  rewrite <- (soma_qtd_perm _ _ (sort_by_perm sr_status_pedido _)).
  induction rows as [|r rows IH] using rev_ind; [reflexivity|].
  rewrite group_by_status_snoc, soma_qtd_group_add, IH, length_app.
  cbn [List.length]. lia.
Qed.

(* ================================================================== *)
(** * Properties of the dashboard filter *)
(* ================================================================== *)

Lemma where_ok_app (a b : list (pedido -> Sql.tv)) (r : pedido) :
  Sql.where_ok (a ++ b) r = Sql.where_ok a r && Sql.where_ok b r.
Proof. unfold Sql.where_ok. apply forallb_app. Qed.

Lemma where_ok_if (c : bool) (f : pedido -> Sql.tv) (r : pedido) :
  Sql.where_ok (if c then [f] else []) r = (negb c || Sql.is_true (f r)).
Proof. destruct c; cbn; [apply andb_true_r | reflexivity]. Qed.

Lemma select_nil_where (db : store) : Sql.select [] db = db.
Proof.
  unfold Sql.select. apply filter_id. intros; reflexivity.
Qed.

Lemma truthy_true (s : str) : truthy s = true <-> s <> [].
Proof. destruct s; cbn; split; congruence. Qed.

Lemma ge_date_true (x : option Z) (lo : Z) :
  Sql.is_true (Sql.ge_date x (Some lo)) = true <-> exists d, x = Some d /\ lo <= d.
Proof.
  destruct x as [d|]; cbn.
  - destruct (lo <=? d) eqn:E.
    + apply Z.leb_le in E. split; [intros _; exists d; auto|reflexivity].
    + apply Z.leb_gt in E. split; [discriminate|].
      intros [d' [H1 H2]]. injection H1 as ->. lia.
  - split; [discriminate | intros [d [H _]]; discriminate].
Qed.

Lemma le_date_true (x : option Z) (hi : Z) :
  Sql.is_true (Sql.le_date x (Some hi)) = true <-> exists d, x = Some d /\ d <= hi.
Proof.
  destruct x as [d|]; cbn.
  - destruct (d <=? hi) eqn:E.
    + apply Z.leb_le in E. split; [intros _; exists d; auto|reflexivity].
    + apply Z.leb_gt in E. split; [discriminate|].
      intros [d' [H1 H2]]. injection H1 as ->. lia.
  - split; [discriminate | intros [d [H _]]; discriminate].
Qed.

Lemma get_strip_nil (k : str) : get_strip k [] = [].
Proof. reflexivity. Qed.

Lemma dashboard_filtros_args (isoformat : Z -> str) (hoje : Z) (args : multidict) :
  args <> [] ->
  dashboard_filtros isoformat hoje args =
  {| f_data_inicio := get_strip "data_inicio" args;
     f_data_fim := get_strip "data_fim" args;
     f_obra := get_strip "obra" args;
     f_veiculo := get_strip "veiculo" args;
     f_tag := get_strip "tag" args |}.
Proof.
  intros H. unfold dashboard_filtros.
  destruct args as [|a t]; [congruence|]. reflexivity.
Qed.

Lemma dashboard_where_no_dates (sql_date : str -> option Z) (o v t : str)
    (r : pedido) (d : option str) :
  let W := dashboard_where sql_date
             {| f_data_inicio := []; f_data_fim := [];
                f_obra := o; f_veiculo := v; f_tag := t |} in
  Sql.where_ok W (com_data_criacao_sc d r) = Sql.where_ok W r.
Proof.
  unfold dashboard_where. cbn [f_data_inicio f_data_fim f_obra f_veiculo f_tag truthy app].
  rewrite !where_ok_app, !where_ok_if. reflexivity.
Qed.

(* ================================================================== *)
(** * Properties of the amount parsers *)
(* ================================================================== *)

(** [float] on a string raises nothing but [ValueError]. *)
Lemma py_float_exn (s : str) (e : exn) : py_float s = Raise e -> e = ValueError.
Proof.
  unfold py_float.
  destruct (negb (underscores_ok None _)); [congruence|].
  destruct (take_sign _) as [neg s2].
  destruct (span isdigit s2) as [ip s3].
  destruct (match s3 with
            | [] => ([], s3)
            | c :: t => if is_char "." c then span isdigit t else ([], s3)
            end) as [fp s4].
  destruct (negb (truthy ip || truthy fp)); [congruence|].
  destruct (parse_exponent s4); [discriminate | congruence].
Qed.

Lemma parse_brl_number_total (s : option str) :
  exists v, parse_brl_number s = Ok v.
Proof.
  destruct s as [s|]; cbn [parse_brl_number]; [|eexists; reflexivity].
  destruct (negb (truthy (strip s))); [eexists; reflexivity|].
  destruct (py_float _) as [v|e] eqn:E; [eexists; reflexivity|].
  apply py_float_exn in E. subst e. eexists; reflexivity.
Qed.

Lemma parse_brl_number_blank (s : str) :
  strip s = [] -> parse_brl_number (Some s) = Ok None.
Proof. intros H. cbn [parse_brl_number]. rewrite H. reflexivity. Qed.

Lemma parse_brl_number_unparseable (s : str) (e : exn) :
  py_float (texto_valor_brl s) = Raise e -> parse_brl_number (Some s) = Ok None.
Proof.
  intros H. pose proof (py_float_exn _ _ H) as ->.
  cbn [parse_brl_number]. destruct (negb (truthy (strip s))); [reflexivity|].
  unfold texto_valor_brl in H. rewrite H. reflexivity.
Qed.

Lemma parse_valor_import_total (L : pylib) (c : cell) :
  cell_in_range c -> exists q, parse_valor_import L c = Ok q.
Proof.
  intros Hc.
  assert (Htxt : forall v, exists q,
    (let s := strip (py_str L v) in
     if negb (truthy s) then Ok 0%Q else
     let s1 := replace "," "." (replace "." "" s) in
     match py_float s1 with
     | Ok x => Ok x
     | Raise ValueError => Ok 0%Q
     | Raise e => Raise e
     end) = Ok q).
  { intros v. cbn zeta. destruct (negb (truthy _)); [eexists; reflexivity|].
    destruct (py_float _) as [x|e] eqn:E; [eexists; reflexivity|].
    apply py_float_exn in E. subst e. eexists; reflexivity. }
  destruct c as [|b|z|q|s|d]; cbn [parse_valor_import];
    try (eexists; reflexivity); try apply Htxt.
  unfold cell_in_range in Hc. apply Z.ltb_lt in Hc. rewrite Hc.
  eexists; reflexivity.
Qed.

Lemma parse_valor_import_blank (L : pylib) (s : str) :
  strip s = [] -> parse_valor_import L (CStr s) = Ok 0%Q.
Proof. intros H. cbn [parse_valor_import py_str]. rewrite H. reflexivity. Qed.

Lemma parse_valor_import_unparseable (L : pylib) (s : str) (e : exn) :
  py_float (texto_valor_import s) = Raise e ->
  parse_valor_import L (CStr s) = Ok 0%Q.
Proof.
  intros H. pose proof (py_float_exn _ _ H) as ->.
  cbn [parse_valor_import py_str].
  destruct (negb (truthy (strip s))); [reflexivity|].
  unfold texto_valor_import in H. rewrite H. reflexivity.
Qed.

(* ================================================================== *)
(** * Properties of the import loop *)
(* ================================================================== *)

Lemma eq_param_true (x : option str) (p : str) :
  Sql.is_true (Sql.eq_param x p) = true <-> x = Some p.
Proof.
  destruct x as [s|]; cbn; [|split; discriminate].
  destruct (str_eqb s p) eqn:E.
  - apply str_eqb_eq in E. subst. split; reflexivity.
  - apply str_eqb_neq in E. split; [discriminate|]. intros H. congruence.
Qed.

Lemma fetchone_exists {A} (f : A -> bool) (l : list A) :
  match filter f l with [] => false | _ :: _ => true end = existsb f l.
Proof.
  induction l as [|a t IH]; [reflexivity|]. cbn [filter existsb].
  destruct (f a); [reflexivity | exact IH].
Qed.

(** The lookup answers yes exactly when a stored row carries the same
    two strings and the pair is not entirely blank. *)
Lemma ja_existe_pedido_spec (db : store) (pc sc : str) :
  ja_existe_pedido db pc sc = true <-> par_duplicado db pc sc.
Proof.
  unfold ja_existe_pedido, par_duplicado, Sql.select.
  rewrite fetchone_exists.
  destruct pc as [|a pc']; destruct sc as [|b sc']; cbn [truthy negb andb];
    try (split; [discriminate | intros [[H|H] _]; congruence]).
  all: rewrite existsb_exists; split.
  all: try (intros [r [Hin Hw]]; split;
            [| exists r; split; [exact Hin|];
               unfold Sql.where_ok in Hw; cbn [forallb] in Hw;
               apply andb_true_iff in Hw; destruct Hw as [H1 Hw];
               apply andb_true_iff in Hw; destruct Hw as [H2 _];
               apply eq_param_true in H1; apply eq_param_true in H2; auto]).
  all: try (left; discriminate); try (right; discriminate).
  all: intros [_ [r [Hin [H1 H2]]]]; exists r; split; [exact Hin|];
    unfold Sql.where_ok; cbn [forallb];
    rewrite (proj2 (eq_param_true _ _) H1), (proj2 (eq_param_true _ _) H2);
    reflexivity.
Qed.

Lemma ja_existe_pedido_false (db : store) (pc sc : str) :
  ja_existe_pedido db pc sc = false <-> ~ par_duplicado db pc sc.
Proof.
  rewrite <- ja_existe_pedido_spec.
  destruct (ja_existe_pedido db pc sc); split; congruence.
Qed.

Lemma importar_linha_cases (L : pylib) (agora : datetime) (st : import_state)
    (cols : list cell) (valor : Q) :
  linha_com_dados cols ->
  parse_valor_import L (col cols 10 CNone) = Ok valor ->
  importar_linha L agora st cols =
  if ja_existe_pedido (st_db st) (s_ L (col cols 5 (CStr []))) (s_ L (col cols 4 (CStr [])))
  then Ok {| st_db := st_db st; inseridos := inseridos st; pulados := pulados st + 1 |}
  else Ok {| st_db := st_db st ++ [linha_importada L agora (st_db st) cols valor];
             inseridos := inseridos st + 1; pulados := pulados st |}.
Proof.
  intros Hd Hv. unfold importar_linha, linha_com_dados in *.
  rewrite Hd, Hv. reflexivity.
Qed.

(* ================================================================== *)
(** * Properties of the report by equipment *)
(* ================================================================== *)

Lemma soma_totais_from (d : dict) (a : Q) :
  (fold_left (fun acc kg => acc + g_total (snd kg)) d a == a + soma_totais d)%Q.
Proof.
  unfold soma_totais. revert a. induction d as [|x t IH]; intros a; cbn [fold_left].
  - ring.
  - rewrite (IH (a + g_total (snd x))%Q), (IH (0 + g_total (snd x))%Q). ring.
Qed.

Lemma soma_totais_cons (x : str * grupo) (d : dict) :
  (soma_totais (x :: d) == g_total (snd x) + soma_totais d)%Q.
Proof.
  unfold soma_totais at 1. cbn [fold_left]. rewrite soma_totais_from. ring.
Qed.

Lemma soma_totais_app (d1 d2 : dict) :
  (soma_totais (d1 ++ d2) == soma_totais d1 + soma_totais d2)%Q.
Proof.
  induction d1 as [|x t IH]; cbn [app].
  - unfold soma_totais at 2. cbn. ring.
  - rewrite !soma_totais_cons, IH. ring.
Qed.

Lemma soma_totais_perm (d d' : dict) :
  Permutation d d' -> (soma_totais d == soma_totais d')%Q.
Proof.
  induction 1.
  - reflexivity.
  - rewrite !soma_totais_cons, IHPermutation. reflexivity.
  - rewrite !soma_totais_cons. ring.
  - etransitivity; eassumption.
Qed.

Lemma dict_mem_app (k : str) (d1 d2 : dict) :
  dict_mem k (d1 ++ d2) = dict_mem k d1 || dict_mem k d2.
Proof.
  induction d1 as [|[k' g] t IH]; [reflexivity|].
  cbn [app dict_mem]. rewrite IH. apply orb_assoc.
Qed.

Lemma soma_totais_adjust_total (k : str) (v : Q) (f : grupo -> grupo) (d : dict) :
  (forall g, g_total (f g) = (g_total g + v)%Q) ->
  dict_mem k d = true ->
  (soma_totais (dict_adjust k f d) == soma_totais d + v)%Q.
Proof.
  intros Hf. induction d as [|[k' g] t IH]; [discriminate|].
  cbn [dict_mem dict_adjust]. destruct (str_eqb k k'); cbn [orb].
  - intros _. rewrite !soma_totais_cons. cbn [snd]. rewrite Hf. ring.
  - intros H. rewrite !soma_totais_cons, (IH H). ring.
Qed.

Lemma agrupa_step_totais (acc : dict * Q) (r : pedido) :
  snd (agrupa_step acc r) = (snd acc + valor_ou_zero r)%Q /\
  (soma_totais (fst (agrupa_step acc r)) == soma_totais (fst acc) + valor_ou_zero r)%Q.
Proof.
  destruct acc as [grupos total_geral]. unfold agrupa_step. cbn [fst snd].
  split; [reflexivity|].
  destruct (dict_mem (chave_tag r) grupos) eqn:E; cbn [negb].
  - apply soma_totais_adjust_total; [intros; reflexivity | exact E].
  - rewrite soma_totais_adjust_total; [|intros; reflexivity|].
    + rewrite soma_totais_app. unfold soma_totais at 2. cbn. ring.
    + rewrite dict_mem_app. cbn [dict_mem]. rewrite str_eqb_refl.
      cbn [orb]. apply orb_true_r.
Qed.

Lemma agrupa_por_tag_snoc (rows : list pedido) (r : pedido) :
  agrupa_por_tag (rows ++ [r]) = agrupa_step (agrupa_por_tag rows) r.
Proof. unfold agrupa_por_tag. rewrite fold_left_app. reflexivity. Qed.

Lemma soma_valores_snoc (rows : list pedido) (r : pedido) :
  soma_valores (rows ++ [r]) = (soma_valores rows + valor_ou_zero r)%Q.
Proof. unfold soma_valores. rewrite fold_left_app. reflexivity. Qed.

(** The grand total is the sum of the row values, and so is the sum of
    the group totals (amounts as exact rationals). *)
Lemma agrupa_por_tag_totais (rows : list pedido) :
  snd (agrupa_por_tag rows) = soma_valores rows /\
  (soma_totais (fst (agrupa_por_tag rows)) == soma_valores rows)%Q.
Proof.
  induction rows as [|r rows [IH1 IH2]] using rev_ind.
  - split; reflexivity.
  - rewrite agrupa_por_tag_snoc, soma_valores_snoc.
    destruct (agrupa_step_totais (agrupa_por_tag rows) r) as [H1 H2].
    rewrite H1, H2, IH1, IH2. split; reflexivity.
Qed.

Lemma str_leb_total (a : str) : forall b, str_leb a b = false -> str_leb b a = true.
Proof.
  induction a as [|x a IH]; intros [|y b]; cbn [str_leb]; try congruence.
  destruct (nat_of_ascii x <? nat_of_ascii y)%nat eqn:E1; [discriminate|].
  destruct (nat_of_ascii y <? nat_of_ascii x)%nat eqn:E2; [reflexivity|].
  apply IH.
Qed.

Lemma insert_by_sorted {A} (key : A -> str) (x : A) (l : list A) :
  Sorted (fun a b => str_leb (key a) (key b) = true) l ->
  Sorted (fun a b => str_leb (key a) (key b) = true) (insert_by key x l).
Proof.
  induction l as [|y t IH]; intros Hs; cbn [insert_by].
  - constructor; constructor.
  - destruct (str_leb (key x) (key y)) eqn:E.
    + constructor; [exact Hs | constructor; exact E].
    + apply Sorted_inv in Hs. destruct Hs as [Hs Hhd].
      constructor; [apply IH, Hs|].
      destruct t as [|z t']; cbn [insert_by].
      * constructor. apply str_leb_total, E.
      * destruct (str_leb (key x) (key z)); constructor.
        -- apply str_leb_total, E.
        -- apply HdRel_inv in Hhd. exact Hhd.
Qed.

Lemma sort_by_sorted {A} (key : A -> str) (l : list A) :
  Sorted (fun a b => str_leb (key a) (key b) = true) (sort_by key l).
Proof.
  induction l as [|x t IH]; cbn [sort_by fold_right]; [constructor|].
  apply insert_by_sorted, IH.
Qed.

(** In this model, where amounts are exact rationals: the groups come
    in ascending order of their key, a rearrangement of the groups
    built, and their totals add up to the grand total, which is the sum
    of the values of all rows.  The program adds floats, whose addition
    is not associative: of its group totals this holds up to rounding. *)
Lemma relatorio_equipamentos_totais (rows : list pedido) :
  let grupos := fst (agrupa_por_tag rows) in
  let total_geral := snd (agrupa_por_tag rows) in
  Sorted (fun a b => str_leb (fst a) (fst b) = true) (sorted_items grupos) /\
  Permutation grupos (sorted_items grupos) /\
  (total_geral == soma_totais (sorted_items grupos))%Q /\
  total_geral = soma_valores rows.
Proof.
  cbn zeta. destruct (agrupa_por_tag_totais rows) as [H1 H2].
  split; [apply sort_by_sorted|]. split; [apply sort_by_perm|].
  split; [|exact H1].
  rewrite H1, <- H2. apply soma_totais_perm, sort_by_perm.
Qed.

Lemma is_true_iff (c : bool) (P : Prop) (f : Sql.tv) :
  (Sql.is_true f = true <-> P) ->
  (negb c || Sql.is_true f = true <-> (c = false \/ P)).
Proof.
  intros H. destruct c; cbn [negb orb].
  - rewrite H. split; [auto | intros [?|?]; [discriminate | assumption]].
  - split; auto.
Qed.

Lemma truthy_false (s : str) : truthy s = false <-> s = [].
Proof. destruct s; cbn; split; congruence. Qed.

Lemma ge_date_opt (x y : option Z) :
  Sql.is_true (Sql.ge_date x y) = true <->
  exists d d0, x = Some d /\ y = Some d0 /\ d0 <= d.
Proof.
  destruct y as [d0|].
  - rewrite ge_date_true. split.
    + intros [d [H1 H2]]. exists d, d0. auto.
    + intros [d [d1 [H1 [H2 H3]]]]. injection H2 as ->. exists d. auto.
  - destruct x; cbn; split; try discriminate;
      intros [d [d1 [_ [H _]]]]; discriminate.
Qed.

Lemma le_date_opt (x y : option Z) :
  Sql.is_true (Sql.le_date x y) = true <->
  exists d d0, x = Some d /\ y = Some d0 /\ d <= d0.
Proof.
  destruct y as [d0|].
  - rewrite le_date_true. split.
    + intros [d [H1 H2]]. exists d, d0. auto.
    + intros [d [d1 [H1 [H2 H3]]]]. injection H2 as ->. exists d. auto.
  - destruct x; cbn; split; try discriminate;
      intros [d [d1 [_ [H _]]]]; discriminate.
Qed.

(** The WHERE clause of the dashboard, clause by clause. *)
Lemma dashboard_where_iff (sql_date : str -> option Z)
    (F : filtros_dashboard) (r : pedido) :
  Sql.where_ok (dashboard_where sql_date F) r = true <->
  (f_data_inicio F = [] \/
   exists d d0, opt_bind (data_criacao_sc r) sql_date = Some d /\
                sql_date (f_data_inicio F) = Some d0 /\ d0 <= d) /\
  (f_data_fim F = [] \/
   exists d d0, opt_bind (data_criacao_sc r) sql_date = Some d /\
                sql_date (f_data_fim F) = Some d0 /\ d <= d0) /\
  (f_obra F = [] \/ obra r = Some (f_obra F)) /\
  (f_veiculo F = [] \/ nome_veiculo r = Some (f_veiculo F)) /\
  (f_tag F = [] \/ normalize_tag (tag r) = normalize_tag (Some (f_tag F))).
Proof.
  unfold dashboard_where.
  rewrite !where_ok_app, !where_ok_if, !andb_true_iff.
  rewrite (is_true_iff _ _ _ (ge_date_opt _ _)).
  rewrite (is_true_iff _ _ _ (le_date_opt _ _)).
  rewrite !(is_true_iff _ _ _ (eq_param_true _ _)).
  rewrite !truthy_false. unfold Sql.NORM_TAG.
  assert (Hs : forall a b : str, Some a = Some b <-> a = b)
    by (intros; split; congruence).
  rewrite Hs. reflexivity.
Qed.

(* ================================================================== *)
(** * The model on concrete inputs *)
(* ================================================================== *)

Example replace_is_left_to_right : replace "ab" "x" "aabab" = "axx".
Proof. vm_compute. reflexivity. Qed.

Example replace_twice_five_spaces :
  replace "  " " " (replace "  " " " "A     B") = "A  B".
Proof. vm_compute. reflexivity. Qed.

Example normalize_status_paid_now :
  normalize_status (Some (lit " paid   now ")) = "PAID NOW".
Proof. vm_compute. reflexivity. Qed.

Example normalize_tag_abc : normalize_tag (Some (lit " abc ")) = "ABC".
Proof. vm_compute. reflexivity. Qed.

Example format_4601_06 : format_currency_brl (Some (460106 # 100)) = "4.601,06".
Proof. vm_compute. reflexivity. Qed.

Example format_millions :
  format_currency_brl (Some (1234567891 # 1000)) = "1.234.567,89".
Proof. vm_compute. reflexivity. Qed.

Example format_half_even : format_currency_brl (Some (5 # 1000)) = "0,00".
Proof. vm_compute. reflexivity. Qed.

Example parse_1234_56 :
  parse_brl_number (Some (lit "1.234,56")) = Ok (Some (123456 # 100)).
Proof. vm_compute. reflexivity. Qed.

Example parse_with_prefix :
  parse_brl_number (Some (lit " R$ 1.234,56 ")) = Ok (Some (123456 # 100)).
Proof. vm_compute. reflexivity. Qed.

Example parse_abc : parse_brl_number (Some (lit "abc")) = Ok None.
Proof. vm_compute. reflexivity. Qed.

Example float_underscore_exponent : py_float "1_000.5e-1" = Ok (10005 # 100).
Proof. vm_compute. reflexivity. Qed.

Example float_double_underscore : py_float "1__0" = Raise ValueError.
Proof. vm_compute. reflexivity. Qed.

Example float_lone_point : py_float "." = Raise ValueError.
Proof. vm_compute. reflexivity. Qed.

Example isoformat_today : date_isoformat 739924 = "2026-11-04".
Proof. vm_compute. reflexivity. Qed.

Example data_iso_leap_day : data_iso "2024-02-29" = Some 738945.
Proof. vm_compute. reflexivity. Qed.

(** Three spellings of one status form one group of three rows. *)
Example por_status_pago :
  map (fun g => (sr_status_pedido g, sr_qtd g))
      (por_status
         [pedido_exemplo 1 None (Some (lit "Pago")) None None None None;
          pedido_exemplo 2 None (Some (lit "PAGO")) None None None None;
          pedido_exemplo 3 None (Some (lit " pago ")) None None None None])
  = [(lit "PAGO", 3)].
Proof. vm_compute. reflexivity. Qed.

(** Today is 2026-11-04: without parameters only the row of October is
    selected, with two blank date parameters both rows are. *)
Example dashboard_rows_default :
  let db := [pedido_exemplo 1 None None None None (Some (lit "2026-10-20")) None;
             pedido_exemplo 2 None None None None (Some (lit "2026-01-15")) None] in
  map id (dashboard_rows data_iso date_isoformat 739924 [] db) = [1] /\
  map id (dashboard_rows data_iso date_isoformat 739924
            [(lit "data_inicio", lit ""); (lit "data_fim", lit "")] db) = [1; 2].
Proof. cbn zeta. split; vm_compute; reflexivity. Qed.

(** A tag stored as " abc " matches the dashboard filter ABC. *)
Example dashboard_rows_tag :
  map id (dashboard_rows data_iso date_isoformat 739924
            [(lit "tag", lit "ABC")]
            [pedido_exemplo 1 (Some (lit " abc ")) None None None None None;
             pedido_exemplo 2 (Some (lit "abd")) None None None None None]) = [1].
Proof. vm_compute. reflexivity. Qed.

Example agrupa_por_tag_exemplo :
  map (fun kg => (fst kg, g_total (snd kg)))
      (sorted_items
         (fst (agrupa_por_tag
                 [pedido_exemplo 1 (Some (lit "B-2")) None None None None (Some (3 # 1));
                  pedido_exemplo 2 None None None None None (Some (1 # 1));
                  pedido_exemplo 3 (Some (lit " A-1 ")) None None None None None;
                  pedido_exemplo 4 (Some (lit "B-2")) None None None None (Some (5 # 2))])))
  = [(lit "A-1", 0 + 0); (lit "B-2", 0 + 3 + (5 # 2)); (lit "SEM TAG", 0 + 1)]%Q.
Proof. vm_compute. reflexivity. Qed.

(* ================================================================== *)
(** * The claims *)
(* ================================================================== *)

(** C7, as amended.  [normalize_status] is idempotent; it trims all
    whitespace, uppercases, and squeezes every run of the space character
    to one space, leaving no two adjacent spaces; the example of the
    specification evaluates as stated, and an absent or empty input
    gives the empty string.  Whitespace other than the space character
    is kept as it is in the interior. *)
Theorem normalize_status_canonical :
  (forall x, normalize_status (Some (normalize_status x)) = normalize_status x) /\
  (forall x, normalize_status x = squeeze_spaces (upper (strip (or_empty x)))) /\
  (forall x, contains two_spaces (normalize_status x) = false) /\
  normalize_status (Some (lit " paid   now ")) = "PAID NOW" /\
  normalize_status None = [] /\
  normalize_status (Some []) = [].
Proof.
  split; [exact normalize_status_idem|].
  split; [exact normalize_status_squeeze|].
  split; [exact normalize_status_no_double|].
  repeat split; vm_compute; reflexivity.
Qed.

(** C7, counterexample to the claim as stated: an interior run of two
    tabs is whitespace, the specification's canonical form turns it into
    one space, and [normalize_status] keeps both tabs. *)
Lemma normalize_status_keeps_tabs :
  let x := Some ["a"%char; "009"%char; "009"%char; "b"%char] in
  normalize_status x = ["A"%char; "009"%char; "009"%char; "B"%char] /\
  spec_canonical_status x = "A B" /\
  normalize_status x <> spec_canonical_status x.
Proof.
  cbn zeta. repeat split; try (vm_compute; reflexivity).
  vm_compute. discriminate.
Qed.

(** C6.  An amount that is non-negative and has at most two decimal
    places ([v] is [c] hundredths) survives [format_currency_brl]
    followed by [parse_brl_number]; 1234.56 is formatted as "1.234,56";
    the absent amount is formatted as the empty string, and the empty
    string and the absent string are parsed as absent. *)
Theorem format_parse_roundtrip (v : Q) (c : Z) :
  (0 <= v)%Q -> (v == c # 100)%Q ->
  (exists q, parse_brl_number (Some (format_currency_brl (Some v))) = Ok (Some q)
             /\ (q == v)%Q) /\
  format_currency_brl (Some (123456 # 100)) = "1.234,56" /\
  format_currency_brl None = [] /\
  parse_brl_number (Some []) = Ok None /\
  parse_brl_number None = Ok None.
Proof.
  intros Hv Hc. split.
  - exists (c # 100). split; [apply format_parse_cents; assumption|].
    symmetry. exact Hc.
  - repeat split; vm_compute; reflexivity.
Qed.

(** C6 at the amount 4601.06. *)
Lemma format_parse_roundtrip_witness :
  (0 <= 460106 # 100)%Q /\
  (exists q, parse_brl_number (Some (format_currency_brl (Some (460106 # 100))))
             = Ok (Some q) /\ (q == 460106 # 100)%Q).
Proof.
  split; [discriminate|].
  apply (format_parse_roundtrip (460106 # 100) 460106);
    [discriminate | reflexivity].
Defined.

(** The card of a label shows the group of that label, that is the
    count and the sum of the rows of that canonical status. *)
Lemma dashboard_cartoes_card (rows : list pedido) (L : str) :
  In L card_labels ->
  (forall g, In g (por_status rows) -> sr_status_pedido g = L ->
     card (dashboard_cartoes rows) L = Some (sr_qtd g, sr_valor_total g)) /\
  ((forall g, In g (por_status rows) -> sr_status_pedido g <> L) ->
     card (dashboard_cartoes rows) L = Some (0, 0%Q)) /\
  card (dashboard_cartoes rows) L =
    Some (Sql.count (com_status L rows), Sql.sum_valor (com_status L rows)).
Proof.
  intros HL.
  pose proof (rows_status_NoDup rows) as Hnd.
  assert (Hcan : forall g, In g (rows_status rows) ->
            normalize_status (Some (sr_status_pedido g)) = sr_status_pedido g).
  { intros g Hg. apply (por_status_canonical rows). rewrite por_status_eq. exact Hg. }
  assert (Hzero : card cartoes_zero L = Some (0, 0%Q)).
  { cbn [card_labels In] in HL.
    destruct HL as [<-|[<-|[<-|[<-|[]]]]]; reflexivity. }
  unfold dashboard_cartoes. rewrite por_status_eq.
  destruct (cartoes_fold L cartoes_zero (rows_status rows) HL Hnd Hcan) as [H1 H2].
  split; [exact H1|]. split; [rewrite <- Hzero; exact H2|].
  destruct (group_by_status_inv rows) as (_ & Hg & Hr).
  destruct (in_dec (list_eq_dec ascii_dec) L (map sr_status_pedido (rows_status rows)))
    as [Hin|Hnin].
  - apply in_map_iff in Hin. destruct Hin as [g [Hk Hin]].
    rewrite (H1 g Hin Hk).
    destruct (Hg g (proj1 (rows_status_In rows g) Hin)) as (Hq & Hv & _).
    rewrite Hq, Hv, Hk. reflexivity.
  - rewrite H2, Hzero.
    + rewrite com_status_nil; [reflexivity|].
      intros r Hr' Hk. apply Hnin.
      apply in_map_iff. apply Hr in Hr'. apply in_map_iff in Hr'.
      destruct Hr' as [g [Hkg Hing]]. exists g.
      split; [congruence | apply rows_status_In, Hing].
    + intros g Hin Hk. apply Hnin. rewrite <- Hk. apply in_map, Hin.
Qed.

(** The four cards determine the record of the cards. *)
Lemma cartoes_ext (c1 c2 : cartoes) :
  (forall L, In L card_labels -> card c1 L = card c2 L) -> c1 = c2.
Proof.
  intros H.
  pose proof (H "EM ABERTO" (or_introl eq_refl)) as H1.
  pose proof (H "AGUARDANDO PAGAMENTO" (or_intror (or_introl eq_refl))) as H2.
  pose proof (H "PAGO" (or_intror (or_intror (or_introl eq_refl)))) as H3.
  pose proof (H "CANCELADO" (or_intror (or_intror (or_intror (or_introl eq_refl))))) as H4.
  destruct c1, c2. vm_compute in H1, H2, H3, H4.
  injection H1 as -> ->. injection H2 as -> ->.
  injection H3 as -> ->. injection H4 as -> ->. reflexivity.
Qed.

(** C4.  For every filtered row set: each of the four cards EM ABERTO,
    AGUARDANDO PAGAMENTO, PAGO and CANCELADO shows the count and sum of
    the by-status group of that canonical status, which are the count
    and sum of the rows of that status, and zero and zero when no group
    has it; a group of any other status leaves every card as it was
    while its rows are counted in the overall count, which is the sum of
    the counts of all groups; a further row of any other status raises
    the overall count by one and the overall sum by its value and
    changes no card; no two groups share a status. *)
Theorem dashboard_cartoes_spec (rows : list pedido) :
  (forall L, In L card_labels ->
     (forall g, In g (por_status rows) -> sr_status_pedido g = L ->
        card (dashboard_cartoes rows) L = Some (sr_qtd g, sr_valor_total g)) /\
     ((forall g, In g (por_status rows) -> sr_status_pedido g <> L) ->
        card (dashboard_cartoes rows) L = Some (0, 0%Q)) /\
     card (dashboard_cartoes rows) L =
       Some (Sql.count (com_status L rows), Sql.sum_valor (com_status L rows))) /\
  (forall g c, In g (por_status rows) ->
     ~ In (sr_status_pedido g) card_labels -> cartoes_step c g = c) /\
  total_pedidos rows = soma_qtd (por_status rows) /\
  (forall r, ~ In (normalize_status (status_pedido r)) card_labels ->
     dashboard_cartoes (rows ++ [r]) = dashboard_cartoes rows /\
     total_pedidos (rows ++ [r]) = total_pedidos rows + 1 /\
     total_valor (rows ++ [r]) =
       match valor_pedido r with
       | Some v => (total_valor rows + v)%Q
       | None => total_valor rows
       end) /\
  NoDup (map sr_status_pedido (por_status rows)).
Proof.
  split; [intros L HL; apply dashboard_cartoes_card, HL|].
  split; [|split; [|split]].
  - intros g c Hin Hno. apply card_step_other.
    rewrite (por_status_canonical rows g Hin). exact Hno.
  - unfold total_pedidos. rewrite por_status_eq. symmetry. apply soma_qtd_rows.
  - intros r Hno. split; [|split].
    + apply cartoes_ext. intros L HL.
      rewrite (proj2 (proj2 (dashboard_cartoes_card (rows ++ [r]) L HL))).
      rewrite (proj2 (proj2 (dashboard_cartoes_card rows L HL))).
      rewrite com_status_snoc.
      assert (E : str_eqb (normalize_status (status_pedido r)) L = false).
      { apply str_eqb_neq. intros Hk. apply Hno. rewrite Hk. exact HL. }
      rewrite E, app_nil_r. reflexivity.
    + unfold total_pedidos, Sql.count. rewrite length_app. cbn [List.length]. lia.
    + unfold total_valor. apply sum_valor_snoc.
  - rewrite por_status_eq. apply rows_status_NoDup.
Qed.

(** C2.  With no query parameter at all, the dashboard returns exactly
    the rows, in table order, whose requisition date is a day from 30
    days before today through today.  With at least one parameter, even
    a blank one, no default is applied: the filters are the trimmed
    parameters, and a row is returned exactly when it satisfies each
    filter that is not blank, so that a blank or absent date bound, on
    either side and whatever the other bound is, constrains nothing;
    when all five filters are blank every row is returned.  [sql_date]
    and [isoformat] are the two date functions of the libraries, which
    read back today and the day 30 days before. *)
Theorem dashboard_default_range (sql_date : str -> option Z)
    (isoformat : Z -> str) (hoje : Z) :
  sql_date (isoformat (hoje - 30)) = Some (hoje - 30) ->
  sql_date (isoformat hoje) = Some hoje ->
  isoformat (hoje - 30) <> [] ->
  isoformat hoje <> [] ->
  (forall db,
     dashboard_rows sql_date isoformat hoje [] db
     = filter (no_intervalo sql_date (hoje - 30) hoje) db) /\
  (forall r,
     no_intervalo sql_date (hoje - 30) hoje r = true
     <-> data_no_intervalo sql_date (hoje - 30) hoje r) /\
  (forall args, args <> [] ->
     let F := dashboard_filtros isoformat hoje args in
     f_data_inicio F = get_strip "data_inicio" args /\
     f_data_fim F = get_strip "data_fim" args /\
     (forall db r,
        In r (dashboard_rows sql_date isoformat hoje args db) <->
        In r db /\
        (get_strip "data_inicio" args = [] \/
         exists d d0, opt_bind (data_criacao_sc r) sql_date = Some d /\
                      sql_date (get_strip "data_inicio" args) = Some d0 /\ d0 <= d) /\
        (get_strip "data_fim" args = [] \/
         exists d d0, opt_bind (data_criacao_sc r) sql_date = Some d /\
                      sql_date (get_strip "data_fim" args) = Some d0 /\ d <= d0) /\
        (get_strip "obra" args = [] \/ obra r = Some (get_strip "obra" args)) /\
        (get_strip "veiculo" args = [] \/
         nome_veiculo r = Some (get_strip "veiculo" args)) /\
        (get_strip "tag" args = [] \/
         normalize_tag (tag r) = normalize_tag (Some (get_strip "tag" args)))) /\
     (get_strip "data_inicio" args = [] -> get_strip "data_fim" args = [] ->
      forall r d,
        Sql.where_ok (dashboard_where sql_date F) (com_data_criacao_sc d r)
        = Sql.where_ok (dashboard_where sql_date F) r) /\
     (get_strip "data_inicio" args = [] -> get_strip "data_fim" args = [] ->
      get_strip "obra" args = [] -> get_strip "veiculo" args = [] ->
      get_strip "tag" args = [] ->
      forall db, dashboard_rows sql_date isoformat hoje args db = db)).
Proof.
  intros Hlo Hhi Hnlo Hnhi.
  assert (Hb : forall r,
            no_intervalo sql_date (hoje - 30) hoje r = true
            <-> data_no_intervalo sql_date (hoje - 30) hoje r).
  { intros r. unfold no_intervalo, data_no_intervalo.
    destruct (opt_bind (data_criacao_sc r) sql_date) as [d|].
    - rewrite andb_true_iff, !Z.leb_le. split.
      + intros H. exists d. split; [reflexivity | lia].
      + intros [d' [H1 H2]]. injection H1 as ->. lia.
    - split; [discriminate | intros [d [H _]]; discriminate]. }
  split; [|split; [exact Hb|]].
  - intros db. unfold dashboard_rows, Sql.select. apply filter_ext. intros r.
    unfold dashboard_filtros, dashboard_where.
    cbn [List.length Nat.eqb f_data_inicio f_data_fim f_obra f_veiculo f_tag].
    rewrite !get_strip_nil.
    rewrite (proj2 (truthy_true _) Hnlo), (proj2 (truthy_true _) Hnhi).
    cbn [truthy app]. unfold Sql.where_ok. cbn [forallb].
    rewrite Hlo, Hhi, andb_true_r. unfold no_intervalo.
    destruct (opt_bind (data_criacao_sc r) sql_date) as [d|]; [|reflexivity].
    cbn [Sql.ge_date Sql.le_date Sql.is_true].
    destruct (hoje - 30 <=? d), (d <=? hoje); reflexivity.
  - intros args Hne. cbn zeta. rewrite (dashboard_filtros_args _ _ _ Hne).
    cbn [f_data_inicio f_data_fim].
    split; [reflexivity|]. split; [reflexivity|]. split; [|split].
    + intros db r. unfold dashboard_rows, Sql.select.
      rewrite (dashboard_filtros_args _ _ _ Hne), filter_In, dashboard_where_iff.
      cbn [f_data_inicio f_data_fim f_obra f_veiculo f_tag]. reflexivity.
    + intros Hi Hf r d. rewrite Hi, Hf. apply dashboard_where_no_dates.
    + intros Hi Hf Ho Hv Ht db. unfold dashboard_rows.
      rewrite (dashboard_filtros_args _ _ _ Hne), Hi, Hf, Ho, Hv, Ht.
      apply select_nil_where.
Qed.

(** C2 at today = 2026-11-04, on a table with a row of October 2026 and
    a row of January 2026: without parameters the row of October alone
    is returned, with two blank date parameters both rows are. *)
Lemma dashboard_default_range_witness :
  data_iso (date_isoformat (739924 - 30)) = Some (739924 - 30) /\
  data_iso (date_isoformat 739924) = Some 739924 /\
  dashboard_rows data_iso date_isoformat 739924 []
    [pedido_exemplo 1 None None None None (Some (lit "2026-10-20")) None;
     pedido_exemplo 2 None None None None (Some (lit "2026-01-15")) None]
  = [pedido_exemplo 1 None None None None (Some (lit "2026-10-20")) None] /\
  dashboard_rows data_iso date_isoformat 739924
    [(lit "data_inicio", lit ""); (lit "data_fim", lit " ")]
    [pedido_exemplo 1 None None None None (Some (lit "2026-10-20")) None;
     pedido_exemplo 2 None None None None (Some (lit "2026-01-15")) None]
  = [pedido_exemplo 1 None None None None (Some (lit "2026-10-20")) None;
     pedido_exemplo 2 None None None None (Some (lit "2026-01-15")) None].
Proof.
  assert (H1 : data_iso (date_isoformat (739924 - 30)) = Some (739924 - 30))
    by (vm_compute; reflexivity).
  assert (H2 : data_iso (date_isoformat 739924) = Some 739924)
    by (vm_compute; reflexivity).
  assert (H3 : date_isoformat (739924 - 30) <> []) by (vm_compute; discriminate).
  assert (H4 : date_isoformat 739924 <> []) by (vm_compute; discriminate).
  destruct (dashboard_default_range data_iso date_isoformat 739924 H1 H2 H3 H4)
    as (Hdef & _ & Hargs).
  split; [exact H1|]. split; [exact H2|]. split.
  - rewrite Hdef. vm_compute. reflexivity.
  - apply (Hargs [(lit "data_inicio", lit ""); (lit "data_fim", lit " ")]);
      [discriminate | reflexivity ..].
Defined.

(** C3, as amended.  A sheet row whose first 16 cells are all empty
    (absent, blank text, zero or false) is ignored: it is neither
    inserted nor counted as skipped.  For every sheet row that carries
    data and whose amount cell is converted (not an integer beyond the
    range of a float): the row is skipped, leaving the table and the
    inserted count as they were, exactly when a stored row has the same
    purchase-order and requisition numbers and that pair is not entirely
    blank; otherwise it is appended and counted; such a row whose two
    numbers are both blank is always inserted. *)
Theorem importar_linha_duplicate_rule (L : pylib) (agora : datetime)
    (st : import_state) (cols : list cell) :
  (tem_dados cols = false -> importar_linha L agora st cols = Ok st) /\
  (linha_com_dados cols ->
   cell_in_range (col cols 10 CNone) ->
   let numero_pc_ := s_ L (col cols 5 (CStr [])) in
   let numero_sc_ := s_ L (col cols 4 (CStr [])) in
   exists valor st',
     parse_valor_import L (col cols 10 CNone) = Ok valor /\
     importar_linha L agora st cols = Ok st' /\
     (par_duplicado (st_db st) numero_pc_ numero_sc_ ->
        st' = {| st_db := st_db st; inseridos := inseridos st;
                 pulados := pulados st + 1 |}) /\
     (~ par_duplicado (st_db st) numero_pc_ numero_sc_ ->
        st' = {| st_db := st_db st ++ [linha_importada L agora (st_db st) cols valor];
                 inseridos := inseridos st + 1; pulados := pulados st |}) /\
     (inseridos st' = inseridos st <-> par_duplicado (st_db st) numero_pc_ numero_sc_) /\
     (numero_pc_ = [] -> numero_sc_ = [] ->
        st' = {| st_db := st_db st ++ [linha_importada L agora (st_db st) cols valor];
                 inseridos := inseridos st + 1; pulados := pulados st |})).
Proof.
  split.
  { intros H. unfold importar_linha. unfold tem_dados in H. rewrite H. reflexivity. }
  intros Hd Hc. cbn zeta.
  destruct (parse_valor_import_total L _ Hc) as [valor Hv].
  exists valor. rewrite (importar_linha_cases L agora st cols valor Hd Hv).
  destruct (ja_existe_pedido (st_db st) _ _) eqn:E.
  - apply ja_existe_pedido_spec in E. eexists. split; [exact Hv|].
    split; [reflexivity|]. split; [reflexivity|]. split; [tauto|].
    split; [cbn [inseridos]; tauto|].
    intros H1 H2. destruct E as [[H|H] _]; congruence.
  - apply ja_existe_pedido_false in E. eexists. split; [exact Hv|].
    split; [reflexivity|]. split; [tauto|]. split; [reflexivity|].
    split; [cbn [inseridos]; split; [lia | tauto]|]. reflexivity.
Qed.

(** C3 at a sheet row PC1 / SC1 against a table holding that pair. *)
Lemma importar_linha_duplicate_rule_witness :
  linha_com_dados (linha_planilha (CStr "SC1") (CStr "PC1")) /\
  exists valor st',
    parse_valor_import pylib_exemplo
      (col (linha_planilha (CStr "SC1") (CStr "PC1")) 10 CNone) = Ok valor /\
    importar_linha pylib_exemplo meia_noite
      (estado_inicial [pedido_exemplo 1 None None (Some (lit "PC1")) (Some (lit "SC1")) None None])
      (linha_planilha (CStr "SC1") (CStr "PC1")) = Ok st' /\
    inseridos st' = 0.
Proof.
  split; [reflexivity|].
  destruct (proj2 (importar_linha_duplicate_rule pylib_exemplo meia_noite
              (estado_inicial [pedido_exemplo 1 None None (Some (lit "PC1")) (Some (lit "SC1")) None None])
              (linha_planilha (CStr "SC1") (CStr "PC1"))) eq_refl I)
    as (valor & st' & Hv & Hi & _ & _ & Hiff & _).
  exists valor, st'. split; [exact Hv|]. split; [exact Hi|].
  apply Hiff. split; [left; discriminate|].
  eexists. split; [left; reflexivity|]. split; reflexivity.
Defined.

(** C3, counterexample to the claim as stated: a sheet row whose only
    cell is the amount 0 has a blank purchase-order number and a blank
    requisition number; the guard of line 148 drops it, so it is not
    inserted. *)
Lemma importar_linha_blank_row_ignored :
  let cols := [CNone; CNone; CNone; CNone; CNone; CNone; CNone; CNone; CNone; CNone;
               CInt 0] in
  numero_pc_linha pylib_exemplo cols = [] /\
  numero_sc_linha pylib_exemplo cols = [] /\
  importar_linha pylib_exemplo meia_noite (estado_inicial []) cols
  = Ok (estado_inicial []) /\
  forall row,
    importar_linha pylib_exemplo meia_noite (estado_inicial []) cols
    <> Ok {| st_db := [row]; inseridos := 1; pulados := 0 |}.
Proof.
  cbn zeta. repeat split; try (vm_compute; reflexivity).
  intros row. vm_compute. discriminate.
Qed.

(** C10.  The duplicate check compares the two numbers with the stored
    ones by exact string equality, and it looks the pair up whenever at
    least one of the two is non-empty: a pair that differs from the
    stored one in letter case only is not a duplicate and its row is
    inserted, and a pair with one empty number that equals a stored pair
    is a duplicate and its row is skipped. *)
Theorem ja_existe_pedido_exact :
  (forall db pc sc,
     ja_existe_pedido db pc sc = true <->
     (pc <> [] \/ sc <> []) /\
     exists r, In r db /\ numero_pc r = Some pc /\ numero_sc r = Some sc) /\
  (forall r pc sc,
     numero_pc r <> Some pc \/ numero_sc r <> Some sc ->
     ja_existe_pedido [r] pc sc = false) /\
  (let db := [pedido_exemplo 1 None None (Some (lit "PC1")) (Some (lit "SC1")) None None] in
   ja_existe_pedido db "PC1" "SC1" = true /\
   ja_existe_pedido db "pc1" "SC1" = false /\
   ja_existe_pedido db "PC1" "sc1" = false /\
   upper "pc1" = "PC1" /\
   resumo (importar_linha pylib_exemplo meia_noite (estado_inicial db)
             (linha_planilha (CStr "SC1") (CStr "pc1"))) = Some (1, 0, 2%nat) /\
   resumo (importar_linha pylib_exemplo meia_noite (estado_inicial db)
             (linha_planilha (CStr "SC1") (CStr "PC1"))) = Some (0, 1, 1%nat)) /\
  (let db := [pedido_exemplo 1 None None (Some (lit "PC1")) (Some []) None None] in
   ja_existe_pedido db "PC1" "" = true /\
   resumo (importar_linha pylib_exemplo meia_noite (estado_inicial db)
             (linha_planilha (CStr "") (CStr "PC1"))) = Some (0, 1, 1%nat)).
Proof.
  split; [exact ja_existe_pedido_spec|]. split.
  - intros r pc sc H. apply ja_existe_pedido_false.
    intros [_ [r' [[<-|[]] [H1 H2]]]]. tauto.
  - split; cbn zeta; repeat split; vm_compute; reflexivity.
Qed.

Lemma upper_nil (s : str) : upper s = [] <-> s = [].
Proof. destruct s; cbn; split; congruence. Qed.

(** C8.  For every POST of the entry form by a logged-in user: when the
    text typed as tag or as item description is absent or blank after
    trimming, the view answers with the form and the warning message and
    the table is unchanged; when both are present the insert proceeds:
    exactly one row is appended, with a fresh id, the typed tag trimmed
    and in upper case, and the typed description trimmed. *)
Theorem novo_pedido_required_fields (agora : str) (req : http_request) (db : store) :
  usuario_id_in_session req = true ->
  method req = lit "POST" ->
  let tag_digitada := or_empty (md_get "tag" (form req)) in
  let itens_digitados := or_empty (md_get "descricao_itens" (form req)) in
  (strip tag_digitada = [] \/ strip itens_digitados = [] ->
     novo_pedido agora req db =
     {| resp := RenderTemplate "pedidos_form.html";
        flashed := [(msg_obrigatorios, lit "warning")];
        db_after := db |}) /\
  (strip tag_digitada <> [] -> strip itens_digitados <> [] ->
     exists row,
       novo_pedido agora req db =
       {| resp := Redirect "listar_pedidos";
          flashed := [(msg_cadastrado, lit "success")];
          db_after := db ++ [row] |} /\
       id row = next_id db /\
       tag row = Some (upper (strip tag_digitada)) /\
       upper (strip tag_digitada) <> [] /\
       descricao_itens row = Some (strip itens_digitados)).
Proof.
  intros Hs Hm. cbn zeta. unfold novo_pedido. rewrite Hs, Hm.
  cbn [negb]. change (str_eqb (lit "POST") (lit "POST")) with true. cbn iota.
  destruct (parse_brl_number_total (md_get "valor_pedido" (form req))) as [v Hv].
  rewrite Hv. unfold normalize_tag, get_strip.
  assert (Ht : forall s : str, truthy (upper s) = truthy s) by (intros [|c t]; reflexivity).
  rewrite Ht. split.
  - intros [H|H]; rewrite H; cbn [truthy negb orb]; [reflexivity|].
    rewrite orb_true_r. reflexivity.
  - intros H1 H2.
    rewrite (proj2 (truthy_true _) H1), (proj2 (truthy_true _) H2).
    cbn [negb orb]. eexists. split; [reflexivity|].
    cbn [id tag descricao_itens]. repeat split.
    intros H. exact (H1 (proj1 (upper_nil _) H)).
Qed.

(** C8 at two forms: one whose tag is two spaces, refused, and one
    whose tag and description are typed with spaces around, accepted. *)
Lemma novo_pedido_required_fields_witness :
  novo_pedido "2024-01-02 00:00:00"
    {| method := lit "POST";
       form := [(lit "tag", lit "  "); (lit "descricao_itens", lit "filtro")];
       usuario_id_in_session := true |} []
  = {| resp := RenderTemplate "pedidos_form.html";
       flashed := [(msg_obrigatorios, lit "warning")];
       db_after := [] |} /\
  exists row,
    novo_pedido "2024-01-02 00:00:00"
      {| method := lit "POST";
         form := [(lit "tag", lit " eq-01 "); (lit "descricao_itens", lit " filtro de ar ")];
         usuario_id_in_session := true |} []
    = {| resp := Redirect "listar_pedidos";
         flashed := [(msg_cadastrado, lit "success")];
         db_after := [] ++ [row] |} /\
    id row = 1 /\
    tag row = Some (lit "EQ-01") /\
    descricao_itens row = Some (lit "filtro de ar").
Proof.
  split.
  - apply (novo_pedido_required_fields "2024-01-02 00:00:00"
             {| method := lit "POST";
                form := [(lit "tag", lit "  "); (lit "descricao_itens", lit "filtro")];
                usuario_id_in_session := true |} [] eq_refl eq_refl).
    left. reflexivity.
  - destruct (proj2 (novo_pedido_required_fields "2024-01-02 00:00:00"
                       {| method := lit "POST";
                          form := [(lit "tag", lit " eq-01 ");
                                   (lit "descricao_itens", lit " filtro de ar ")];
                          usuario_id_in_session := true |} [] eq_refl eq_refl))
      as (row & H1 & H2 & H3 & _ & H5).
    + vm_compute. discriminate.
    + vm_compute. discriminate.
    + exists row. split; [exact H1|]. split; [exact H2|].
      split; [rewrite H3; vm_compute; reflexivity | rewrite H5; vm_compute; reflexivity].
Defined.

(** C9, the code at the failing input.  [float(valor)] on an integer
    cell is outside the [try]: from the magnitude on at which the value
    would round to 2^1024 it raises [OverflowError], here at 10^400, and
    the exception leaves [parse_valor_import], the row and the whole run
    of the import.  The text cell nan reaches [float] as a spelling of
    NaN, which [float] accepts. *)
Theorem parse_valor_import_overflow :
  (forall L z, float_int_limit <= Z.abs z ->
     parse_valor_import L (CInt z) = Raise OverflowError) /\
  float_nao_finito (texto_valor_import "nan") = Some NaN /\
  (let cols := [CStr "ESCAVADEIRA"; CStr "EQ-01"; CStr "FILTRO"; CNone;
                CStr "SC1"; CStr "PC1"; CNone; CNone; CNone; CNone;
                CInt (10 ^ 400)] in
   parse_valor_import pylib_exemplo (col cols 10 CNone) = Raise OverflowError /\
   importar_linha pylib_exemplo meia_noite (estado_inicial []) cols
   = Raise OverflowError /\
   importar pylib_exemplo (fun _ => meia_noite) []
     [linha_planilha (CStr "SC0") (CStr "PC0"); cols]
   = Raise OverflowError).
Proof.
  split.
  - intros L z Hz. cbn [parse_valor_import].
    rewrite (proj2 (Z.ltb_ge _ _) Hz). reflexivity.
  - split; [vm_compute; reflexivity|].
    cbn zeta. repeat split; vm_compute; reflexivity.
Qed.

(** The tag filter of the dashboard compares canonical forms. *)
Lemma dashboard_tag_clause_canonical (t : str) (r : pedido) :
  Sql.is_true (Sql.eq_param (Sql.NORM_TAG (tag r)) (normalize_tag (Some t))) = true
  <-> normalize_tag (tag r) = normalize_tag (Some t).
Proof.
  unfold Sql.NORM_TAG. rewrite eq_param_true. split; congruence.
Qed.

(** C1, the code at the failing input.  A stored status with a run of
    five interior spaces has the canonical form EM ABERTO, the value the
    filter asks for; the SQL expression of [listar_pedidos] applies
    REPLACE twice and leaves two spaces, so the row is not selected. *)
Theorem listar_pedidos_status_five_spaces :
  let r := pedido_exemplo 1 None (Some (lit "EM     ABERTO")) None None None None in
  let args := [(lit "status", lit "EM ABERTO")] in
  normalize_status (status_pedido r) = listar_status_norm args /\
  listar_status_norm args = "EM ABERTO" /\
  sql_status_expr r = Some (lit "EM  ABERTO") /\
  Sql.where_ok (listar_where args) r = false /\
  listar_pedidos args [r] = [].
Proof. cbn zeta. repeat split; vm_compute; reflexivity. Qed.

(** C5, the code at the failing input.  A row whose tag is two spaces
    has a blank tag; the grouping key is the empty string, not SEM TAG,
    while a NULL tag and an empty tag give SEM TAG. *)
Theorem relatorio_tag_em_branco :
  let r := pedido_exemplo 1 (Some (lit "  ")) None None None None (Some (10 # 1)) in
  chave_tag r = [] /\
  chave_tag r <> sem_tag /\
  map fst (fst (agrupa_por_tag [r])) = [ [] ] /\
  chave_tag (pedido_exemplo 2 None None None None None None) = sem_tag /\
  chave_tag (pedido_exemplo 3 (Some []) None None None None None) = sem_tag.
Proof.
  cbn zeta. repeat split; try (vm_compute; reflexivity).
  vm_compute. discriminate.
Qed.


(* ================================================================== *)
(** * Further properties of the normalizer *)
(* ================================================================== *)

Lemma normalize_tag_trimmed (x : option str) : trimmed isspace (normalize_tag x).
Proof. apply trimmed_upper, strip_trimmed. Qed.

Lemma normalize_tag_strip (x : option str) :
  strip (normalize_tag x) = normalize_tag x.
Proof. apply strip_id, normalize_tag_trimmed. Qed.

Lemma normalize_tag_upper (x : option str) :
  upper (normalize_tag x) = normalize_tag x.
Proof. unfold normalize_tag. apply upper_idem. Qed.

Lemma normalize_tag_idem (x : option str) :
  normalize_tag (Some (normalize_tag x)) = normalize_tag x.
Proof.
  unfold normalize_tag at 1. cbn [or_empty].
  rewrite normalize_tag_strip. apply normalize_tag_upper.
Qed.

(** X1.  [normalize_tag] is idempotent, and its result is a fixed point
    of trimming and of uppercasing; an absent, empty or blank tag gives
    the empty string, and no other does. *)
Theorem normalize_tag_canonical (x : option str) :
  normalize_tag (Some (normalize_tag x)) = normalize_tag x /\
  strip (normalize_tag x) = normalize_tag x /\
  upper (normalize_tag x) = normalize_tag x /\
  (normalize_tag x = [] <-> strip (or_empty x) = []).
Proof.
  split; [apply normalize_tag_idem|].
  split; [apply normalize_tag_strip|].
  split; [apply normalize_tag_upper|].
  unfold normalize_tag. apply upper_nil.
Qed.

(** X2.  The result of [normalize_status] has no whitespace at either
    end, is unchanged by uppercasing, and is the canonical tag with its
    runs of spaces squeezed; two inputs with the same canonical tag have
    the same canonical status. *)
Theorem normalize_status_shape (x : option str) :
  strip (normalize_status x) = normalize_status x /\
  upper (normalize_status x) = normalize_status x /\
  normalize_status x = normalize_status (Some (normalize_tag x)) /\
  (forall y, normalize_tag x = normalize_tag y ->
             normalize_status x = normalize_status y).
Proof.
  split; [apply normalize_status_strip|].
  split; [apply normalize_status_upper|].
  assert (Hn : forall z, normalize_status z = normalize_status (Some (normalize_tag z))).
  { intros z. rewrite !normalize_status_squeeze. cbn [or_empty].
    rewrite normalize_tag_strip, normalize_tag_upper. reflexivity. }
  split; [apply Hn|].
  intros y Hxy. rewrite (Hn x), (Hn y), Hxy. reflexivity.
Qed.

Lemma round_half_even_nonneg (q : Q) : (0 <= q)%Q -> 0 <= round_half_even q.
Proof.
  destruct q as [a b]. unfold Qle. cbn [Qnum Qden]. intros H.
  assert (Ha : 0 <= a) by lia.
  unfold round_half_even. cbn [Qnum Qden].
  pose proof (Z.div_pos a (Zpos b) Ha ltac:(lia)).
  destruct (2 * (a mod Zpos b) <? Zpos b); [lia|].
  destruct (Zpos b <? 2 * (a mod Zpos b)); [lia|].
  destruct (Z.even (a / Zpos b)); lia.
Qed.

Lemma format_currency_brl_by_cents (v : Q) :
  (0 <= v)%Q ->
  format_currency_brl (Some v) =
  format_currency_brl (Some (round_half_even (Qabs v * 100) # 100)).
Proof.
  intros Hv. set (c := round_half_even (Qabs v * 100)).
  assert (Hc : 0 <= c).
  { apply round_half_even_nonneg.
    apply Qmult_le_0_compat; [apply Qabs_nonneg | discriminate]. }
  unfold format_currency_brl, format_comma_2f. fold c.
  assert (Hr : round_half_even (Qabs (c # 100) * 100) = c).
  { apply round_half_even_int. rewrite Qabs_pos.
    - unfold Qeq, inject_Z. cbn. lia.
    - unfold Qle. cbn. lia. }
  rewrite Hr.
  assert (H1 : (Qnum v <? 0) = false)
    by (apply Z.ltb_ge; unfold Qle in Hv; cbn in Hv; lia).
  assert (H2 : (Qnum (c # 100) <? 0) = false) by (apply Z.ltb_ge; cbn; lia).
  rewrite H1, H2. reflexivity.
Qed.

Lemma format_parse_value (v : Q) :
  (0 <= v)%Q ->
  parse_brl_number (Some (format_currency_brl (Some v)))
  = Ok (Some (round_half_even (Qabs v * 100) # 100)).
Proof.
  intros Hv. rewrite (format_currency_brl_by_cents v Hv).
  apply format_parse_cents; [|reflexivity].
  pose proof (round_half_even_nonneg (Qabs v * 100)) as H.
  unfold Qle. cbn. rewrite Z.mul_1_r. apply H.
  apply Qmult_le_0_compat; [apply Qabs_nonneg | discriminate].
Qed.



Lemma replace_aux_skip (old new : str) (k : nat) : forall s,
  replace_aux old new k s = replace_aux old new 0 (skipn k s).
Proof.
  induction k as [|k IH]; intros s; [reflexivity|].
  destruct s as [|c t]; [reflexivity|]. cbn [replace_aux skipn]. apply IH.
Qed.

(** At an occurrence of [old], [replace] writes [new] and goes on after it. *)
Lemma replace_at_match (a : ascii) (r new s : str) :
  starts_with (a :: r) s = true ->
  replace (a :: r) new s =
  new ++ replace (a :: r) new (skipn (List.length (a :: r)) s).
Proof.
  intros H. unfold replace. destruct s as [|c t]; [discriminate|].
  cbn [replace_aux]. rewrite H. rewrite replace_aux_skip.
  cbn [List.length Nat.sub skipn]. rewrite Nat.sub_0_r. reflexivity.
Qed.

Lemma format_currency_brl_shape (v : Q) :
  (0 <= v)%Q ->
  exists D dx dy,
    forallb isdigit D = true /\ D <> [] /\
    isdigit dx = true /\ isdigit dy = true /\
    format_currency_brl (Some v) =
      map swap_sep (group3 D) ++ ","%char :: [dx; dy].
Proof.
  intros Hv. rewrite (format_currency_brl_by_cents v Hv).
  set (c := round_half_even (Qabs v * 100)).
  assert (Hc : 0 <= c).
  { apply round_half_even_nonneg.
    apply Qmult_le_0_compat; [apply Qabs_nonneg | discriminate]. }
  rewrite (format_currency_brl_cents (c # 100) c);
    [|unfold Qle; cbn; lia | reflexivity].
  destruct (dec_digits_spec (c / 100)) as (_ & HD & Hne);
    [apply Z.div_pos; lia|].
  pose proof (Z.mod_pos_bound c 100 ltac:(lia)) as H100.
  pose proof (Z.mod_pos_bound c 10 ltac:(lia)) as H10.
  assert (H1 : 0 <= c mod 100 / 10 < 10).
  { split; [apply Z.div_pos; lia | apply Z.div_lt_upper_bound; lia]. }
  exists (dec_digits (c / 100)), (digit_char (c mod 100 / 10)), (digit_char (c mod 10)).
  repeat split; try assumption; apply isdigit_char; assumption.
Qed.

Lemma formatted_chars (D : str) (dx dy c : ascii) :
  forallb isdigit D = true -> isdigit dx = true -> isdigit dy = true ->
  In c (map swap_sep (group3 D) ++ ","%char :: [dx; dy]) -> fmt_char c = true.
Proof.
  intros HD Hx Hy Hc. apply in_app_or in Hc. destruct Hc as [Hc|[<-|[<-|[<-|[]]]]].
  - apply in_map_iff in Hc. destruct Hc as [c' [<- Hc']].
    apply fmt_char_swap. exact (forallb_In _ _ _ (group3_fmt D HD) Hc').
  - reflexivity.
  - apply digit_facts, Hx.
  - apply digit_facts, Hy.
Qed.

Lemma parse_brl_number_texto (s : str) :
  strip s <> [] ->
  parse_brl_number (Some s) =
  match py_float (texto_valor_brl s) with
  | Ok v => Ok (Some v)
  | Raise _ => Ok None
  end.
Proof.
  intros H. cbn [parse_brl_number]. rewrite (proj2 (truthy_true _) H). cbn [negb].
  unfold texto_valor_brl.
  destruct (py_float _) as [v|e] eqn:E; [reflexivity|].
  apply py_float_exn in E. subst e. reflexivity.
Qed.

Lemma texto_valor_brl_prefix (F : str) :
  (forall c, In c F -> fmt_char c = true) -> F <> [] ->
  strip (prefixo_moeda ++ F) = prefixo_moeda ++ F /\
  strip F = F /\
  texto_valor_brl (prefixo_moeda ++ F) = texto_valor_brl F.
Proof.
  intros Hall Hne.
  assert (Hno : forall a, fmt_char a = false -> ~ In a F).
  { intros a Ha Hin. rewrite (Hall a Hin) in Ha. discriminate. }
  assert (HF : strip F = F).
  { apply strip_id, trimmed_all. intros c Hc. apply (fmt_char_facts c (Hall c Hc)). }
  assert (HP : strip (prefixo_moeda ++ F) = prefixo_moeda ++ F).
  { apply strip_id. split.
    - intros c t H. cbn in H. injection H as <- _. reflexivity.
    - intros l c H.
      destruct (rev F) as [|z r] eqn:Er.
      + apply (f_equal (@rev ascii)) in Er. rewrite rev_involutive in Er.
        cbn in Er. congruence.
      + apply rev_head_last in Er. rewrite Er, app_assoc in H.
        apply app_inj_tail in H. destruct H as [_ <-].
        apply (fmt_char_facts z). apply Hall. rewrite Er.
        apply in_or_app. right. left. reflexivity. }
  split; [exact HP|]. split; [exact HF|].
  unfold texto_valor_brl. rewrite HP, HF.
  (* the prefix is consumed by the two clean-up calls *)
  reflexivity.
Qed.

Lemma parse_brl_number_prefix_same (v : Q) :
  (0 <= v)%Q ->
  parse_brl_number (Some (prefixo_moeda ++ format_currency_brl (Some v)))
  = parse_brl_number (Some (format_currency_brl (Some v))).
Proof.
  intros Hv.
  destruct (format_currency_brl_shape v Hv) as (D & dx & dy & HD & Hne & Hx & Hy & HF).
  assert (Hall : forall c, In c (format_currency_brl (Some v)) -> fmt_char c = true).
  { rewrite HF. intros c. apply formatted_chars; assumption. }
  assert (HneF : format_currency_brl (Some v) <> []).
  { rewrite HF. intros H. apply app_eq_nil in H. destruct H; discriminate. }
  destruct (texto_valor_brl_prefix _ Hall HneF) as (HP & HS & HT).
  rewrite !parse_brl_number_texto.
  - rewrite HT. reflexivity.
  - rewrite HS. exact HneF.
  - rewrite HP. discriminate.
Qed.

(** X4.  The form's amount parser accepts the currency prefix: for every
    non-negative amount, the text "R$ " followed by the formatted amount
    is read as the same number as the formatted amount alone. *)
Theorem parse_brl_number_prefix (v : Q) :
  (0 <= v)%Q ->
  parse_brl_number (Some (prefixo_moeda ++ format_currency_brl (Some v)))
  = parse_brl_number (Some (format_currency_brl (Some v))) /\
  parse_brl_number (Some (prefixo_moeda ++ format_currency_brl (Some v)))
  = Ok (Some (round_half_even (Qabs v * 100) # 100)).
Proof.
  intros Hv. split; [apply parse_brl_number_prefix_same, Hv|].
  rewrite (parse_brl_number_prefix_same v Hv). apply format_parse_value, Hv.
Qed.

Lemma parse_brl_number_prefix_witness :
  (0 <= 460106 # 100)%Q /\
  parse_brl_number (Some (prefixo_moeda ++ format_currency_brl (Some (460106 # 100))))
  = parse_brl_number (Some (format_currency_brl (Some (460106 # 100)))).
Proof.
  split; [discriminate|].
  apply (parse_brl_number_prefix (460106 # 100)). discriminate.
Defined.

Lemma drop_while_snoc (p : ascii -> bool) (l : str) (c : ascii) :
  p c = false -> drop_while p (l ++ [c]) = drop_while p l ++ [c].
Proof.
  intros Hc. induction l as [|a l IH]; cbn [app drop_while].
  - rewrite Hc. reflexivity.
  - destruct (p a); [exact IH | reflexivity].
Qed.

(** [float] rejects a text that begins with a character that is
    neither whitespace, sign, digit, point nor underscore. *)
Lemma py_float_bad_head (c : ascii) (t : str) :
  float_isspace c = false -> isdigit c = false ->
  is_char "." c = false -> is_char "-" c = false -> is_char "+" c = false ->
  py_float (c :: t) = Raise ValueError.
Proof.
  intros Hws Hd Hp Hm Hpl. unfold py_float.
  cbn [drop_while]. rewrite Hws. cbn [rev].
  rewrite (drop_while_snoc _ _ _ Hws), rev_app_distr. cbn [rev app].
  set (t' := rev (drop_while float_isspace (rev t))).
  cbn [underscores_ok filter].
  destruct (is_char "_" c) eqn:Eu; [reflexivity|].
  destruct (negb (underscores_ok (Some c) t')); [reflexivity|].
  cbn [negb take_sign]. rewrite Hm, Hpl. cbn [span]. rewrite Hd, Hp. reflexivity.
Qed.

Lemma texto_valor_import_head (c : ascii) (t : str) :
  isspace c = false -> is_char "." c = false -> is_char "," c = false ->
  (forall l z, c :: t = l ++ [z] -> isspace z = false) ->
  exists t', texto_valor_import (c :: t) = c :: t'.
Proof.
  intros Hws Hp Hc Hlast. unfold texto_valor_import.
  rewrite strip_id.
  2:{ split; [intros c0 t0 H; injection H as <- _; exact Hws | exact Hlast]. }
  change (lit ".") with ["."%char]. change (lit ",") with [","%char].
  change (lit "") with (@nil ascii).
  rewrite replace_char_del, replace_char1. cbn [filter]. rewrite Hp. cbn [negb map].
  unfold subst_char at 1. unfold is_char in Hc.
  destruct (ascii_dec "," c); [discriminate|]. eexists. reflexivity.
Qed.

(** X5.  On text without the letter R and without inner spaces the two
    amount parsers read the same number, the import giving 0 where the
    form gives the absent value. *)
Theorem parse_valor_import_agrees (L : pylib) (s : str) :
  ~ In "R"%char (strip s) -> ~ In " "%char (strip s) ->
  parse_valor_import L (CStr s) =
  Ok (match parse_brl_number (Some s) with
      | Ok (Some v) => v
      | _ => 0%Q
      end).
Proof.
  intros HR Hsp. cbn [parse_valor_import parse_brl_number py_str].
  destruct (negb (truthy (strip s))); [reflexivity|].
  change (lit "R$") with ["R"%char; "$"%char]. change (lit " ") with [" "%char].
  change (lit "") with (@nil ascii).
  rewrite (replace_absent "R" ["$"%char] [] _ HR), (replace_absent " " [] [] _ Hsp).
  destruct (py_float _) as [v|e] eqn:E; [reflexivity|].
  apply py_float_exn in E. subst e. reflexivity.
Qed.

Lemma parse_valor_import_agrees_witness :
  parse_valor_import pylib_exemplo (CStr "1.234,56") = Ok (123456 # 100)%Q.
Proof.
  apply (parse_valor_import_agrees pylib_exemplo "1.234,56");
    vm_compute; intuition discriminate.
Defined.

(** X6.  A text cell that carries the currency prefix is not understood
    by the import: for every non-negative amount, "R$ " followed by the
    formatted amount is imported as 0, while the form reads the amount. *)
Theorem parse_valor_import_prefix_zero (L : pylib) (v : Q) :
  (0 <= v)%Q ->
  parse_valor_import L (CStr (prefixo_moeda ++ format_currency_brl (Some v))) = Ok 0%Q /\
  parse_brl_number (Some (prefixo_moeda ++ format_currency_brl (Some v)))
  = Ok (Some (round_half_even (Qabs v * 100) # 100)).
Proof.
  intros Hv.
  split; [|rewrite (parse_brl_number_prefix_same v Hv); apply format_parse_value, Hv].
  destruct (format_currency_brl_shape v Hv) as (D & dx & dy & HD & Hne & Hx & Hy & HF).
  destruct (texto_valor_import_head "R" ("$"%char :: " "%char :: format_currency_brl (Some v)))
    as [t' Ht]; try reflexivity.
  { intros l z H. rewrite HF in H.
    assert (E : "R"%char :: "$"%char :: " "%char
                  :: map swap_sep (group3 D) ++ [","%char; dx; dy]
                = ("R"%char :: "$"%char :: " "%char
                     :: map swap_sep (group3 D) ++ [","%char; dx]) ++ [dy])
      by (cbn [app]; rewrite <- app_assoc; reflexivity).
    rewrite E in H. apply app_inj_tail in H. destruct H as [_ <-].
    apply (fmt_char_facts dy), digit_facts, Hy. }
  apply (parse_valor_import_unparseable L _ ValueError).
  change (prefixo_moeda ++ format_currency_brl (Some v))
    with ("R"%char :: "$"%char :: " "%char :: format_currency_brl (Some v)).
  rewrite Ht. apply py_float_bad_head; reflexivity.
Qed.

Lemma parse_valor_import_prefix_zero_witness :
  (0 <= 460106 # 100)%Q /\
  parse_valor_import pylib_exemplo
    (CStr (prefixo_moeda ++ format_currency_brl (Some (460106 # 100)))) = Ok 0%Q.
Proof.
  split; [discriminate|].
  apply (parse_valor_import_prefix_zero pylib_exemplo (460106 # 100)). discriminate.
Defined.

(* ================================================================== *)
(** * Further properties of the dashboard and of the order list *)
(* ================================================================== *)

(** X7.  The WHERE clause of the dashboard selects a row exactly when
    every filter that is not blank holds: the requisition date read by
    [date()] is on or after the lower bound and on or before the upper
    bound, site and equipment are equal to the stored text (a NULL never
    is), and the canonical tag equals the canonical form of the filter.
    A date bound that [date()] cannot read selects no row. *)
Theorem dashboard_where_spec (sql_date : str -> option Z)
    (F : filtros_dashboard) (r : pedido) :
  (Sql.where_ok (dashboard_where sql_date F) r = true <->
   (f_data_inicio F = [] \/
    exists d d0, opt_bind (data_criacao_sc r) sql_date = Some d /\
                 sql_date (f_data_inicio F) = Some d0 /\ d0 <= d) /\
   (f_data_fim F = [] \/
    exists d d0, opt_bind (data_criacao_sc r) sql_date = Some d /\
                 sql_date (f_data_fim F) = Some d0 /\ d <= d0) /\
   (f_obra F = [] \/ obra r = Some (f_obra F)) /\
   (f_veiculo F = [] \/ nome_veiculo r = Some (f_veiculo F)) /\
   (f_tag F = [] \/ normalize_tag (tag r) = normalize_tag (Some (f_tag F)))) /\
  (f_data_inicio F <> [] -> sql_date (f_data_inicio F) = None ->
   Sql.where_ok (dashboard_where sql_date F) r = false) /\
  (f_data_fim F <> [] -> sql_date (f_data_fim F) = None ->
   Sql.where_ok (dashboard_where sql_date F) r = false).
Proof.
  pose proof (dashboard_where_iff sql_date F r) as Hiff.
  split; [exact Hiff|]. split.
  - intros Hne Hnone.
    destruct (Sql.where_ok (dashboard_where sql_date F) r) eqn:E; [|reflexivity].
    destruct (proj1 Hiff eq_refl) as ([H|(d & d0 & _ & H & _)] & _); congruence.
  - intros Hne Hnone.
    destruct (Sql.where_ok (dashboard_where sql_date F) r) eqn:E; [|reflexivity].
    destruct (proj1 Hiff eq_refl) as (_ & [H|(d & d0 & _ & H & _)] & _); congruence.
Qed.

(** X8.  The by-status breakdown of the dashboard: the groups come in
    ascending order of canonical status, no status twice; every group
    reports the number and the sum of exactly the rows of its canonical
    status and has at least one row; every row belongs to a group (a
    NULL or blank status to the group of the empty status). *)
Theorem por_status_breakdown (rows : list pedido) :
  Sorted (fun a b => str_leb (sr_status_pedido a) (sr_status_pedido b) = true)
         (por_status rows) /\
  NoDup (map sr_status_pedido (por_status rows)) /\
  (forall g, In g (por_status rows) ->
     sr_qtd g = Sql.count (com_status (sr_status_pedido g) rows) /\
     sr_valor_total g = Sql.sum_valor (com_status (sr_status_pedido g) rows) /\
     1 <= sr_qtd g) /\
  (forall r, In r rows ->
     exists g, In g (por_status rows) /\
               sr_status_pedido g = normalize_status (status_pedido r)) /\
  (forall r, In r rows -> strip (or_empty (status_pedido r)) = [] ->
     exists g, In g (por_status rows) /\ sr_status_pedido g = []).
Proof.
  rewrite por_status_eq.
  destruct (group_by_status_inv rows) as (_ & Hg & Hr).
  assert (Hcover : forall r, In r rows ->
            exists g, In g (rows_status rows) /\
                      sr_status_pedido g = normalize_status (status_pedido r)).
  { intros r Hin. apply Hr in Hin. apply in_map_iff in Hin.
    destruct Hin as [g [Hk Hin]]. exists g. split; [apply rows_status_In, Hin | exact Hk]. }
  split; [apply sort_by_sorted|]. split; [apply rows_status_NoDup|]. split; [|split].
  - intros g Hin. apply rows_status_In in Hin.
    destruct (Hg g Hin) as (Hq & Hv & Hne). split; [exact Hq|]. split; [exact Hv|].
    rewrite Hq. destruct (com_status (sr_status_pedido g) rows); [congruence|].
    cbn [List.length]. lia.
  - exact Hcover.
  - intros r Hin Hblank. destruct (Hcover r Hin) as [g [H1 H2]].
    exists g. split; [exact H1|]. rewrite H2, normalize_status_squeeze, Hblank.
    reflexivity.
Qed.

Lemma rep_id (s : str) :
  contains two_spaces s = false -> replace two_spaces one_space s = s.
Proof.
  induction s as [|c t IH]; [reflexivity|].
  rewrite contains_two_cons, rep_cons. intros H.
  apply orb_false_iff in H. destruct H as [Hh Ht].
  destruct t as [|d t']; [reflexivity|].
  rewrite Hh, (IH Ht). reflexivity.
Qed.

Lemma sql_trim_id (s : str) : trimmed isspace s -> Sql.TRIM (Some s) = Some s.
Proof.
  intros H. unfold Sql.TRIM. f_equal. apply trim_both_id.
  apply (trimmed_weaken isspace); [exact blank_isspace | exact H].
Qed.

Lemma sql_replace_two_spaces (s : str) :
  Sql.REPLACE (Some s) "  " " " = Some (replace two_spaces one_space s).
Proof. reflexivity. Qed.

(** On a stored status that is canonical the SQL expression of the
    order list is the identity. *)
Lemma sql_status_expr_canonical (r : pedido) (x : option str) :
  status_pedido r = Some (normalize_status x) ->
  sql_status_expr r = Some (normalize_status x).
Proof.
  intros H. unfold sql_status_expr. rewrite H.
  rewrite (sql_trim_id _ (normalize_status_trimmed x)).
  unfold Sql.UPPER. rewrite normalize_status_upper.
  rewrite !sql_replace_two_spaces, !(rep_id _ (normalize_status_no_double x)).
  reflexivity.
Qed.

Lemma normalize_status_of_strip (s : str) :
  normalize_status (Some (strip s)) = normalize_status (Some s).
Proof.
  rewrite !normalize_status_squeeze. cbn [or_empty]. rewrite strip_idem. reflexivity.
Qed.

(** X9.  In the order list a filter made only of blank values filters
    nothing: when every [tags] value is blank and [status] is blank or
    absent, every row is listed. *)
Theorem listar_pedidos_blank_filters (args : multidict) (db : store) :
  (forall t, In t (md_getlist "tags" args) -> strip t = []) ->
  get_strip "status" args = [] ->
  listar_pedidos args db = db.
Proof.
  intros Ht Hs. unfold listar_pedidos, listar_where, listar_tags, listar_status_norm.
  rewrite Hs.
  assert (Hf : filter (fun t => truthy (strip t)) (md_getlist "tags" args) = []).
  { induction (md_getlist "tags" args) as [|t l IH]; [reflexivity|].
    cbn [filter]. rewrite (Ht t (or_introl eq_refl)). cbn [truthy].
    apply IH. intros t' H'. apply Ht. right. exact H'. }
  rewrite Hf. apply select_nil_where.
Qed.

Lemma listar_pedidos_blank_filters_witness :
  listar_pedidos [(lit "tags", lit "  "); (lit "status", lit " ")]
    [pedido_exemplo 1 (Some (lit "EQ-01")) (Some (lit "PAGO")) None None None None]
  = [pedido_exemplo 1 (Some (lit "EQ-01")) (Some (lit "PAGO")) None None None None].
Proof.
  apply (listar_pedidos_blank_filters
           [(lit "tags", lit "  "); (lit "status", lit " ")]
           [pedido_exemplo 1 (Some (lit "EQ-01")) (Some (lit "PAGO")) None None None None]).
  - intros t [<-|[]]. reflexivity.
  - reflexivity.
Defined.

(** X10.  An order created through the form is found again by the order
    list under any spelling of its tag and status: when the form is
    accepted and the query's tag and status have the same canonical
    forms as the ones typed in the form, the new row is listed. *)
Theorem novo_pedido_then_listar (agora : str) (req : http_request) (db : store)
    (tq sq : str) :
  usuario_id_in_session req = true ->
  method req = lit "POST" ->
  normalize_tag (md_get "tag" (form req)) <> [] ->
  get_strip "descricao_itens" (form req) <> [] ->
  normalize_tag (Some tq) = normalize_tag (md_get "tag" (form req)) ->
  normalize_status (Some sq) = normalize_status (md_get "status_pedido" (form req)) ->
  exists row,
    db_after (novo_pedido agora req db) = db ++ [row] /\
    In row (listar_pedidos [(lit "tags", tq); (lit "status", sq)]
              (db_after (novo_pedido agora req db))).
Proof.
  intros Hs Hm Htag Hdesc Htq Hsq.
  unfold novo_pedido. rewrite Hs, Hm. cbn [negb].
  change (str_eqb (lit "POST") (lit "POST")) with true. cbn iota.
  destruct (parse_brl_number_total (md_get "valor_pedido" (form req))) as [v Hv].
  rewrite Hv, (proj2 (truthy_true _) Htag), (proj2 (truthy_true _) Hdesc).
  cbn [negb orb db_after]. eexists. split; [reflexivity|].
  unfold listar_pedidos, Sql.select. apply filter_In. split.
  - apply in_or_app. right. left. reflexivity.
  - unfold listar_where, listar_tags, listar_status_norm, get_strip.
    change (md_getlist "tags" [(lit "tags", tq); (lit "status", sq)]) with [tq].
    change (md_get "status" [(lit "tags", tq); (lit "status", sq)]) with (Some sq).
    cbn [or_empty filter].
    assert (Hne : strip tq <> []).
    { intros H. apply Htag. rewrite <- Htq. unfold normalize_tag. cbn [or_empty].
      rewrite H. reflexivity. }
    rewrite (proj2 (truthy_true _) Hne). cbn [map].
    rewrite normalize_status_of_strip, Htq, Hsq, where_ok_app.
    apply andb_true_iff. split.
    + unfold Sql.where_ok. cbn [forallb tag]. rewrite andb_true_r.
      rewrite (sql_trim_id _ (normalize_tag_trimmed _)).
      unfold Sql.UPPER, Sql.in_params.
      rewrite normalize_tag_upper.
      cbn [existsb Sql.is_true]. rewrite str_eqb_refl. reflexivity.
    + rewrite where_ok_if. apply orb_true_iff.
      destruct (truthy (normalize_status (md_get "status_pedido" (form req))));
        [right | left; reflexivity].
      rewrite (sql_status_expr_canonical _ (md_get "status_pedido" (form req)))
        by reflexivity.
      cbn [Sql.eq_param Sql.is_true]. rewrite str_eqb_refl. reflexivity.
Qed.

Lemma novo_pedido_then_listar_witness :
  let req := {| method := lit "POST";
                form := [(lit "tag", lit " eq-01 ");
                         (lit "descricao_itens", lit "filtro");
                         (lit "status_pedido", lit "em   aberto")];
                usuario_id_in_session := true |} in
  exists row,
    db_after (novo_pedido "2024-01-02 00:00:00" req []) = [] ++ [row] /\
    In row (listar_pedidos [(lit "tags", lit "EQ-01"); (lit "status", lit " Em Aberto ")]
              (db_after (novo_pedido "2024-01-02 00:00:00" req []))).
Proof.
  cbn zeta.
  apply (novo_pedido_then_listar "2024-01-02 00:00:00"
           {| method := lit "POST";
              form := [(lit "tag", lit " eq-01 ");
                       (lit "descricao_itens", lit "filtro");
                       (lit "status_pedido", lit "em   aberto")];
              usuario_id_in_session := true |} [] "EQ-01" " Em Aberto ");
    vm_compute; (reflexivity || discriminate).
Defined.

Lemma fold_max_ge (db : store) : forall m,
  m <= fold_left (fun m r => Z.max m (id r)) db m /\
  forall r, In r db -> id r <= fold_left (fun m r => Z.max m (id r)) db m.
Proof.
  induction db as [|a t IH]; intros m; cbn [fold_left].
  - split; [lia | intros r []].
  - destruct (IH (Z.max m (id a))) as [H1 H2]. split; [lia|].
    intros r [<-|Hin]; [lia | apply H2, Hin].
Qed.

Lemma next_id_fresh (db : store) (r : pedido) : In r db -> id r < next_id db.
Proof.
  intros H. unfold next_id. pose proof (proj2 (fold_max_ge db 0) r H). lia.
Qed.

Lemma ids_snoc_NoDup (db : store) (row : pedido) :
  NoDup (map id db) -> id row = next_id db -> NoDup (map id (db ++ [row])).
Proof.
  intros Hnd Hid. rewrite map_app. cbn [map].
  apply (Permutation_NoDup (Permutation_cons_append _ _)).
  constructor; [|exact Hnd]. intros Hin. apply in_map_iff in Hin.
  destruct Hin as [r [Hr Hin]]. pose proof (next_id_fresh db r Hin). lia.
Qed.

(** X11.  The entry form writes nothing unless a logged-in user posts
    it: without a session the view redirects to the login, and on any
    other method it shows the form; in both cases the table is unchanged
    and nothing is flashed. *)
Theorem novo_pedido_no_write (agora : str) (req : http_request) (db : store) :
  usuario_id_in_session req = false \/ method req <> lit "POST" ->
  db_after (novo_pedido agora req db) = db /\
  flashed (novo_pedido agora req db) = [] /\
  resp (novo_pedido agora req db) =
    if usuario_id_in_session req
    then RenderTemplate "pedidos_form.html"
    else Redirect "login".
Proof.
  intros H. unfold novo_pedido.
  destruct (usuario_id_in_session req); cbn [negb]; [|repeat split].
  destruct H as [H|H]; [discriminate|].
  apply str_eqb_neq in H. rewrite H. repeat split.
Qed.

Lemma novo_pedido_no_write_witness :
  db_after (novo_pedido "2024-01-02 00:00:00"
              {| method := lit "POST";
                 form := [(lit "tag", lit "EQ-01"); (lit "descricao_itens", lit "filtro")];
                 usuario_id_in_session := false |} []) = [].
Proof.
  apply (novo_pedido_no_write "2024-01-02 00:00:00"
           {| method := lit "POST";
              form := [(lit "tag", lit "EQ-01"); (lit "descricao_itens", lit "filtro")];
              usuario_id_in_session := false |} []).
  left. reflexivity.
Defined.

(** X12.  Both ways of adding an order keep the ids unique: the new id
    is larger than every id in the table, so a table without repeated
    ids has none after [novo_pedido] and none after a step of the
    import. *)
Theorem inserts_keep_ids_unique (db : store) :
  NoDup (map id db) ->
  (forall r, In r db -> id r < next_id db) /\
  (forall agora req, NoDup (map id (db_after (novo_pedido agora req db)))) /\
  (forall L agora st cols st',
     st_db st = db -> importar_linha L agora st cols = Ok st' ->
     NoDup (map id (st_db st'))).
Proof.
  intros Hnd. split; [apply next_id_fresh|]. split.
  - intros agora req. unfold novo_pedido.
    destruct (negb (usuario_id_in_session req)); cbn [db_after]; [exact Hnd|].
    destruct (str_eqb (method req) "POST"); cbn [db_after]; [|exact Hnd].
    destruct (parse_brl_number _); cbn [db_after]; [|exact Hnd].
    destruct (negb (truthy _) || negb (truthy _)); cbn [db_after]; [exact Hnd|].
    apply ids_snoc_NoDup; [exact Hnd | reflexivity].
  - intros L agora st cols st' Hdb. unfold importar_linha.
    destruct (negb (existsb cell_truthy (firstn 16 cols))).
    { intros H. injection H as <-. rewrite Hdb. exact Hnd. }
    destruct (parse_valor_import L (col cols 10 CNone)); [|discriminate].
    destruct (ja_existe_pedido _ _ _); intros H; injection H as <-; cbn [st_db];
      rewrite Hdb; [exact Hnd|].
    apply ids_snoc_NoDup; [exact Hnd | reflexivity].
Qed.

Lemma inserts_keep_ids_unique_witness :
  let db := [pedido_exemplo 7 None None None None None None;
             pedido_exemplo 3 None None None None None None] in
  NoDup (map id db) /\
  forall agora req, NoDup (map id (db_after (novo_pedido agora req db))).
Proof.
  cbn zeta.
  assert (H : NoDup (map id [pedido_exemplo 7 None None None None None None;
                             pedido_exemplo 3 None None None None None None])).
  { cbn. constructor; [intros [H|[]]; discriminate|].
    constructor; [intros []|constructor]. }
  split; [exact H|].
  apply (inserts_keep_ids_unique _ H).
Defined.

(* ================================================================== *)
(** * Further properties of the reports *)
(* ================================================================== *)

Section GroupFold.

Context {R V : Type}.
Variable key : R -> str.
Variable step : R -> option V -> V.
Variable summary : list R -> V.

Hypothesis summary_one : forall r, summary [r] = step r None.
Hypothesis summary_snoc :
  forall l r, l <> [] -> summary (l ++ [r]) = step r (Some (summary l)).

Lemma upd_keys (k : str) (f : option V -> V) (d : list (str * V)) :
  map fst (upd k f d) =
  if existsb (str_eqb k) (map fst d) then map fst d else map fst d ++ [k].
Proof.
  induction d as [|[k' v] t IH]; [reflexivity|].
  cbn [upd map existsb fst].
  destruct (str_eqb k k'); cbn [orb map fst]; [reflexivity|].
  rewrite IH. destruct (existsb (str_eqb k) (map fst t)); reflexivity.
Qed.

Lemma upd_NoDup (k : str) (f : option V -> V) (d : list (str * V)) :
  NoDup (map fst d) -> NoDup (map fst (upd k f d)).
Proof.
  intros H. rewrite upd_keys.
  destruct (existsb (str_eqb k) (map fst d)) eqn:E; [exact H|].
  apply (Permutation_NoDup (Permutation_cons_append _ k)).
  constructor; [|exact H].
  intros Hin. apply existsb_str_In in Hin. congruence.
Qed.

Lemma upd_In (k k' : str) (v' : V) (f : option V -> V) (d : list (str * V)) :
  NoDup (map fst d) -> In (k', v') (upd k f d) ->
  (k' <> k /\ In (k', v') d)
  \/ (k' = k /\ exists v, In (k, v) d /\ v' = f (Some v))
  \/ (k' = k /\ v' = f None /\ ~ In k (map fst d)).
Proof.
  induction d as [|[k0 v0] t IH]; intros Hnd Hin.
  - cbn in Hin. destruct Hin as [H|[]]. injection H as <- <-.
    right. right. repeat split. intros [].
  - cbn [upd] in Hin. cbn [map fst] in Hnd.
    apply NoDup_cons_iff in Hnd. destruct Hnd as [Hnotin Hnd].
    destruct (str_eqb k k0) eqn:E.
    + apply str_eqb_eq in E. subst k0. destruct Hin as [H|Hin].
      * injection H as <- <-. right. left. split; [reflexivity|].
        exists v0. split; [left; reflexivity | reflexivity].
      * left. split; [|right; exact Hin].
        intros ->. apply Hnotin. apply (in_map fst _ _ Hin).
    + apply str_eqb_neq in E. destruct Hin as [H|Hin].
      * injection H as <- <-. left. split; [congruence | left; reflexivity].
      * destruct (IH Hnd Hin) as [[H1 H2]|[[H1 [v [H2 H3]]]|[H1 [H2 H3]]]].
        -- left. split; [exact H1 | right; exact H2].
        -- right. left. split; [exact H1|]. exists v. split; [right; exact H2 | exact H3].
        -- right. right. repeat split; try assumption.
           cbn [map fst]. intros [Hk|Hk]; [congruence | exact (H3 Hk)].
Qed.

Lemma with_key_snoc (k : str) (rows : list R) (r : R) :
  with_key key k (rows ++ [r]) =
  with_key key k rows ++ (if str_eqb (key r) k then [r] else []).
Proof. unfold with_key. rewrite filter_app. reflexivity. Qed.

Lemma with_key_nil (k : str) (rows : list R) :
  (forall r, In r rows -> key r <> k) -> with_key key k rows = [].
Proof.
  intros H. unfold with_key. induction rows as [|r t IH]; [reflexivity|].
  cbn [filter]. destruct (str_eqb (key r) k) eqn:E.
  - apply str_eqb_eq in E. exfalso. exact (H r (or_introl eq_refl) E).
  - apply IH. intros r' Hr'. apply H. right. exact Hr'.
Qed.

(** Folding [upd] over the rows builds one entry per key, in order of
    first appearance, holding the summary of the rows of that key. *)
Lemma group_fold_inv (rows : list R) :
  NoDup (map fst (group_fold key step rows)) /\
  (forall k v, In (k, v) (group_fold key step rows) ->
     v = summary (with_key key k rows) /\ with_key key k rows <> []) /\
  (forall r, In r rows -> In (key r) (map fst (group_fold key step rows))).
Proof.
  induction rows as [|r rows IH] using rev_ind.
  - split; [constructor|]. split; [intros k v []|intros r []].
  - destruct IH as (Hnd & Hg & Hr).
    unfold group_fold in *. rewrite fold_left_app. cbn [fold_left].
    set (d := fold_left (fun d r => upd (key r) (step r) d) rows []) in *.
    split; [apply upd_NoDup, Hnd|]. split.
    + intros k v Hin. rewrite with_key_snoc.
      destruct (upd_In _ _ _ _ _ Hnd Hin)
        as [[H1 H2]|[[-> [v0 [H2 ->]]]|[-> [-> H3]]]].
      * assert (E : str_eqb (key r) k = false) by (apply str_eqb_neq; congruence).
        rewrite E, app_nil_r. apply Hg, H2.
      * rewrite str_eqb_refl. destruct (Hg _ _ H2) as [Hv Hne].
        split.
        -- rewrite (summary_snoc _ _ Hne), <- Hv. reflexivity.
        -- intros Habs. apply app_eq_nil in Habs. destruct Habs; discriminate.
      * rewrite str_eqb_refl, with_key_nil.
        -- cbn [app]. split; [symmetry; apply summary_one | discriminate].
        -- intros r' Hr' Hk. apply H3. rewrite <- Hk. apply Hr, Hr'.
    + intros r' Hin. rewrite upd_keys. apply in_app_or in Hin.
      destruct (existsb (str_eqb (key r)) (map fst d)) eqn:E.
      * destruct Hin as [Hin|[<-|[]]]; [apply Hr, Hin|].
        apply existsb_str_In. exact E.
      * apply in_or_app. destruct Hin as [Hin|[<-|[]]];
          [left; apply Hr, Hin | right; left; reflexivity].
Qed.

End GroupFold.

Lemma agrupa_step_upd (d : dict) (t : Q) (r : pedido) :
  fst (agrupa_step (d, t) r) = upd (chave_tag r) (passo_grupo r) d.
Proof.
  unfold agrupa_step. cbn [fst]. set (k := chave_tag r).
  induction d as [|[k' g] rest IH].
  - cbn [dict_mem negb app dict_adjust upd]. rewrite str_eqb_refl. reflexivity.
  - cbn [dict_mem upd]. destruct (str_eqb k k') eqn:E; cbn [orb negb].
    + cbn [dict_adjust]. rewrite E. reflexivity.
    + rewrite <- IH. destruct (dict_mem k rest); cbn [negb app dict_adjust];
        rewrite E; reflexivity.
Qed.

Lemma agrupa_fold_upd (rows : list pedido) : forall d t,
  fst (fold_left agrupa_step rows (d, t)) =
  fold_left (fun d r => upd (chave_tag r) (passo_grupo r) d) rows d.
Proof.
  induction rows as [|r rows IH]; intros d t; [reflexivity|].
  cbn [fold_left].
  destruct (agrupa_step (d, t) r) as [d1 t1] eqn:E.
  rewrite IH. f_equal.
  change d1 with (fst (d1, t1)). rewrite <- E. apply agrupa_step_upd.
Qed.

Lemma agrupa_por_tag_group_fold (rows : list pedido) :
  fst (agrupa_por_tag rows) = group_fold chave_tag passo_grupo rows.
Proof. apply agrupa_fold_upd. Qed.

Lemma grupo_das_linhas_snoc (l : list pedido) (r : pedido) :
  l <> [] ->
  grupo_das_linhas (l ++ [r]) = passo_grupo r (Some (grupo_das_linhas l)).
Proof.
  intros H. unfold grupo_das_linhas, passo_grupo.
  cbn [g_nome_veiculo g_pedidos g_total]. rewrite soma_valores_snoc.
  destruct l; [congruence | reflexivity].
Qed.

(** X13.  What the PDF by equipment prints: the groups in ascending
    order of their key, no key twice, a rearrangement of the groups
    built; the grand total is the sum, in row order, of the values of
    all rows whatever their tag, an absent value counting 0, and each
    further row adds its value to it. *)
Theorem relatorio_equipamentos_impresso (rows : list pedido) :
  let grupos := fst (agrupa_por_tag rows) in
  let total_geral := snd (agrupa_por_tag rows) in
  Sorted (fun a b => str_leb (fst a) (fst b) = true) (sorted_items grupos) /\
  NoDup (map fst (sorted_items grupos)) /\
  Permutation grupos (sorted_items grupos) /\
  total_geral = soma_valores rows /\
  (forall r, snd (agrupa_por_tag (rows ++ [r]))
             = (total_geral + valor_ou_zero r)%Q).
Proof.
  cbn zeta.
  pose proof (sort_by_perm (@fst str grupo) (fst (agrupa_por_tag rows))) as Hp.
  split; [apply sort_by_sorted|]. split; [|split; [exact Hp|split]].
  - eapply Permutation_NoDup; [apply Permutation_map, Hp|].
    rewrite agrupa_por_tag_group_fold.
    apply (group_fold_inv chave_tag passo_grupo grupo_das_linhas
             (fun r => eq_refl) grupo_das_linhas_snoc rows).
  - apply agrupa_por_tag_totais.
  - intros r. rewrite agrupa_por_tag_snoc.
    destruct (agrupa_por_tag rows) as [d t]. reflexivity.
Qed.

(** X14.  The groups of the report by equipment: no key twice; the
    group of a key holds exactly the rows of that key (the trimmed tag,
    SEM TAG for a NULL or empty one) in the order they came, at least
    one, with the equipment name of the first of them and the sum of
    their values; every row is in the group of its key; sorting for the
    PDF loses and adds no group. *)
Theorem agrupa_por_tag_groups (rows : list pedido) :
  let grupos := fst (agrupa_por_tag rows) in
  NoDup (map fst grupos) /\
  (forall k g, In (k, g) grupos ->
     g = grupo_das_linhas (with_key chave_tag k rows) /\
     with_key chave_tag k rows <> []) /\
  (forall r, In r rows ->
     In (chave_tag r, grupo_das_linhas (with_key chave_tag (chave_tag r) rows)) grupos) /\
  (forall kg, In kg (sorted_items grupos) <-> In kg grupos).
Proof.
  cbn zeta. rewrite agrupa_por_tag_group_fold.
  destruct (group_fold_inv chave_tag passo_grupo grupo_das_linhas
              (fun r => eq_refl) grupo_das_linhas_snoc rows) as (Hnd & Hg & Hr).
  split; [exact Hnd|]. split; [exact Hg|]. split.
  - intros r Hin. apply Hr in Hin. apply in_map_iff in Hin.
    destruct Hin as [[k g] [Hk Hin]]. cbn [fst] in Hk. subst k.
    destruct (Hg _ _ Hin) as [-> _]. exact Hin.
  - intros kg. unfold sorted_items. split; intros H.
    + eapply Permutation_in; [apply Permutation_sym, sort_by_perm | exact H].
    + eapply Permutation_in; [apply sort_by_perm | exact H].
Qed.

Lemma totais_step_upd (d : list (str * Q)) (r : pedido) :
  totais_set (rotulo_status r)
    (totais_get (rotulo_status r) d 0 + valor_ou_zero r)%Q d
  = upd (rotulo_status r) (passo_total r) d.
Proof.
  set (k := rotulo_status r).
  induction d as [|[k' x] rest IH]; [reflexivity|].
  cbn [totais_set totais_get upd]. destruct (str_eqb k k'); [reflexivity|].
  rewrite IH. reflexivity.
Qed.

Lemma totais_fold_upd (rows : list pedido) : forall t d,
  fold_left totais_step rows (t, d) =
  (fold_left (fun acc r => (acc + valor_ou_zero r)%Q) rows t,
   fold_left (fun d r => upd (rotulo_status r) (passo_total r) d) rows d).
Proof.
  induction rows as [|r rows IH]; intros t d; [reflexivity|].
  cbn [fold_left]. unfold totais_step at 2. rewrite totais_step_upd. apply IH.
Qed.

Lemma rotulo_status_nonempty (r : pedido) : rotulo_status r <> [].
Proof.
  unfold rotulo_status.
  destruct (truthy (normalize_status (status_pedido r))) eqn:E.
  - apply truthy_true. exact E.
  - discriminate.
Qed.

(** X15.  The summary by status of the general report: the grand total
    is the sum, in row order, of the values of all rows; the summary is
    in ascending order of status, no status twice and none empty; each
    total is the sum, in row order, of the values of exactly the rows of
    that canonical status; a row whose status is NULL, empty or only
    whitespace is counted under SEM STATUS. *)
Theorem relatorios_pdf_totais_spec (rows : list pedido) :
  fst (relatorios_pdf_totais rows) = soma_valores rows /\
  Sorted (fun a b => str_leb (fst a) (fst b) = true) (resumo_por_status rows) /\
  NoDup (map fst (resumo_por_status rows)) /\
  (forall k x, In (k, x) (resumo_por_status rows) ->
     x = soma_valores (with_key rotulo_status k rows) /\ k <> []) /\
  (forall r, In r rows -> strip (or_empty (status_pedido r)) = [] ->
     In (sem_status, soma_valores (with_key rotulo_status sem_status rows))
        (resumo_por_status rows)).
Proof.
  unfold resumo_por_status, relatorios_pdf_totais.
  rewrite totais_fold_upd. cbn [fst snd].
  fold (group_fold rotulo_status passo_total rows).
  destruct (group_fold_inv rotulo_status passo_total soma_valores
              (fun r => eq_refl) (fun l r _ => soma_valores_snoc l r) rows)
    as (Hnd & Hg & Hr).
  pose proof (sort_by_perm (@fst str Q) (group_fold rotulo_status passo_total rows)) as Hp.
  split; [reflexivity|]. split; [apply sort_by_sorted|split; [|split]].
  - eapply Permutation_NoDup; [apply Permutation_map, Hp | exact Hnd].
  - intros k x Hin.
    apply (Permutation_in _ (Permutation_sym Hp)) in Hin.
    destruct (Hg k x Hin) as [Hx Hne]. split; [exact Hx|].
    destruct (with_key rotulo_status k rows) as [|r0 t] eqn:E; [congruence|].
    assert (Hin0 : In r0 (with_key rotulo_status k rows)) by (rewrite E; left; reflexivity).
    unfold with_key in Hin0. apply filter_In in Hin0. destruct Hin0 as [_ H0].
    apply str_eqb_eq in H0. rewrite <- H0. apply rotulo_status_nonempty.
  - intros r Hin Hblank.
    assert (Hk : rotulo_status r = sem_status).
    { unfold rotulo_status. rewrite normalize_status_squeeze, Hblank. reflexivity. }
    apply Hr in Hin. apply in_map_iff in Hin.
    destruct Hin as [[k x] [Hk' Hin]]. cbn [fst] in Hk'. rewrite Hk in Hk'. subst k.
    destruct (Hg _ _ Hin) as [-> _].
    apply (Permutation_in _ Hp). exact Hin.
Qed.

(* ================================================================== *)
(** * Further properties of the import *)
(* ================================================================== *)

Lemma par_duplicado_pares (db : store) (pc sc : str) :
  par_duplicado db pc sc <-> (pc <> [] \/ sc <> []) /\ In (pc, sc) (pares db).
Proof.
  unfold par_duplicado, pares. split; intros [Hne H]; (split; [exact Hne|]).
  - destruct H as [r [Hin [H1 H2]]]. apply in_flat_map. exists r. split; [exact Hin|].
    unfold chave_par. rewrite H1, H2.
    assert (E : truthy pc || truthy sc = true).
    { destruct Hne as [Hn|Hn]; apply truthy_true in Hn; rewrite Hn;
        [reflexivity | apply orb_true_r]. }
    rewrite E. left. reflexivity.
  - apply in_flat_map in H. destruct H as [r [Hin Hk]]. exists r. split; [exact Hin|].
    unfold chave_par in Hk.
    destruct (numero_pc r) as [p|]; [|destruct Hk].
    destruct (numero_sc r) as [s|]; [|destruct Hk].
    destruct (truthy p || truthy s); [|destruct Hk].
    destruct Hk as [Hk|[]]. injection Hk as -> ->. split; reflexivity.
Qed.

Lemma par_duplicado_mono (db extra : store) (pc sc : str) :
  par_duplicado db pc sc -> par_duplicado (db ++ extra) pc sc.
Proof.
  intros [Hne [r [Hin H]]]. split; [exact Hne|].
  exists r. split; [apply in_or_app; left; exact Hin | exact H].
Qed.

Lemma tem_numero_spec (L : pylib) (cols : list cell) :
  tem_numero L cols = true <->
  (numero_pc_linha L cols <> [] \/ numero_sc_linha L cols <> []).
Proof.
  unfold tem_numero. rewrite orb_true_iff, !truthy_true. reflexivity.
Qed.

(** One step of the import, by cases. *)
Lemma importar_linha_step (L : pylib) (agora : datetime) (st : import_state)
    (cols : list cell) :
  cell_in_range (col cols 10 CNone) ->
  exists valor,
    parse_valor_import L (col cols 10 CNone) = Ok valor /\
    importar_linha L agora st cols =
    Ok (if negb (tem_dados cols) then st
        else if ja_existe_pedido (st_db st) (numero_pc_linha L cols) (numero_sc_linha L cols)
        then {| st_db := st_db st; inseridos := inseridos st; pulados := pulados st + 1 |}
        else {| st_db := st_db st ++ [linha_importada L agora (st_db st) cols valor];
                inseridos := inseridos st + 1; pulados := pulados st |}).
Proof.
  intros Hc. destruct (parse_valor_import_total L _ Hc) as [valor Hv].
  exists valor. split; [exact Hv|].
  unfold importar_linha, tem_dados, numero_pc_linha, numero_sc_linha.
  destruct (negb (existsb cell_truthy (firstn 16 cols))); [reflexivity|].
  rewrite Hv. destruct (ja_existe_pedido _ _ _); reflexivity.
Qed.

Lemma importar_linhas_accounts (L : pylib) (relogio : nat -> datetime)
    (rows : list (list cell)) : forall k st st',
  importar_linhas L relogio k st rows = Ok st' ->
  exists novos,
    st_db st' = st_db st ++ novos /\
    inseridos st' = inseridos st + Z.of_nat (List.length novos) /\
    inseridos st' + pulados st' =
      inseridos st + pulados st + Z.of_nat (List.length (filter tem_dados rows)) /\
    pulados st <= pulados st' /\
    (List.length novos <= List.length (filter tem_dados rows))%nat.
Proof.
  induction rows as [|cols rest IH]; intros k st st'; cbn [importar_linhas filter].
  - intros H. injection H as <-. exists []. cbn [List.length].
    rewrite app_nil_r. repeat split; lia.
  - destruct (importar_linha L (relogio k) st cols) as [st1|] eqn:E; [|discriminate].
    intros Hrun. destruct (IH _ _ _ Hrun) as (novos & Hdb & Hins & Hsum & Hpul & Hlen).
    unfold importar_linha in E. fold (tem_dados cols) in E.
    destruct (tem_dados cols); cbn [negb] in E.
    + destruct (parse_valor_import L (col cols 10 CNone)) as [valor|]; [|discriminate].
      destruct (ja_existe_pedido _ _ _); injection E as <-;
        cbn [st_db inseridos pulados] in *.
      * exists novos. cbn [List.length]. repeat split; try assumption; lia.
      * eexists (_ :: novos). rewrite Hdb, <- app_assoc. cbn [app List.length].
        repeat split; lia.
    + injection E as <-. exists novos. repeat split; assumption.
Qed.

(** X16.  A run of the import that ends without an exception accounts
    for every sheet row: the table is the old table followed by the
    inserted rows, as many as the inserted count says; inserted plus
    skipped is the number of sheet rows that carry data, the others
    being ignored; no row of the old table is changed or removed. *)
Theorem importar_accounts (L : pylib) (relogio : nat -> datetime) (db : store)
    (rows : list (list cell)) (st' : import_state) :
  importar L relogio db rows = Ok st' ->
  exists novos,
    st_db st' = db ++ novos /\
    inseridos st' = Z.of_nat (List.length novos) /\
    inseridos st' + pulados st' = Z.of_nat (List.length (filter tem_dados rows)) /\
    0 <= pulados st' /\
    (List.length novos <= List.length (filter tem_dados rows))%nat.
Proof.
  unfold importar. intros Hrun.
  destruct (importar_linhas_accounts L relogio rows 0 _ _ Hrun)
    as (novos & H1 & H2 & H3 & H4 & H5).
  exists novos. cbn [st_db inseridos pulados] in *.
  repeat split; try assumption; lia.
Qed.

Lemma importar_accounts_witness :
  exists st' novos,
    importar pylib_exemplo (fun _ => meia_noite) []
      [linha_planilha (CStr "SC1") (CStr "PC1"); [];
       linha_planilha (CStr "SC1") (CStr "PC1")] = Ok st' /\
    st_db st' = [] ++ novos /\
    inseridos st' = Z.of_nat (List.length novos) /\
    inseridos st' + pulados st' = 2.
Proof.
  eexists.
  destruct (importar_accounts pylib_exemplo (fun _ => meia_noite) []
              [linha_planilha (CStr "SC1") (CStr "PC1"); [];
               linha_planilha (CStr "SC1") (CStr "PC1")] _ eq_refl)
    as (novos & H1 & H2 & H3 & _).
  exists novos. split; [reflexivity|]. split; [exact H1|]. split; [exact H2|exact H3].
Defined.

Lemma pares_snoc (db : store) (r : pedido) :
  pares (db ++ [r]) = pares db ++ chave_par r.
Proof. unfold pares. rewrite flat_map_app. cbn [flat_map]. rewrite app_nil_r. reflexivity. Qed.

Lemma chave_par_importada (L : pylib) (agora : datetime) (db : store)
    (cols : list cell) (valor : Q) :
  chave_par (linha_importada L agora db cols valor) =
  if tem_numero L cols
  then [(numero_pc_linha L cols, numero_sc_linha L cols)]
  else [].
Proof. reflexivity. Qed.

Lemma importar_linha_pares (L : pylib) (agora : datetime) (st st' : import_state)
    (cols : list cell) :
  NoDup (pares (st_db st)) ->
  importar_linha L agora st cols = Ok st' ->
  NoDup (pares (st_db st')).
Proof.
  intros Hnd. unfold importar_linha.
  destruct (negb (existsb cell_truthy (firstn 16 cols))).
  { intros H. injection H as <-. exact Hnd. }
  destruct (parse_valor_import L (col cols 10 CNone)) as [valor|]; [|discriminate].
  destruct (ja_existe_pedido _ _ _) eqn:E; intros H; injection H as <-; cbn [st_db];
    [exact Hnd|].
  rewrite pares_snoc, chave_par_importada.
  destruct (tem_numero L cols) eqn:En; [|rewrite app_nil_r; exact Hnd].
  apply (Permutation_NoDup (Permutation_cons_append _ _)).
  constructor; [|exact Hnd]. intros Hin.
  apply ja_existe_pedido_false in E. apply E.
  apply par_duplicado_pares. split; [apply tem_numero_spec, En | exact Hin].
Qed.

(** X17.  The import creates no duplicate: if no (PO, requisition) pair
    with a non-empty member occurs twice in the table before a run, none
    occurs twice after it, whatever the sheet repeats. *)
Theorem importar_no_new_duplicates (L : pylib) (relogio : nat -> datetime)
    (db : store) (rows : list (list cell)) (st' : import_state) :
  NoDup (pares db) ->
  importar L relogio db rows = Ok st' ->
  NoDup (pares (st_db st')).
Proof.
  unfold importar.
  change db with (st_db {| st_db := db; inseridos := 0; pulados := 0 |}) at 1.
  generalize {| st_db := db; inseridos := 0; pulados := 0 |}. generalize 0%nat.
  induction rows as [|cols rest IH]; intros k st Hnd; cbn [importar_linhas].
  - intros H. injection H as <-. exact Hnd.
  - destruct (importar_linha L (relogio k) st cols) as [st1|] eqn:E; [|discriminate].
    apply IH. exact (importar_linha_pares _ _ _ _ _ Hnd E).
Qed.

Lemma importar_no_new_duplicates_witness :
  exists st',
    importar pylib_exemplo (fun _ => meia_noite)
      [pedido_exemplo 1 None None (Some (lit "PC1")) (Some (lit "SC1")) None None]
      [linha_planilha (CStr "SC1") (CStr "PC1");
       linha_planilha (CStr "SC2") (CStr "PC1");
       linha_planilha (CStr "SC2") (CStr "PC1")] = Ok st' /\
    List.length (st_db st') = 2%nat /\
    NoDup (pares (st_db st')).
Proof.
  eexists. split; [reflexivity|]. split; [reflexivity|].
  apply (importar_no_new_duplicates pylib_exemplo (fun _ => meia_noite)
           [pedido_exemplo 1 None None (Some (lit "PC1")) (Some (lit "SC1")) None None]
           [linha_planilha (CStr "SC1") (CStr "PC1");
            linha_planilha (CStr "SC2") (CStr "PC1");
            linha_planilha (CStr "SC2") (CStr "PC1")]).
  - cbn. constructor; [intros []|constructor].
  - reflexivity.
Defined.

Lemma importar_linhas_present (L : pylib) (relogio : nat -> datetime)
    (rows : list (list cell)) : forall k st st',
  importar_linhas L relogio k st rows = Ok st' ->
  (exists extra, st_db st' = st_db st ++ extra) /\
  (forall cols, In cols rows -> tem_dados cols = true -> tem_numero L cols = true ->
     par_duplicado (st_db st') (numero_pc_linha L cols) (numero_sc_linha L cols)).
Proof.
  induction rows as [|cols rest IH]; intros k st st'; cbn [importar_linhas].
  - intros H. injection H as <-. split; [exists []; rewrite app_nil_r; reflexivity|].
    intros cols [].
  - destruct (importar_linha L (relogio k) st cols) as [st1|] eqn:E; [|discriminate].
    intros Hrun. destruct (IH _ _ _ Hrun) as [[extra Hext] Hpres].
    assert (H1 : (exists e1, st_db st1 = st_db st ++ e1) /\
                 (tem_dados cols = true -> tem_numero L cols = true ->
                  par_duplicado (st_db st1) (numero_pc_linha L cols) (numero_sc_linha L cols))).
    { unfold importar_linha in E. fold (tem_dados cols) in E.
      destruct (tem_dados cols); cbn [negb] in E.
      - destruct (parse_valor_import L (col cols 10 CNone)) as [valor|]; [|discriminate].
        fold (numero_pc_linha L cols) (numero_sc_linha L cols) in E.
        destruct (ja_existe_pedido _ _ _) eqn:Ej; injection E as <-; cbn [st_db].
        + split; [exists []; rewrite app_nil_r; reflexivity|].
          intros _ _. apply ja_existe_pedido_spec, Ej.
        + split; [eexists; reflexivity|]. intros _ Hn.
          split; [apply tem_numero_spec, Hn|].
          eexists. split; [apply in_or_app; right; left; reflexivity|].
          split; reflexivity.
      - injection E as <-. split; [exists []; rewrite app_nil_r; reflexivity|].
        discriminate. }
    destruct H1 as [[e1 He1] Hp1]. split.
    + exists (e1 ++ extra). rewrite Hext, He1, app_assoc. reflexivity.
    + intros c [<-|Hin] Hd Hn; [|apply Hpres; assumption].
      rewrite Hext. apply par_duplicado_mono, Hp1; assumption.
Qed.

Lemma importar_linhas_rerun (L : pylib) (relogio : nat -> datetime)
    (rows : list (list cell)) : forall k st,
  (forall cols, In cols rows -> cell_in_range (col cols 10 CNone)) ->
  (forall cols, In cols rows -> tem_dados cols = true -> tem_numero L cols = true ->
     par_duplicado (st_db st) (numero_pc_linha L cols) (numero_sc_linha L cols)) ->
  exists st' novos,
    importar_linhas L relogio k st rows = Ok st' /\
    st_db st' = st_db st ++ novos /\
    pulados st' = pulados st
      + Z.of_nat (List.length (filter (fun c => tem_dados c && tem_numero L c) rows)) /\
    inseridos st' = inseridos st
      + Z.of_nat (List.length (filter (fun c => tem_dados c && negb (tem_numero L c)) rows)) /\
    List.length novos =
      List.length (filter (fun c => tem_dados c && negb (tem_numero L c)) rows).
Proof.
  induction rows as [|cols rest IH]; intros k st Hr Hp.
  - exists st, []. cbn. rewrite app_nil_r. repeat split; lia.
  - cbn [importar_linhas filter].
    destruct (importar_linha_step L (relogio k) st cols (Hr cols (or_introl eq_refl)))
      as [valor [_ Hstep]].
    rewrite Hstep. clear Hstep.
    assert (Hrest : forall c, In c rest -> cell_in_range (col c 10 CNone))
      by (intros c Hc; apply Hr; right; exact Hc).
    destruct (tem_dados cols) eqn:Ed; cbn [negb andb].
    + destruct (tem_numero L cols) eqn:En; cbn [negb].
      * rewrite (proj2 (ja_existe_pedido_spec _ _ _) (Hp cols (or_introl eq_refl) Ed En)).
        destruct (IH (S k) {| st_db := st_db st; inseridos := inseridos st;
                              pulados := pulados st + 1 |} Hrest)
          as (st' & novos & H1 & H2 & H3 & H4 & H5).
        { intros c Hc. apply Hp. right. exact Hc. }
        exists st', novos. cbn [st_db inseridos pulados List.length] in *.
        repeat split; try assumption; lia.
      * assert (Ej : ja_existe_pedido (st_db st) (numero_pc_linha L cols)
                       (numero_sc_linha L cols) = false).
        { apply ja_existe_pedido_false. intros [Hne _].
          apply tem_numero_spec in Hne. congruence. }
        rewrite Ej.
        destruct (IH (S k)
                    {| st_db := st_db st ++ [linha_importada L (relogio k) (st_db st) cols valor];
                       inseridos := inseridos st + 1; pulados := pulados st |} Hrest)
          as (st' & novos & H1 & H2 & H3 & H4 & H5).
        { intros c Hc Hd Hn. cbn [st_db]. apply par_duplicado_mono, Hp; try assumption.
          right. exact Hc. }
        exists st', (linha_importada L (relogio k) (st_db st) cols valor :: novos).
        cbn [st_db inseridos pulados List.length] in *.
        rewrite H2, <- app_assoc. repeat split; try assumption; try lia.
    + destruct (IH (S k) st Hrest) as (st' & novos & H1 & H2 & H3 & H4 & H5).
      { intros c Hc. apply Hp. right. exact Hc. }
      exists st', novos. repeat split; assumption.
Qed.

(** X18.  Importing the same sheet again: after a first run, a second
    run over the same rows skips every row that has a purchase-order or
    requisition number and inserts again every row with data that has
    neither; when all rows with data have a number, the second run
    leaves the table as the first left it. *)
Theorem importar_twice (L : pylib) (relogio relogio2 : nat -> datetime)
    (db : store) (rows : list (list cell)) (st1 : import_state) :
  (forall cols, In cols rows -> cell_in_range (col cols 10 CNone)) ->
  importar L relogio db rows = Ok st1 ->
  exists st2 novos,
    importar L relogio2 (st_db st1) rows = Ok st2 /\
    st_db st2 = st_db st1 ++ novos /\
    pulados st2 =
      Z.of_nat (List.length (filter (fun c => tem_dados c && tem_numero L c) rows)) /\
    inseridos st2 =
      Z.of_nat (List.length (filter (fun c => tem_dados c && negb (tem_numero L c)) rows)) /\
    ((forall cols, In cols rows -> tem_dados cols = true -> tem_numero L cols = true) ->
     st_db st2 = st_db st1).
Proof.
  intros Hr H1. unfold importar in *.
  destruct (importar_linhas_present _ _ _ _ _ _ H1) as [_ Hpres].
  destruct (importar_linhas_rerun L relogio2 rows 0
              {| st_db := st_db st1; inseridos := 0; pulados := 0 |} Hr Hpres)
    as (st2 & novos & R1 & R2 & R3 & R4 & R5).
  exists st2, novos. cbn [st_db inseridos pulados] in *.
  split; [exact R1|]. split; [exact R2|]. split; [lia|]. split; [lia|].
  intros Hall.
  assert (Hz : filter (fun c => tem_dados c && negb (tem_numero L c)) rows = []).
  { clear -Hall. induction rows as [|c t IH]; [reflexivity|]. cbn [filter].
    destruct (tem_dados c) eqn:Ed; cbn [andb].
    - rewrite (Hall c (or_introl eq_refl) Ed). cbn [negb].
      apply IH. intros c' Hc'. apply Hall. right. exact Hc'.
    - apply IH. intros c' Hc'. apply Hall. right. exact Hc'. }
  rewrite Hz in R5. destruct novos; [|discriminate].
  rewrite R2, app_nil_r. reflexivity.
Qed.

Lemma importar_twice_witness :
  exists st1 st2,
    importar pylib_exemplo (fun _ => meia_noite) []
      [linha_planilha (CStr "SC1") (CStr "PC1"); linha_planilha (CStr "SC2") (CStr "")]
      = Ok st1 /\
    importar pylib_exemplo (fun _ => meia_noite) (st_db st1)
      [linha_planilha (CStr "SC1") (CStr "PC1"); linha_planilha (CStr "SC2") (CStr "")]
      = Ok st2 /\
    st_db st2 = st_db st1.
Proof.
  eexists.
  assert (Hr : forall cols,
             In cols [linha_planilha (CStr "SC1") (CStr "PC1");
                      linha_planilha (CStr "SC2") (CStr "")] ->
             cell_in_range (col cols 10 CNone)).
  { intros cols [<-|[<-|[]]]; exact I. }
  destruct (importar_twice pylib_exemplo (fun _ => meia_noite) (fun _ => meia_noite) []
              _ _ Hr eq_refl)
    as (st2 & novos & R1 & _ & _ & _ & R5).
  exists st2. split; [reflexivity|]. split; [exact R1|].
  apply R5. intros cols [<-|[<-|[]]] _; reflexivity.
Defined.

(* ================================================================== *)
(** * The tag filter of the dashboard *)
(* ================================================================== *)

Lemma distinct_In (x : str) (l : list str) : In x (distinct l) <-> In x l.
Proof.
  induction l as [|y t IH]; cbn [distinct]; [reflexivity|].
  cbn [In]. rewrite filter_In, IH.
  destruct (str_eqb y x) eqn:E.
  - apply str_eqb_eq in E. subst. cbn. intuition congruence.
  - apply str_eqb_neq in E. cbn. intuition congruence.
Qed.

Lemma distinct_NoDup (l : list str) : NoDup (distinct l).
Proof.
  induction l as [|y t IH]; cbn [distinct]; constructor.
  - rewrite filter_In, str_eqb_refl. cbn. intros [_ H]. discriminate.
  - apply NoDup_filter, IH.
Qed.

Lemma drop_while_nil (p : ascii -> bool) (s : str) :
  drop_while p s = [] -> forallb p s = true.
Proof.
  induction s as [|c t IH]; cbn [drop_while forallb]; [reflexivity|].
  destruct (p c) eqn:E; [exact IH | discriminate].
Qed.

Lemma drop_while_all (p : ascii -> bool) (s : str) :
  forallb p s = true -> drop_while p s = [].
Proof.
  induction s as [|c t IH]; cbn [drop_while forallb]; [reflexivity|].
  destruct (p c); [exact IH | discriminate].
Qed.

Lemma drop_while_all_nil (p : ascii -> bool) (s : str) :
  forallb p (drop_while p s) = true -> drop_while p s = [].
Proof.
  induction s as [|c t IH]; cbn [drop_while]; [reflexivity|].
  destruct (p c) eqn:E; [exact IH|]. cbn [forallb]. rewrite E. discriminate.
Qed.

(** A text that [TRIM] empties is emptied by [strip]. *)
Lemma sql_trim_blank_strip (s : str) :
  Sql.TRIM (Some s) = Some [] -> strip s = [].
Proof.
  unfold Sql.TRIM. intros H. injection H as H.
  apply (f_equal (@rev ascii)) in H. rewrite rev_involutive in H. cbn [rev] in H.
  apply drop_while_nil in H. rewrite forallb_forall in H.
  assert (Hd : drop_while is_blank_char s = []).
  { apply drop_while_all_nil. apply forallb_forall. intros c Hc.
    apply H, in_rev. rewrite rev_involutive. exact Hc. }
  apply drop_while_nil in Hd. rewrite forallb_forall in Hd.
  unfold strip, rstrip, lstrip.
  rewrite (drop_while_all isspace s); [reflexivity|].
  apply forallb_forall. intros c Hc. apply blank_isspace, Hd, Hc.
Qed.

Lemma where_tem_tag_ok (r : pedido) :
  normalize_tag (tag r) <> [] -> Sql.where_ok where_tem_tag r = true.
Proof.
  intros Hne. unfold Sql.where_ok, where_tem_tag. cbn [forallb].
  destruct (tag r) as [s|] eqn:Et; [|exfalso; apply Hne; reflexivity].
  cbn [Sql.is_true andb].
  destruct (Sql.TRIM (Some s)) as [u|] eqn:Eu; [|discriminate].
  destruct (str_eqb u []) eqn:E; [|reflexivity].
  apply str_eqb_eq in E. subst u. exfalso. apply Hne.
  unfold normalize_tag. cbn [or_empty]. rewrite (sql_trim_blank_strip s Eu). reflexivity.
Qed.

Lemma dashboard_lista_tags_In (db : store) (t : str) :
  In t (dashboard_lista_tags db) <->
  t <> [] /\ exists r, In r db /\ normalize_tag (tag r) = t.
Proof.
  unfold dashboard_lista_tags. rewrite filter_In, truthy_true.
  assert (Hp : forall l : list str, In t (sort_by (fun x => x) l) <-> In t l).
  { intros l. split; apply Permutation_in;
      [apply Permutation_sym|]; apply sort_by_perm. }
  rewrite Hp, distinct_In, in_map_iff. unfold Sql.select. split.
  - intros [[r [Hk Hin]] Hne]. apply filter_In in Hin.
    split; [exact Hne|]. exists r. split; [apply Hin | exact Hk].
  - intros [Hne [r [Hin Hk]]]. split; [|exact Hne].
    exists r. split; [exact Hk|]. apply filter_In. split; [exact Hin|].
    apply where_tem_tag_ok. rewrite Hk. exact Hne.
Qed.

Lemma dashboard_rows_one_tag (sql_date : str -> option Z) (isoformat : Z -> str)
    (hoje : Z) (db : store) (x : option str) :
  normalize_tag x <> [] ->
  dashboard_rows sql_date isoformat hoje [(lit "tag", normalize_tag x)] db =
  filter (fun r => str_eqb (normalize_tag (tag r)) (normalize_tag x)) db.
Proof.
  intros Hne. unfold dashboard_rows, dashboard_filtros, dashboard_where, Sql.select.
  cbn [List.length Nat.eqb f_data_inicio f_data_fim f_obra f_veiculo f_tag].
  assert (Hg : forall k : str, str_eqb k (lit "tag") = false ->
                 get_strip k [(lit "tag", normalize_tag x)] = []).
  { intros k Hk. unfold get_strip. cbn [md_get]. rewrite Hk. reflexivity. }
  rewrite !Hg by reflexivity.
  assert (Ht : get_strip "tag" [(lit "tag", normalize_tag x)] = normalize_tag x).
  { unfold get_strip. cbn [md_get]. rewrite str_eqb_refl. cbn [or_empty].
    apply normalize_tag_strip. }
  rewrite Ht. cbn [truthy app].
  rewrite (proj2 (truthy_true _) Hne). cbn [app].
  apply filter_ext. intros r. unfold Sql.where_ok. cbn [forallb].
  rewrite normalize_tag_idem. unfold Sql.NORM_TAG. cbn [Sql.eq_param Sql.is_true].
  rewrite andb_true_r. destruct (str_eqb _ _); reflexivity.
Qed.

Lemma str_leb_trans (a : str) : forall b c,
  str_leb a b = true -> str_leb b c = true -> str_leb a c = true.
Proof.
  induction a as [|x a IH]; intros [|y b] [|z c]; cbn [str_leb]; try congruence.
  destruct (nat_of_ascii x <? nat_of_ascii y)%nat eqn:E1;
    destruct (nat_of_ascii y <? nat_of_ascii x)%nat eqn:E2;
    destruct (nat_of_ascii y <? nat_of_ascii z)%nat eqn:E3;
    destruct (nat_of_ascii z <? nat_of_ascii y)%nat eqn:E4;
    destruct (nat_of_ascii x <? nat_of_ascii z)%nat eqn:E5;
    destruct (nat_of_ascii z <? nat_of_ascii x)%nat eqn:E6;
    try congruence;
    repeat match goal with
           | H : (_ <? _)%nat = true |- _ => apply Nat.ltb_lt in H
           | H : (_ <? _)%nat = false |- _ => apply Nat.ltb_ge in H
           end; try lia.
  apply IH.
Qed.

Lemma filter_sorted (p : str -> bool) (l : list str) :
  Sorted (fun a b => str_leb a b = true) l ->
  Sorted (fun a b => str_leb a b = true) (filter p l).
Proof.
  intros Hs. apply StronglySorted_Sorted.
  apply Sorted_StronglySorted in Hs.
  2:{ intros a b c. apply str_leb_trans. }
  induction Hs as [|x t Ht IH Hx]; cbn [filter]; [constructor|].
  destruct (p x); [|exact IH]. constructor; [exact IH|].
  apply Forall_forall. intros y Hy. apply filter_In in Hy.
  rewrite Forall_forall in Hx. apply Hx, Hy.
Qed.

(** X19.  The tag filter of the dashboard offers each non-empty
    canonical tag of the table once, in ascending order, and nothing
    else; choosing an entry (with no other filter) shows exactly the
    orders whose canonical tag is that entry, and at least one. *)
Theorem dashboard_lista_tags_select (sql_date : str -> option Z)
    (isoformat : Z -> str) (hoje : Z) (db : store) :
  NoDup (dashboard_lista_tags db) /\
  Sorted (fun a b => str_leb a b = true) (dashboard_lista_tags db) /\
  (forall t, In t (dashboard_lista_tags db) <->
     t <> [] /\ exists r, In r db /\ normalize_tag (tag r) = t) /\
  (forall t, In t (dashboard_lista_tags db) ->
     dashboard_rows sql_date isoformat hoje [(lit "tag", t)] db
     = filter (fun r => str_eqb (normalize_tag (tag r)) t) db /\
     dashboard_rows sql_date isoformat hoje [(lit "tag", t)] db <> []).
Proof.
  split; [|split; [|split]].
  - unfold dashboard_lista_tags. apply NoDup_filter.
    apply (Permutation_NoDup (sort_by_perm _ _)), distinct_NoDup.
  - unfold dashboard_lista_tags. apply filter_sorted.
    apply (sort_by_sorted (fun t : str => t)).
  - apply dashboard_lista_tags_In.
  - intros t Hin. apply dashboard_lista_tags_In in Hin.
    destruct Hin as [Hne [r [Hin Hk]]]. subst t.
    rewrite (dashboard_rows_one_tag _ _ _ _ _ Hne). split; [reflexivity|].
    intros Hnil.
    assert (Hr : In r (filter (fun r0 => str_eqb (normalize_tag (tag r0))
                                                 (normalize_tag (tag r))) db)).
    { apply filter_In. split; [exact Hin | apply str_eqb_refl]. }
    rewrite Hnil in Hr. exact Hr.
Qed.

(* ================================================================== *)
(** * Users and sessions *)
(* ================================================================== *)

Lemma fold_max_usuario_ge (db : usuarios) : forall m,
  m <= fold_left (fun m u => Z.max m (u_id u)) db m /\
  forall u, In u db -> u_id u <= fold_left (fun m u => Z.max m (u_id u)) db m.
Proof.
  induction db as [|a t IH]; intros m; cbn [fold_left].
  - split; [lia | intros u []].
  - destruct (IH (Z.max m (u_id a))) as [H1 H2]. split; [lia|].
    intros u [<-|Hin]; [lia | apply H2, Hin].
Qed.

Lemma next_usuario_id_fresh (db : usuarios) (u : usuario) :
  In u db -> u_id u < next_usuario_id db.
Proof.
  intros H. unfold next_usuario_id.
  pose proof (proj2 (fold_max_usuario_ge db 0) u H). lia.
Qed.

Lemma find_app_none {A} (p : A -> bool) (l l' : list A) :
  find p l = None -> find p (l ++ l') = find p l'.
Proof.
  induction l as [|a t IH]; cbn [find app]; [reflexivity|].
  destruct (p a); [discriminate | exact IH].
Qed.

Lemma existsb_find_none {A} (p : A -> bool) (l : list A) :
  existsb p l = false <-> find p l = None.
Proof.
  induction l as [|a t IH]; cbn [existsb find]; [split; reflexivity|].
  destruct (p a); cbn [orb]; [split; discriminate | exact IH].
Qed.

(** With unique names, the row found by name is the row of that name. *)
Lemma usuario_por_username_unique (db : usuarios) (u : usuario) :
  NoDup (map username db) -> In u db ->
  usuario_por_username db (username u) = Some u.
Proof.
  unfold usuario_por_username.
  induction db as [|a t IH]; intros Hnd Hin; [destruct Hin|].
  cbn [map] in Hnd. inversion Hnd as [|? ? Hna Hnt]; subst.
  cbn [find]. destruct Hin as [->|Hin]; [rewrite str_eqb_refl; reflexivity|].
  destruct (str_eqb (username a) (username u)) eqn:E; [|apply IH; assumption].
  apply str_eqb_eq in E. exfalso. apply Hna. rewrite E. apply in_map, Hin.
Qed.

Lemma usuario_por_id_unique (db : usuarios) (u : usuario) :
  NoDup (map u_id db) -> In u db -> usuario_por_id db (u_id u) = Some u.
Proof.
  unfold usuario_por_id.
  induction db as [|a t IH]; intros Hnd Hin; [destruct Hin|].
  cbn [map] in Hnd. inversion Hnd as [|? ? Hna Hnt]; subst.
  cbn [find]. destruct Hin as [->|Hin]; [rewrite Z.eqb_refl; reflexivity|].
  destruct (u_id a =? u_id u) eqn:E; [|apply IH; assumption].
  apply Z.eqb_eq in E. exfalso. apply Hna. rewrite E. apply in_map, Hin.
Qed.

Lemma update_senha_cols (db : usuarios) (nova : str) (i : Z) :
  map u_id (update_senha db nova i) = map u_id db /\
  map username (update_senha db nova i) = map username db /\
  map is_admin (update_senha db nova i) = map is_admin db.
Proof.
  unfold update_senha. rewrite !map_map.
  repeat split; apply map_ext; intros u; destruct (u_id u =? i); reflexivity.
Qed.

Lemma update_senha_In (db : usuarios) (nova : str) (u : usuario) :
  In u db ->
  In {| u_id := u_id u; username := username u; senha := nova; is_admin := is_admin u |}
     (update_senha db nova (u_id u)).
Proof.
  intros Hin. unfold update_senha. apply in_map_iff. exists u.
  rewrite Z.eqb_refl. split; [reflexivity | exact Hin].
Qed.

Lemma update_senha_others (db : usuarios) (nova : str) (i : Z) (u : usuario) :
  In u db -> u_id u <> i -> In u (update_senha db nova i).
Proof.
  intros Hin Hne. unfold update_senha. apply in_map_iff. exists u.
  rewrite (proj2 (Z.eqb_neq _ _) Hne). split; [reflexivity | exact Hin].
Qed.

Lemma usernames_snoc_NoDup (db : usuarios) (u : usuario) :
  NoDup (map username db) ->
  existsb (fun x => str_eqb (username x) (username u)) db = false ->
  NoDup (map username (db ++ [u])).
Proof.
  intros Hnd Hex. rewrite map_app. cbn [map].
  apply (Permutation_NoDup (Permutation_cons_append _ _)).
  constructor; [|exact Hnd]. intros Hin. apply in_map_iff in Hin.
  destruct Hin as [x [Hx Hin]].
  assert (H : existsb (fun x => str_eqb (username x) (username u)) db = true).
  { apply existsb_exists. exists x. split; [exact Hin | apply str_eqb_eq, Hx]. }
  congruence.
Qed.

Lemma usuario_ids_snoc_NoDup (db : usuarios) (u : usuario) :
  NoDup (map u_id db) -> u_id u = next_usuario_id db ->
  NoDup (map u_id (db ++ [u])).
Proof.
  intros Hnd Hid. rewrite map_app. cbn [map].
  apply (Permutation_NoDup (Permutation_cons_append _ _)).
  constructor; [|exact Hnd]. intros Hin. apply in_map_iff in Hin.
  destruct Hin as [x [Hx Hin]]. pose proof (next_usuario_id_fresh db x Hin). lia.
Qed.

(** The login of a request whose credentials are those of a stored row
    found by name, outside the master key. *)
Lemma login_por_banco (rq : requisicao) (db : usuarios) (u : usuario) :
  r_method rq = lit "POST" ->
  usuario_por_username db (login_username (r_form rq)) = Some u ->
  senha u = login_senha (r_form rq) ->
  e_resp (login rq db) = Redireciona (next_url (r_args rq)) /\
  s_usuario_id (e_session (login rq db)) <> None /\
  (~ (login_username (r_form rq) = lit "admin" /\
      login_senha (r_form rq) = lit "admin") ->
   e_session (login rq db) =
     {| s_usuario_id := Some (u_id u); s_usuario := Some (username u);
        s_is_admin := Some (negb (is_admin u =? 0)) |}).
Proof.
  intros Hm Hf Hs. unfold login. rewrite Hm, str_eqb_refl.
  destruct (str_eqb (login_username (r_form rq)) "admin"
            && str_eqb (login_senha (r_form rq)) "admin") eqn:E.
  - cbn [e_resp e_session s_usuario_id]. split; [reflexivity|]. split; [discriminate|].
    intros Hn. exfalso. apply Hn. apply andb_true_iff in E.
    split; apply str_eqb_eq; apply E.
  - rewrite Hf, Hs, str_eqb_refl. cbn [e_resp e_session s_usuario_id].
    split; [reflexivity|]. split; [discriminate|]. reflexivity.
Qed.

(** X20.  A user created by an administrator can log in: after a
    successful [novo_usuario], a login with the same name and password
    (as typed, surrounding whitespace aside) is accepted; outside the
    master key the session carries the new user's id, name and the
    administrator flag chosen in the form. *)
Theorem novo_usuario_then_login (rq rq' : requisicao) (db : usuarios) (uid : Z) :
  s_usuario_id (r_session rq) = Some uid ->
  sessao_admin (r_session rq) = true ->
  r_method rq = lit "POST" ->
  get_strip "username" (r_form rq) <> [] ->
  get_strip "senha" (r_form rq) <> [] ->
  (forall u, In u db -> username u <> get_strip "username" (r_form rq)) ->
  r_method rq' = lit "POST" ->
  login_username (r_form rq') = get_strip "username" (r_form rq) ->
  login_senha (r_form rq') = get_strip "senha" (r_form rq) ->
  exists novo,
    e_usuarios (novo_usuario rq db) = db ++ [novo] /\
    username novo = get_strip "username" (r_form rq) /\
    senha novo = get_strip "senha" (r_form rq) /\
    (is_admin novo = 1 <-> md_get "is_admin" (r_form rq) = Some (lit "on")) /\
    e_resp (login rq' (db ++ [novo])) = Redireciona (next_url (r_args rq')) /\
    s_usuario_id (e_session (login rq' (db ++ [novo]))) <> None /\
    (~ (username novo = lit "admin" /\ senha novo = lit "admin") ->
     e_session (login rq' (db ++ [novo])) =
       {| s_usuario_id := Some (u_id novo); s_usuario := Some (username novo);
          s_is_admin := Some (negb (is_admin novo =? 0)) |}).
Proof.
  intros Hid Hadm Hm Hu Hp Hfree Hm' Hu' Hp'.
  assert (Hex : existsb (fun u => str_eqb (username u) (get_strip "username" (r_form rq))) db
                = false).
  { destruct (existsb _ db) eqn:E; [|reflexivity].
    apply existsb_exists in E. destruct E as [u [Hin E]].
    apply str_eqb_eq in E. exfalso. exact (Hfree u Hin E). }
  unfold novo_usuario, login_required. rewrite Hid, Hadm, Hm, str_eqb_refl.
  cbn [negb]. rewrite (proj2 (truthy_true _) Hu), (proj2 (truthy_true _) Hp).
  cbn [negb orb]. rewrite Hex. cbn [e_usuarios].
  eexists. split; [reflexivity|]. cbn [username senha is_admin u_id].
  split; [reflexivity|]. split; [reflexivity|]. split.
  { destruct (md_get "is_admin" (r_form rq)) as [v|]; [|split; discriminate].
    destruct (str_eqb v "on") eqn:E.
    - apply str_eqb_eq in E. subst v. split; reflexivity.
    - apply str_eqb_neq in E. split; [discriminate|]. intros H. congruence. }
  match goal with |- context [db ++ [?n]] => set (novo := n) end.
  assert (Hf : usuario_por_username (db ++ [novo]) (login_username (r_form rq')) = Some novo).
  { unfold usuario_por_username. rewrite find_app_none.
    - cbn [find]. subst novo. cbn [username]. rewrite Hu', str_eqb_refl. reflexivity.
    - apply existsb_find_none. rewrite Hu'. exact Hex. }
  destruct (login_por_banco rq' (db ++ [novo]) novo Hm' Hf (eq_sym Hp')) as (H1 & H2 & H3).
  split; [exact H1|]. split; [exact H2|].
  intros Hn. apply H3. rewrite Hu', Hp'. exact Hn.
Qed.

Lemma novo_usuario_then_login_witness :
  exists novo,
    e_usuarios
      (novo_usuario
         {| r_method := lit "POST"; r_url := lit "/usuarios/novo"; r_args := [];
            r_form := [(lit "username", lit " maria "); (lit "senha", lit "s3gredo");
                       (lit "is_admin", lit "on")];
            r_session := {| s_usuario_id := Some 1; s_usuario := Some (lit "admin");
                            s_is_admin := Some true |} |}
         [{| u_id := 1; username := lit "admin"; senha := lit "admin"; is_admin := 1 |}])
    = [{| u_id := 1; username := lit "admin"; senha := lit "admin"; is_admin := 1 |}]
      ++ [novo] /\
    username novo = lit "maria" /\
    e_session
      (login {| r_method := lit "POST"; r_url := lit "/login"; r_args := [];
                r_form := [(lit "usuario", lit "maria"); (lit "password", lit " s3gredo")];
                r_session := sessao_vazia |}
             ([{| u_id := 1; username := lit "admin"; senha := lit "admin";
                  is_admin := 1 |}] ++ [novo]))
    = {| s_usuario_id := Some 2; s_usuario := Some (lit "maria");
         s_is_admin := Some true |}.
Proof.
  destruct (novo_usuario_then_login
              {| r_method := lit "POST"; r_url := lit "/usuarios/novo"; r_args := [];
                 r_form := [(lit "username", lit " maria "); (lit "senha", lit "s3gredo");
                            (lit "is_admin", lit "on")];
                 r_session := {| s_usuario_id := Some 1; s_usuario := Some (lit "admin");
                                 s_is_admin := Some true |} |}
              {| r_method := lit "POST"; r_url := lit "/login"; r_args := [];
                 r_form := [(lit "usuario", lit "maria"); (lit "password", lit " s3gredo")];
                 r_session := sessao_vazia |}
              [{| u_id := 1; username := lit "admin"; senha := lit "admin"; is_admin := 1 |}]
              1 eq_refl eq_refl eq_refl)
    as (novo & H1 & H2 & H3 & H4 & H5 & H6 & H7);
    try (vm_compute; discriminate); try reflexivity.
  - intros u [<-|[]]. vm_compute. discriminate.
  - exists novo. split; [exact H1|]. split; [exact H2|].
    rewrite H7.
    + apply app_inv_head in H1. injection H1 as <-. reflexivity.
    + rewrite H2. intros [H _]. vm_compute in H. discriminate.
Defined.

Lemma login_recusado (rq : requisicao) (db : usuarios) :
  r_method rq = lit "POST" ->
  ~ (login_username (r_form rq) = lit "admin" /\ login_senha (r_form rq) = lit "admin") ->
  (forall u, usuario_por_username db (login_username (r_form rq)) = Some u ->
             senha u <> login_senha (r_form rq)) ->
  login rq db =
  {| e_resp := Renderiza "login.html";
     e_flash := [(msg_login_invalido, lit "danger")];
     e_session := r_session rq;
     e_usuarios := db |}.
Proof.
  intros Hm Hn Hs. unfold login. rewrite Hm, str_eqb_refl.
  destruct (str_eqb (login_username (r_form rq)) "admin"
            && str_eqb (login_senha (r_form rq)) "admin") eqn:E.
  { exfalso. apply Hn. apply andb_true_iff in E. split; apply str_eqb_eq; apply E. }
  destruct (usuario_por_username db (login_username (r_form rq))) as [u|]; [|reflexivity].
  rewrite (proj2 (str_eqb_neq _ _) (Hs u eq_refl)). reflexivity.
Qed.

Lemma alterar_senha_aceita (rq : requisicao) (db : usuarios) (u : usuario) :
  NoDup (map u_id db) -> In u db ->
  s_usuario_id (r_session rq) = Some (u_id u) ->
  r_method rq = lit "POST" ->
  get_strip "senha_atual" (r_form rq) = senha u ->
  senha u <> [] ->
  get_strip "senha_nova" (r_form rq) <> [] ->
  get_strip "senha_conf" (r_form rq) = get_strip "senha_nova" (r_form rq) ->
  alterar_senha rq db =
  {| e_resp := Redireciona (UrlFor "dashboard" []);
     e_flash := [(lit "Senha alterada com sucesso.", lit "success")];
     e_session := r_session rq;
     e_usuarios := update_senha db (get_strip "senha_nova" (r_form rq)) (u_id u) |}.
Proof.
  intros Hnd Hin Hid Hm Ha Hne Hn Hc.
  unfold alterar_senha, login_required. rewrite Hid, Hm, str_eqb_refl.
  rewrite Ha, Hc, (proj2 (truthy_true _) Hne), (proj2 (truthy_true _) Hn).
  cbn [negb orb]. rewrite str_eqb_refl. cbn [negb].
  rewrite (usuario_por_id_unique db u Hnd Hin), str_eqb_refl. reflexivity.
Qed.

(** X21.  A changed password takes effect at the next login: after a
    successful [alterar_senha], the user's name with the new password is
    accepted and opens the session of that user, and the name with any
    other password (the old one included) is refused, the master key
    apart. *)
Theorem alterar_senha_then_login (rq rq' : requisicao) (db : usuarios) (u : usuario) :
  NoDup (map u_id db) -> NoDup (map username db) -> In u db ->
  s_usuario_id (r_session rq) = Some (u_id u) ->
  r_method rq = lit "POST" ->
  get_strip "senha_atual" (r_form rq) = senha u ->
  senha u <> [] ->
  get_strip "senha_nova" (r_form rq) <> [] ->
  get_strip "senha_conf" (r_form rq) = get_strip "senha_nova" (r_form rq) ->
  r_method rq' = lit "POST" ->
  login_username (r_form rq') = username u ->
  ~ (username u = lit "admin" /\ login_senha (r_form rq') = lit "admin") ->
  e_usuarios (alterar_senha rq db)
  = update_senha db (get_strip "senha_nova" (r_form rq)) (u_id u) /\
  (login_senha (r_form rq') = get_strip "senha_nova" (r_form rq) ->
   e_resp (login rq' (e_usuarios (alterar_senha rq db)))
   = Redireciona (next_url (r_args rq')) /\
   e_session (login rq' (e_usuarios (alterar_senha rq db)))
   = {| s_usuario_id := Some (u_id u); s_usuario := Some (username u);
        s_is_admin := Some (negb (is_admin u =? 0)) |}) /\
  (login_senha (r_form rq') <> get_strip "senha_nova" (r_form rq) ->
   e_resp (login rq' (e_usuarios (alterar_senha rq db))) = Renderiza "login.html" /\
   e_flash (login rq' (e_usuarios (alterar_senha rq db)))
   = [(msg_login_invalido, lit "danger")] /\
   e_session (login rq' (e_usuarios (alterar_senha rq db))) = r_session rq').
Proof.
  intros Hnd Hnu Hin Hid Hm Ha Hne Hn Hc Hm' Hu' Hmk.
  rewrite (alterar_senha_aceita rq db u Hnd Hin Hid Hm Ha Hne Hn Hc). cbn [e_usuarios].
  set (nova := get_strip "senha_nova" (r_form rq)).
  set (u' := {| u_id := u_id u; username := username u; senha := nova;
                is_admin := is_admin u |}).
  assert (Hf : usuario_por_username (update_senha db nova (u_id u))
                 (login_username (r_form rq')) = Some u').
  { rewrite Hu'. change (username u) with (username u') at 1.
    apply usuario_por_username_unique.
    - rewrite (proj1 (proj2 (update_senha_cols db nova (u_id u)))). exact Hnu.
    - apply update_senha_In, Hin. }
  assert (Hmk' : ~ (login_username (r_form rq') = lit "admin" /\
                    login_senha (r_form rq') = lit "admin"))
    by (rewrite Hu'; exact Hmk).
  split; [reflexivity|]. split.
  - intros Hp.
    destruct (login_por_banco rq' (update_senha db nova (u_id u)) u' Hm' Hf (eq_sym Hp))
      as (H1 & _ & H3).
    split; [exact H1|]. rewrite (H3 Hmk'). reflexivity.
  - intros Hp. rewrite login_recusado; [repeat split | exact Hm' | exact Hmk' |].
    intros x Hx. rewrite Hf in Hx. injection Hx as <-. subst u'. cbn [senha].
    intros H. apply Hp. symmetry. exact H.
Qed.

Lemma alterar_senha_then_login_witness :
  e_session
    (login {| r_method := lit "POST"; r_url := lit "/login"; r_args := [];
              r_form := [(lit "username", lit "maria"); (lit "senha", lit "nova1")];
              r_session := sessao_vazia |}
       (e_usuarios
          (alterar_senha
             {| r_method := lit "POST"; r_url := lit "/alterar_senha"; r_args := [];
                r_form := [(lit "senha_atual", lit "velha"); (lit "senha_nova", lit "nova1");
                           (lit "senha_conf", lit "nova1 ")];
                r_session := {| s_usuario_id := Some 2; s_usuario := Some (lit "maria");
                                s_is_admin := Some false |} |}
             [{| u_id := 1; username := lit "admin"; senha := lit "admin"; is_admin := 1 |};
              {| u_id := 2; username := lit "maria"; senha := lit "velha"; is_admin := 0 |}])))
  = {| s_usuario_id := Some 2; s_usuario := Some (lit "maria"); s_is_admin := Some false |}.
Proof.
  refine (proj2 (proj1 (proj2
    (alterar_senha_then_login
       {| r_method := lit "POST"; r_url := lit "/alterar_senha"; r_args := [];
          r_form := [(lit "senha_atual", lit "velha"); (lit "senha_nova", lit "nova1");
                     (lit "senha_conf", lit "nova1 ")];
          r_session := {| s_usuario_id := Some 2; s_usuario := Some (lit "maria");
                          s_is_admin := Some false |} |}
       {| r_method := lit "POST"; r_url := lit "/login"; r_args := [];
          r_form := [(lit "username", lit "maria"); (lit "senha", lit "nova1")];
          r_session := sessao_vazia |}
       [{| u_id := 1; username := lit "admin"; senha := lit "admin"; is_admin := 1 |};
        {| u_id := 2; username := lit "maria"; senha := lit "velha"; is_admin := 0 |}]
       {| u_id := 2; username := lit "maria"; senha := lit "velha"; is_admin := 0 |}
       _ _ (or_intror (or_introl eq_refl)) eq_refl eq_refl eq_refl _ _ eq_refl
       eq_refl eq_refl _)) eq_refl)).
  - cbn [map u_id].
    constructor; [intros [H|[]]; discriminate | constructor; [intros [] | constructor]].
  - cbn [map username].
    constructor; [intros [H|[]]; discriminate | constructor; [intros [] | constructor]].
  - discriminate.
  - vm_compute. discriminate.
  - intros [H _]. discriminate.
Defined.

(** X22.  [novo_usuario] keeps the table of users well formed: names
    and ids stay unique, the rows already stored are kept as they are
    and in place, at most one row is added, and a request without a
    session or from a session that is not an administrator's adds
    none. *)
Theorem novo_usuario_invariants (rq : requisicao) (db : usuarios) :
  NoDup (map username db) -> NoDup (map u_id db) ->
  NoDup (map username (e_usuarios (novo_usuario rq db))) /\
  NoDup (map u_id (e_usuarios (novo_usuario rq db))) /\
  (exists extra, e_usuarios (novo_usuario rq db) = db ++ extra /\
                 (List.length extra <= 1)%nat /\
                 (forall u, In u extra ->
                    username u <> [] /\ senha u <> [] /\
                    strip (username u) = username u /\ strip (senha u) = senha u)) /\
  (s_usuario_id (r_session rq) = None \/ sessao_admin (r_session rq) = false ->
   e_usuarios (novo_usuario rq db) = db).
Proof.
  intros Hnu Hni.
  assert (Hsame : forall r f s, e_usuarios {| e_resp := r; e_flash := f; e_session := s;
                                               e_usuarios := db |} = db) by reflexivity.
  assert (Hkeep : forall db', db' = db ->
            NoDup (map username db') /\ NoDup (map u_id db') /\
            (exists extra, db' = db ++ extra /\ (List.length extra <= 1)%nat /\
               (forall u, In u extra ->
                  username u <> [] /\ senha u <> [] /\
                  strip (username u) = username u /\ strip (senha u) = senha u)) /\
            (s_usuario_id (r_session rq) = None \/ sessao_admin (r_session rq) = false ->
             db' = db)).
  { intros db' ->. split; [exact Hnu|]. split; [exact Hni|]. split; [|reflexivity].
    exists []. rewrite app_nil_r. split; [reflexivity|]. split; [cbn; lia|]. intros u []. }
  unfold novo_usuario, login_required.
  destruct (s_usuario_id (r_session rq)) as [uid|]; [|apply Hkeep; reflexivity].
  destruct (sessao_admin (r_session rq)) eqn:Ea; cbn [negb]; [|apply Hkeep; reflexivity].
  destruct (str_eqb (r_method rq) "POST"); [|apply Hkeep; reflexivity].
  destruct (truthy (get_strip "username" (r_form rq))) eqn:Eu; cbn [negb orb];
    [|apply Hkeep; reflexivity].
  destruct (truthy (get_strip "senha" (r_form rq))) eqn:Ep; cbn [negb];
    [|apply Hkeep; reflexivity].
  destruct (existsb _ db) eqn:Ex; [apply Hkeep; reflexivity|].
  cbn [e_usuarios]. split; [|split; [|split]].
  - apply usernames_snoc_NoDup; [exact Hnu | exact Ex].
  - apply usuario_ids_snoc_NoDup; [exact Hni | reflexivity].
  - eexists. split; [reflexivity|]. split; [cbn; lia|].
    intros u [<-|[]]. cbn [username senha].
    split; [apply truthy_true, Eu|]. split; [apply truthy_true, Ep|].
    unfold get_strip. split; apply strip_idem.
  - intros [H|H]; discriminate.
Qed.

Lemma novo_usuario_invariants_witness :
  NoDup (map username
           (e_usuarios
              (novo_usuario
                 {| r_method := lit "POST"; r_url := lit "/usuarios/novo"; r_args := [];
                    r_form := [(lit "username", lit "admin"); (lit "senha", lit "x")];
                    r_session := {| s_usuario_id := Some 1; s_usuario := Some (lit "admin");
                                    s_is_admin := Some true |} |}
                 [{| u_id := 1; username := lit "admin"; senha := lit "admin";
                     is_admin := 1 |}]))).
Proof.
  apply (novo_usuario_invariants
           {| r_method := lit "POST"; r_url := lit "/usuarios/novo"; r_args := [];
              r_form := [(lit "username", lit "admin"); (lit "senha", lit "x")];
              r_session := {| s_usuario_id := Some 1; s_usuario := Some (lit "admin");
                              s_is_admin := Some true |} |}
           [{| u_id := 1; username := lit "admin"; senha := lit "admin"; is_admin := 1 |}]);
    cbn [map]; (constructor; [intros [] | constructor]).
Defined.

(** X23.  [alterar_senha] changes at most one thing, the password of the
    session's user: ids, names and administrator flags stay as they
    are, every row of another user is kept, and the table changes only
    when the request is a POST whose current password is the stored one
    and whose new password is not blank and equals its confirmation. *)
Theorem alterar_senha_frame (rq : requisicao) (db : usuarios) :
  map u_id (e_usuarios (alterar_senha rq db)) = map u_id db /\
  map username (e_usuarios (alterar_senha rq db)) = map username db /\
  map is_admin (e_usuarios (alterar_senha rq db)) = map is_admin db /\
  (forall x, In x db -> s_usuario_id (r_session rq) <> Some (u_id x) ->
             In x (e_usuarios (alterar_senha rq db))) /\
  (e_usuarios (alterar_senha rq db) <> db ->
   r_method rq = lit "POST" /\
   get_strip "senha_nova" (r_form rq) <> [] /\
   get_strip "senha_conf" (r_form rq) = get_strip "senha_nova" (r_form rq) /\
   exists uid u, s_usuario_id (r_session rq) = Some uid /\
                 usuario_por_id db uid = Some u /\
                 senha u = get_strip "senha_atual" (r_form rq) /\
                 e_usuarios (alterar_senha rq db)
                 = update_senha db (get_strip "senha_nova" (r_form rq)) uid).
Proof.
  assert (Hkeep : forall db', db' = db ->
            map u_id db' = map u_id db /\ map username db' = map username db /\
            map is_admin db' = map is_admin db /\
            (forall x, In x db -> s_usuario_id (r_session rq) <> Some (u_id x) -> In x db') /\
            (db' <> db ->
             r_method rq = lit "POST" /\
             get_strip "senha_nova" (r_form rq) <> [] /\
             get_strip "senha_conf" (r_form rq) = get_strip "senha_nova" (r_form rq) /\
             exists uid u, s_usuario_id (r_session rq) = Some uid /\
                           usuario_por_id db uid = Some u /\
                           senha u = get_strip "senha_atual" (r_form rq) /\
                           db' = update_senha db (get_strip "senha_nova" (r_form rq)) uid)).
  { intros db' ->. repeat split; try reflexivity; try (intros; assumption);
      exfalso; match goal with H : db <> db |- _ => apply H; reflexivity end. }
  unfold alterar_senha, login_required.
  destruct (s_usuario_id (r_session rq)) as [uid|] eqn:Eid; [|apply Hkeep; reflexivity].
  destruct (str_eqb (r_method rq) "POST") eqn:Em; [|apply Hkeep; reflexivity].
  destruct (truthy (get_strip "senha_atual" (r_form rq))) eqn:Ea; cbn [negb orb];
    [|apply Hkeep; reflexivity].
  destruct (truthy (get_strip "senha_nova" (r_form rq))) eqn:En; cbn [negb];
    [|apply Hkeep; reflexivity].
  destruct (str_eqb (get_strip "senha_nova" (r_form rq))
                    (get_strip "senha_conf" (r_form rq))) eqn:Ec; cbn [negb];
    [|apply Hkeep; reflexivity].
  destruct (usuario_por_id db uid) as [u|] eqn:Ef; [|apply Hkeep; reflexivity].
  destruct (str_eqb (senha u) (get_strip "senha_atual" (r_form rq))) eqn:Es;
    [|apply Hkeep; reflexivity].
  cbn [e_usuarios].
  destruct (update_senha_cols db (get_strip "senha_nova" (r_form rq)) uid) as (H1 & H2 & H3).
  split; [exact H1|]. split; [exact H2|]. split; [exact H3|]. split.
  - intros x Hin Hne. apply update_senha_others; [exact Hin | congruence].
  - intros _. split; [apply str_eqb_eq, Em|]. split; [apply truthy_true, En|].
    split; [symmetry; apply str_eqb_eq, Ec|].
    exists uid, u. split; [reflexivity|]. split; [exact Ef|].
    split; [apply str_eqb_eq, Es | reflexivity].
Qed.
